(** * acquireQ: the lease/offer state machine of [server/app/queue_manager.py]

    A shallow embedding of [QueueManager] over the three tables of
    [server/app/models.py], followed by the properties of the
    specification that concern it.

    Conventions of the embedding.
    - A [datetime] is an integer count of microseconds since
      0001-01-01T00:00:00, the least [datetime]; [utcnow()] is an argument
      [now] of every operation that reads the clock. A [timedelta]
      outside the range of [timedelta], and a sum of a [datetime] and a
      [timedelta] outside the range of [datetime], raise [OverflowError].
    - The database is the committed content of its tables. Every operation
      of the source commits before the first statement that can fail after
      a write, so no rollback has to be represented, except the early
      [return] of [join_queue], which leaves a flushed user uncommitted.
    - Foreign keys are not enforced (rows may name a resource that does not
      exist), as with SQLite's default settings.
    - An operation is atomic: the interleaving of coroutines at [await] is
      not represented. An [asyncio.Task] is a record in [pending] until it
      is cancelled or until its sleep ends ([fire]). A task that cancels
      itself while it runs (the registered expiry task, when it reaches
      [_process_queue]) goes on to its next [await], where it ends with
      [CancelledError]: what it wrote before is kept, the snapshot it was
      about to send is not sent.
    - The server takes no request before [startup_event] has returned and
      the tasks it created with a zero sleep have run ([start_up]).
    - An attribute access on [None] raises: operations return a [result]. *)

From Stdlib Require Import ZArith List Bool Lia Sorted.
From stdpp Require Import base gmap strings list fin_maps.
Import ListNotations.

Local Open Scope Z_scope.

(** ** Tables ([models.py]) *)

Record Resource := mkResource {
  name : string;
  description : option string;
  timeout_seconds : Z;
  admin_secret : string;
  current_holder_id : option Z;
  active_offer_expires_at : option Z
}.

(** [joined_at] is written once and never read; it is left out. *)
Record User := mkUser {
  user_pk : Z;
  display_name : string;
  email : option string;
  user_resource_id : string
}.

Record QueueItem := mkQueueItem {
  item_pk : Z;
  resource_id : string;
  user_id : Z;
  order : Z
}.

(** ** Process state: the database, and the fields of [QueueManager] *)

(** A scheduled [_handle_timeout(resource_id, duration)] coroutine that is
    still sleeping. [task_delay] is in microseconds. *)
Record Task := mkTask {
  task_id : nat;
  task_resource : string;
  task_delay : Z
}.

Record State := mkState {
  resources : gmap string Resource;
  users : list User;
  queue_items : list QueueItem;
  offer_tasks : gmap string nat;      (* self.offer_tasks *)
  pending : list Task;                (* tasks of the event loop not yet run *)
  next_task : nat;                    (* identity of the next Task object *)
  emitted : list string               (* rooms that received a state_update *)
}.

Inductive exn := AttributeError | OverflowError | CancelledError.

Inductive result (A : Type) :=
| Ret (st : State) (a : A)
| Raise (st : State) (e : exn).
Arguments Ret {A} st a.
Arguments Raise {A} st e.

Definition state_of {A} (r : result A) : State :=
  match r with Ret st _ => st | Raise st _ => st end.

Definition value_of {A} (r : result A) : option A :=
  match r with Ret _ a => Some a | Raise _ _ => None end.

Definition raises {A} (r : result A) : bool :=
  match r with Ret _ _ => false | Raise _ _ => true end.

Definition bind {A B} (m : result A) (k : State -> A -> result B) : result B :=
  match m with
  | Ret st a => k st a
  | Raise st e => Raise st e
  end.

(** ** Python values *)

(** Truth value of an optional integer: [None] and [0] are false. *)
Definition truthy (o : option Z) : bool :=
  match o with
  | Some n => negb (n =? 0)
  | None => false
  end.

(** [x or 0] for the result of [func.max]. *)
Definition or_zero (o : option Z) : Z :=
  if truthy o then default 0 o else 0.

(** [a != b] on optional integers. *)
Definition opt_neqb (a b : option Z) : bool :=
  match a, b with
  | Some x, Some y => negb (x =? y)
  | None, None => false
  | _, _ => true
  end.

Definition is_set {A} (o : option A) : bool :=
  match o with Some _ => true | None => false end.

(** [timedelta(seconds=n)] in microseconds. *)
Definition seconds (n : Z) : Z := n * 1000000.

(** The greatest [datetime], 9999-12-31T23:59:59.999999: 3652059 days less
    one microsecond after the least one. *)
Definition datetime_max : Z := 3652059 * 86400 * 1000000 - 1.

(** Whether a sum [datetime + timedelta] is a [datetime]. *)
Definition in_datetime_range (t : Z) : bool := (0 <=? t) && (t <=? datetime_max).

(** Whether a duration is a [timedelta]: at least -999999999 days and
    less than 1000000000 days. *)
Definition in_timedelta_range (d : Z) : bool :=
  (- (999999999 * 86400 * 1000000) <=? d) && (d <? 1000000000 * 86400 * 1000000).

(** Whether [datetime.utcnow() + timedelta(seconds=n)] has a value; it
    raises [OverflowError] otherwise. *)
Definition deadline_fits (now n : Z) : bool :=
  in_timedelta_range (seconds n) && in_datetime_range (now + seconds n).

(** ** Field updates *)

Definition with_holder (h : option Z) (r : Resource) : Resource :=
  mkResource (name r) (description r) (timeout_seconds r) (admin_secret r)
             h (active_offer_expires_at r).

Definition with_expiry (d : option Z) (r : Resource) : Resource :=
  mkResource (name r) (description r) (timeout_seconds r) (admin_secret r)
             (current_holder_id r) d.

Definition with_order (k : Z) (q : QueueItem) : QueueItem :=
  mkQueueItem (item_pk q) (resource_id q) (user_id q) k.

Definition set_resources (m : gmap string Resource) (st : State) : State :=
  mkState m (users st) (queue_items st) (offer_tasks st) (pending st)
          (next_task st) (emitted st).

Definition set_users (us : list User) (st : State) : State :=
  mkState (resources st) us (queue_items st) (offer_tasks st) (pending st)
          (next_task st) (emitted st).

Definition set_queue_items (qs : list QueueItem) (st : State) : State :=
  mkState (resources st) (users st) qs (offer_tasks st) (pending st)
          (next_task st) (emitted st).

Definition set_offer_tasks (m : gmap string nat) (st : State) : State :=
  mkState (resources st) (users st) (queue_items st) m (pending st)
          (next_task st) (emitted st).

Definition set_pending (ts : list Task) (st : State) : State :=
  mkState (resources st) (users st) (queue_items st) (offer_tasks st) ts
          (next_task st) (emitted st).

Definition set_next_task (n : nat) (st : State) : State :=
  mkState (resources st) (users st) (queue_items st) (offer_tasks st)
          (pending st) n (emitted st).

Definition set_emitted (l : list string) (st : State) : State :=
  mkState (resources st) (users st) (queue_items st) (offer_tasks st)
          (pending st) (next_task st) l.

(** ** Queries *)

(** The next value of an integer primary key: one past the largest key of
    the table, 1 for an empty table. *)
Definition next_pk (keys : list Z) : Z := 1 + foldr Z.max 0 keys.

(** [db.get(User, user_id)] *)
Definition get_user (uid : Z) (st : State) : option User :=
  List.find (fun u => user_pk u =? uid) (users st).

(** [select(QueueItem).where(QueueItem.resource_id == resource_id)] *)
Definition items_of (rid : string) (st : State) : list QueueItem :=
  List.filter (fun q => String.eqb (resource_id q) rid) (queue_items st).

(** [.order_by(QueueItem.order)]: a stable insertion sort, so that rows
    with equal keys stay in table order. *)
Fixpoint insert_by_order (q : QueueItem) (l : list QueueItem) : list QueueItem :=
  match l with
  | [] => [q]
  | x :: l' => if order q <=? order x then q :: l else x :: insert_by_order q l'
  end.

Definition order_by_order (l : list QueueItem) : list QueueItem :=
  foldr insert_by_order [] l.

Definition ordered_items (rid : string) (st : State) : list QueueItem :=
  order_by_order (items_of rid st).

(** [... .order_by(QueueItem.order).limit(1)] then [.scalars().first()] *)
Definition first_item (rid : string) (st : State) : option QueueItem :=
  head (ordered_items rid st).

(** [func.max] over a column: [None] on no rows. *)
Definition max_of (l : list Z) : option Z :=
  match l with
  | [] => None
  | k :: l' => Some (foldr Z.max k l')
  end.

(** [select(func.max(QueueItem.order)).where(QueueItem.resource_id == resource_id)] *)
Definition max_order_of (rid : string) (st : State) : option Z :=
  max_of (map order (items_of rid st)).

(** [select(QueueItem).where(QueueItem.user_id == user.id)], first row. *)
Definition item_of_user (uid : Z) (st : State) : option QueueItem :=
  List.find (fun q => user_id q =? uid) (queue_items st).

(** [select(QueueItem).where(resource_id == ..., user_id == ...)], first
    row. A [user_id] of [None] compares with [IS NULL] and selects nothing. *)
Definition item_of (rid : string) (uid : option Z) (st : State) : option QueueItem :=
  match uid with
  | Some u =>
      List.find (fun q => String.eqb (resource_id q) rid && (user_id q =? u))
                (queue_items st)
  | None => None
  end.

(** ** Writes *)

Definition put_resource (rid : string) (r : Resource) (st : State) : State :=
  set_resources (<[rid := r]> (resources st)) st.

(** [db.delete(item)] *)
Definition delete_item (q : QueueItem) (st : State) : State :=
  set_queue_items
    (List.filter (fun x => negb (item_pk x =? item_pk q)) (queue_items st)) st.

(** [item.order = k] *)
Definition update_order (q : QueueItem) (k : Z) (st : State) : State :=
  set_queue_items
    (map (fun x => if item_pk x =? item_pk q then with_order k x else x)
         (queue_items st)) st.

(** ** Tasks *)

(** [task.cancel()]: a sleeping task never runs; a finished one is unaffected. *)
Definition cancel (t : nat) (st : State) : State :=
  set_pending (List.filter (fun x => negb (Nat.eqb (task_id x) t)) (pending st)) st.

(** [if resource_id in self.offer_tasks: self.offer_tasks[resource_id].cancel()] *)
Definition cancel_offer_task (rid : string) (st : State) : State :=
  match offer_tasks st !! rid with
  | Some t => cancel t st
  | None => st
  end.

(** [asyncio.create_task(self._handle_timeout(resource_id, duration))] *)
Definition create_task (rid : string) (delay : Z) (st : State) : State * nat :=
  let t := next_task st in
  (set_next_task (S t) (set_pending (pending st ++ [mkTask t rid delay]) st), t).

(** [self.offer_tasks[resource_id] = task] *)
Definition register_task (rid : string) (t : nat) (st : State) : State :=
  set_offer_tasks (<[rid := t]> (offer_tasks st)) st.

(** ** [QueueManager] *)

(** [broadcast_update]: emits the snapshot to the room of the resource when
    the resource exists. *)
Definition broadcast_update (rid : string) (st : State) : State :=
  match resources st !! rid with
  | Some _ => set_emitted (emitted st ++ [rid]) st
  | None => st
  end.

(** Whether [self.offer_tasks[resource_id].cancel()] cancels the task
    that runs the code: [me] is that task, [None] for the code of an
    inbound operation. *)
Definition cancels_self (me : option nat) (rid : string) (st : State) : bool :=
  match me, offer_tasks st !! rid with
  | Some t, Some t' => Nat.eqb t t'
  | _, _ => false
  end.

(** [me] is the task in which the step runs, if it runs in one. A task
    that has cancelled itself creates and registers the next task, then
    ends at its next [await], before the snapshot. *)
Definition _process_queue (me : option nat) (now : Z) (rid : string)
    (st : State) : result unit :=
  match resources st !! rid with
  | None => Raise st AttributeError
  | Some resource =>
      if truthy (current_holder_id resource) then Ret st tt
      else
        match first_item rid st with
        | None => Ret st tt
        | Some next_item =>
            let expires_at := now + seconds (timeout_seconds resource) in
            if negb (deadline_fits now (timeout_seconds resource))
            then Raise st OverflowError
            else
              let st1 := put_resource rid (with_expiry (Some expires_at) resource) st in
              let st2 := cancel_offer_task rid st1 in
              let '(st3, t) := create_task rid (seconds (timeout_seconds resource)) st2 in
              let st4 := register_task rid t st3 in
              if cancels_self me rid st then Raise st4 CancelledError
              else Ret (broadcast_update rid st4) tt
        end
  end.

(** The body of [_handle_timeout] after [asyncio.sleep(duration)], run in
    the task [me]. *)
Definition _handle_timeout (me : option nat) (now : Z) (rid : string)
    (st : State) : result unit :=
  match resources st !! rid with
  | None => Ret st tt
  | Some resource =>
      match active_offer_expires_at resource with
      | None => Ret st tt
      | Some _ =>
          let items := ordered_items rid st in
          let st1 :=
            match items with
            | [] => st
            | timed_out_item :: _ =>
                let max_order := order (List.last items timed_out_item) in
                put_resource rid (with_expiry None resource)
                  (update_order timed_out_item (max_order + 1) st)
            end in
          _process_queue me now rid (broadcast_update rid st1)
      end
  end.

(** The first lines of [join_queue]: the user of the call, and the users
    table once the session is flushed. A user is looked up only for a
    true [user_id]; a user that is not found is created. *)
Definition resolve_user (rid : string) (dname : string) (mail : option string)
    (uid : option Z) (st : State) : User * list User :=
  let found := if truthy uid then get_user (default 0 uid) st else None in
  match found with
  | Some u => (u, users st)
  | None =>
      let u := mkUser (next_pk (map user_pk (users st))) dname mail rid in
      (u, users st ++ [u])
  end.

Definition join_queue (now : Z) (rid : string) (dname : string)
    (mail : option string) (uid : option Z) (st : State) : result Z :=
  let '(user, users1) := resolve_user rid dname mail uid st in
  match item_of_user (user_pk user) st with
  | Some _ => Ret st (user_pk user)
  | None =>
      let max_order := or_zero (max_order_of rid st) in
      let queue_item :=
        mkQueueItem (next_pk (map item_pk (queue_items st))) rid (user_pk user)
                    (max_order + 1) in
      let st1 := set_queue_items (queue_items st ++ [queue_item]) (set_users users1 st) in
      match resources st1 !! rid with
      | None => Raise st1 AttributeError
      | Some resource =>
          let has_active_offer := is_set (active_offer_expires_at resource) in
          let st2 := broadcast_update rid st1 in
          if has_active_offer then Ret st2 (user_pk user)
          else bind (_process_queue None now rid st2) (fun st3 _ => Ret st3 (user_pk user))
      end
  end.

Definition release_resource (now : Z) (rid : string) (uid : option Z)
    (st : State) : result bool :=
  match resources st !! rid with
  | None => Ret st false
  | Some resource =>
      if opt_neqb (current_holder_id resource) uid then Ret st false
      else
        let st1 := put_resource rid (with_holder None resource) st in
        let st2 := broadcast_update rid st1 in
        bind (_process_queue None now rid st2) (fun st3 _ => Ret st3 true)
  end.

Definition accept_offer (rid : string) (uid : option Z) (st : State) : result bool :=
  match first_item rid st with
  | None => Ret st false
  | Some first =>
      if opt_neqb (Some (user_id first)) uid then Ret st false
      else
        match resources st !! rid with
        | None => Raise st AttributeError
        | Some resource =>
            if negb (is_set (active_offer_expires_at resource)) then Ret st false
            else
              let st1 :=
                put_resource rid (with_expiry None (with_holder uid resource)) st in
              let st2 := delete_item first st1 in
              let st3 := cancel_offer_task rid st2 in
              Ret (broadcast_update rid st3) true
        end
  end.

Definition reject_offer (now : Z) (rid : string) (uid : option Z)
    (st : State) : result bool :=
  match first_item rid st with
  | None => Ret st false
  | Some first =>
      if opt_neqb (Some (user_id first)) uid then Ret st false
      else
        match resources st !! rid with
        | None => Raise st AttributeError
        | Some resource =>
            if negb (is_set (active_offer_expires_at resource)) then Ret st false
            else
              let st1 := delete_item first st in
              let st2 := put_resource rid (with_expiry None resource) st1 in
              let st3 := cancel_offer_task rid st2 in
              let st4 := broadcast_update rid st3 in
              bind (_process_queue None now rid st4) (fun st5 _ => Ret st5 true)
        end
  end.

Definition leave_queue (now : Z) (rid : string) (uid : option Z)
    (st : State) : result bool :=
  match item_of rid uid st with
  | None => Ret st false
  | Some queue_item =>
      match resources st !! rid with
      | None => Raise st AttributeError
      | Some resource =>
          let was_offered :=
            is_set (active_offer_expires_at resource)
            && bool_decide (Some (order queue_item) = order <$> first_item rid st) in
          let st1 := delete_item queue_item st in
          let st2 :=
            if was_offered
            then cancel_offer_task rid (put_resource rid (with_expiry None resource) st1)
            else st1 in
          let st3 := broadcast_update rid st2 in
          if was_offered
          then bind (_process_queue None now rid st3) (fun st4 _ => Ret st4 true)
          else Ret st3 true
      end
  end.

(** [restore_timers]. The query reads the clock once ([now_query]); the
    loop reads it again for each selected resource ([now_loop]). A [NULL]
    deadline does not satisfy the comparison of the query. *)
Definition expires_after (now_query : Z) (r : Resource) : bool :=
  match active_offer_expires_at r with
  | Some d => now_query <? d
  | None => false
  end.

Definition restore_one (now_loop : string -> Z) (st : State)
    (row : string * Resource) : State :=
  let remaining := default 0 (active_offer_expires_at row.2) - now_loop row.1 in
  if 0 <? remaining
  then let '(st1, t) := create_task row.1 remaining st in register_task row.1 t st1
  else fst (create_task row.1 0 st).

Definition restore_timers (now_query : Z) (now_loop : string -> Z)
    (st : State) : State :=
  foldl (restore_one now_loop) st
        (List.filter (fun row => expires_after now_query row.2)
                     (map_to_list (resources st))).

(** A task whose sleep ends: it leaves [pending] and runs the body of
    [_handle_timeout]. A task that is not pending does nothing. *)
Definition fire (now : Z) (t : nat) (st : State) : result unit :=
  match List.find (fun x => Nat.eqb (task_id x) t) (pending st) with
  | None => Ret st tt
  | Some x => _handle_timeout (Some t) now (task_resource x) (cancel t st)
  end.

(** ** Runs *)

(** The inbound operations of [main.py], the expiry of a timer, the
    internal advance step, and the start-up recovery. *)
Inductive op :=
| Join (now : Z) (rid : string) (dname : string) (mail : option string) (uid : option Z)
| Release (now : Z) (rid : string) (uid : option Z)
| Accept (rid : string) (uid : option Z)
| Reject (now : Z) (rid : string) (uid : option Z)
| Leave (now : Z) (rid : string) (uid : option Z)
| Fire (now : Z) (t : nat)
| Advance (now : Z) (rid : string).

(** The state an operation leaves behind, whether it returns or raises. *)
Definition step (st : State) (o : op) : State :=
  match o with
  | Join now rid dname mail uid => state_of (join_queue now rid dname mail uid st)
  | Release now rid uid => state_of (release_resource now rid uid st)
  | Accept rid uid => state_of (accept_offer rid uid st)
  | Reject now rid uid => state_of (reject_offer now rid uid st)
  | Leave now rid uid => state_of (leave_queue now rid uid st)
  | Fire now t => state_of (fire now t st)
  | Advance now rid => state_of (_process_queue None now rid st)
  end.

Definition run (ops : list op) (st : State) : State := foldl step st ops.

(** A database that holds the given resources and nothing else, in a
    process that has scheduled nothing. *)
Definition boot (rs : gmap string Resource) : State :=
  mkState rs [] [] ∅ [] 0%nat [].

(** What [create_resource] of [main.py] inserts. *)
Definition new_resource (nm : string) (t : Z) : Resource :=
  mkResource nm None t "secret" None None.

(** ** Predicates of the specification *)

Definition le_order (q x : QueueItem) : Prop := order q <= order x.

(** The resource has an active offer and the caller is the claimant at the
    head of its queue. *)
Definition offered_to (rid : string) (uid : option Z) (st : State) : Prop :=
  (exists r d, resources st !! rid = Some r /\ active_offer_expires_at r = Some d)
  /\ (exists q, first_item rid st = Some q /\ uid = Some (user_id q)).

(** Every sleeping task of the resource is the one that [offer_tasks]
    holds for it. *)
Definition registered (rid : string) (st : State) : Prop :=
  forall t, In t (pending st) -> task_resource t = rid ->
            offer_tasks st !! rid = Some (task_id t).

(** The order keys that a step assigns for a resource: the keys of its
    rows after the step that the row of the same primary key did not carry
    before the step. *)
Definition assigned_keys (rid : string) (st st' : State) : list Z :=
  map order
    (List.filter
       (fun x => negb (existsb (fun y => (item_pk y =? item_pk x) && (order y =? order x))
                               (items_of rid st)))
       (items_of rid st')).

(** The keys assigned for a resource along a run, oldest first. *)
Fixpoint key_history (rid : string) (ops : list op) (st : State) : list Z :=
  match ops with
  | [] => []
  | o :: ops' => assigned_keys rid st (step st o) ++ key_history rid ops' (step st o)
  end.

(** Operations other than a join and the expiry of a timer. *)
Definition assigns_no_key (o : op) : bool :=
  match o with
  | Join _ _ _ _ _ | Fire _ _ => false
  | _ => true
  end.

(** ** States used as examples *)

Definition two_resources : State :=
  boot (<["a" := new_resource "A" 60]> (<["b" := new_resource "B" 60]> ∅)).

(** Ann has joined the queue of "a" and is offered it. *)
Definition ann_on_a : State := run [Join 0 "a" "Ann" None None] two_resources.

Definition one_resource : State := boot (<["r" := new_resource "R" 5]> ∅).

(** Ann joins "r", accepts the offer, then Bob joins. *)
Definition join_accept_join : list op :=
  [Join 0 "r" "Ann" None None; Accept "r" (Some 1); Join 1000000 "r" "Bob" None None].

(** The primary key of the queue table: no two rows share [item_pk]. *)
Definition pk_unique (st : State) : Prop :=
  forall a b, In a (queue_items st) -> In b (queue_items st) ->
              item_pk a = item_pk b -> a = b.

(** Holder and deadline of one resource are not both set. *)
Definition exclusive (r : Resource) : Prop :=
  current_holder_id r <> None -> active_offer_expires_at r = None.

Definition mutual_exclusion (st : State) : Prop :=
  forall rid r, resources st !! rid = Some r -> exclusive r.

(** Every resource is Idle: no holder, no offer. *)
Definition all_idle (st : State) : Prop :=
  forall rid r, resources st !! rid = Some r ->
                current_holder_id r = None /\ active_offer_expires_at r = None.

(** No queue row names the claimant 0 (primary keys start at 1). *)
Definition claimants_nonzero (st : State) : Prop :=
  forall q, In q (queue_items st) -> user_id q <> 0.

(** The invariant that the operations maintain: a holder is a true
    identifier and excludes a deadline. *)
Definition holder_ok (r : Resource) : Prop :=
  forall h, current_holder_id r = Some h ->
            h <> 0 /\ active_offer_expires_at r = None.

Definition lease_inv (st : State) : Prop :=
  (forall rid r, resources st !! rid = Some r -> holder_ok r)
  /\ claimants_nonzero st.

(** The database found at a restart: "r" was offered to Ann until 1000,
    Bob is behind her; the new process has scheduled nothing. *)
Definition offered_at_restart : State :=
  mkState (<["r" := mkResource "R" None 5 "secret" None (Some 1000)]> ∅)
          [mkUser 1 "Ann" None "r"; mkUser 2 "Bob" None "r"]
          [mkQueueItem 1 "r" 1 1; mkQueueItem 2 "r" 2 2]
          ∅ [] 0%nat [].

(** The tasks of a resource that are still sleeping. *)
Definition pending_for (rid : string) (st : State) : list Task :=
  List.filter (fun t => String.eqb (task_resource t) rid) (pending st).

(** Every sleeping task is the one that [offer_tasks] holds for its
    resource, and sleeping tasks are distinct objects created before
    [next_task]. *)
Definition timers_tracked (st : State) : Prop :=
  (forall t, In t (pending st) -> offer_tasks st !! task_resource t = Some (task_id t))
  /\ (forall t, In t (pending st) -> (task_id t < next_task st)%nat)
  /\ List.NoDup (map task_id (pending st)).

(** At most one expiry timer is outstanding per resource. *)
Definition at_most_one_timer (st : State) : Prop :=
  forall rid, (length (pending_for rid st) <= 1)%nat.

(** The restart of [offered_at_restart] when the deadline (1000) passes
    between the query of [restore_timers] (clock 999) and its loop (clock
    1000). *)
Definition restarted : State := restore_timers 999 (fun _ => 1000) offered_at_restart.

(** Ann then Bob have joined "r": Ann (user 1, key 1) is offered the
    resource until 5000000, Bob (user 2, key 2) waits behind her. *)
Definition ann_bob_on_r : State :=
  run [Join 0 "r" "Ann" None None; Join 1 "r" "Bob" None None] one_resource.

Definition r_offered : Resource := mkResource "R" None 5 "secret" None (Some 5000000).

Definition ann_row : QueueItem := mkQueueItem 1 "r" 1 1.

Definition bob_row : QueueItem := mkQueueItem 2 "r" 2 2.

(** ** Well-formedness of the tables *)

(** The primary key of the queue table, as a list without repetition. *)
Definition pk_nodup (st : State) : Prop :=
  List.NoDup (map item_pk (queue_items st)).

(** A user has at most one queue row, on whatever resource. *)
Definition one_row_per_user (st : State) : Prop :=
  List.NoDup (map user_id (queue_items st)).

(** Two distinct rows of one queue never carry the same order key. *)
Definition keys_distinct (st : State) : Prop :=
  forall a b, In a (queue_items st) -> In b (queue_items st) ->
              resource_id a = resource_id b -> order a = order b -> a = b.

(** A resource with a deadline has a claimant at the head of its queue. *)
Definition offer_has_head (st : State) : Prop :=
  forall rid r, resources st !! rid = Some r ->
                active_offer_expires_at r <> None -> first_item rid st <> None.

(** Every queue row names a user that is in the users table. *)
Definition users_exist (st : State) : Prop :=
  forall q, In q (queue_items st) -> get_user (user_id q) st <> None.

(** ** The transactions of the queue manager

    What one commit of an operation does to the three tables, whatever it
    does to tasks and snapshots. Every operation is a sequence of at most
    two of them: its own commit, then the commit of the advance step. *)
Inductive txn (st st' : State) : Prop :=
| txn_frame :
    resources st' = resources st -> users st' = users st ->
    queue_items st' = queue_items st -> txn st st'
| txn_offer rid r d q :
    resources st !! rid = Some r ->
    truthy (current_holder_id r) = false ->
    first_item rid st = Some q ->
    resources st' = <[rid := with_expiry (Some d) r]> (resources st) ->
    users st' = users st -> queue_items st' = queue_items st -> txn st st'
| txn_release rid r :
    resources st !! rid = Some r ->
    resources st' = <[rid := with_holder None r]> (resources st) ->
    users st' = users st -> queue_items st' = queue_items st -> txn st st'
| txn_accept rid r q :
    resources st !! rid = Some r ->
    first_item rid st = Some q ->
    resources st'
    = <[rid := with_expiry None (with_holder (Some (user_id q)) r)]> (resources st) ->
    users st' = users st ->
    queue_items st' = queue_items (delete_item q st) -> txn st st'
| txn_drop rid r q :
    resources st !! rid = Some r ->
    In q (queue_items st) -> resource_id q = rid ->
    resources st' = <[rid := with_expiry None r]> (resources st) ->
    users st' = users st ->
    queue_items st' = queue_items (delete_item q st) -> txn st st'
| txn_leave rid r q :
    resources st !! rid = Some r ->
    In q (queue_items st) -> resource_id q = rid ->
    (active_offer_expires_at r = None
     \/ exists h, first_item rid st = Some h /\ order q <> order h) ->
    resources st' = resources st -> users st' = users st ->
    queue_items st' = queue_items (delete_item q st) -> txn st st'
| txn_timeout rid r q k :
    resources st !! rid = Some r ->
    first_item rid st = Some q ->
    (forall x, In x (items_of rid st) -> order x < k) ->
    resources st' = <[rid := with_expiry None r]> (resources st) ->
    users st' = users st ->
    queue_items st' = queue_items (update_order q k st) -> txn st st'
| txn_join rid u k extra :
    (forall x, In x (queue_items st) -> user_id x <> u) ->
    (exists usr, In usr (users st ++ extra) /\ user_pk usr = u) ->
    (forall x, In x (items_of rid st) -> order x < k) ->
    resources st' = resources st ->
    users st' = users st ++ extra ->
    queue_items st'
    = queue_items st ++ [mkQueueItem (next_pk (map item_pk (queue_items st))) rid u k] ->
    txn st st'.

(** ** Snapshots ([get_resource_state])

    The dictionary sent to the room of a resource. [offerExpiresAt] is the
    deadline itself; its rendering as an ISO string is left out. *)
Record QueueEntry := mkQueueEntry {
  userId : Z;
  displayName : string;
  isOffered : bool
}.

Record Snapshot := mkSnapshot {
  resourceId : string;
  snapshot_name : string;
  timeoutSeconds : Z;
  holder : option (Z * string);
  queue : list QueueEntry;
  offerExpiresAt : option Z
}.

(** [resource.users]: the users whose [resource_id] is the resource. *)
Definition users_of (rid : string) (st : State) : list User :=
  List.filter (fun u => String.eqb (user_resource_id u) rid) (users st).

(** The loop over [enumerate(sorted_items)], from index [idx] on.
    [item.user] is the user of the row; on a row without user the
    attribute access raises ([None] here). *)
Fixpoint snapshot_queue (offer : bool) (st : State) (idx : nat)
    (items : list QueueItem) : option (list QueueEntry) :=
  match items with
  | [] => Some []
  | item :: rest =>
      match get_user (user_id item) st with
      | None => None
      | Some u =>
          match snapshot_queue offer st (S idx) rest with
          | None => None
          | Some entries =>
              Some (mkQueueEntry (user_pk u) (display_name u) (offer && Nat.eqb idx 0)
                      :: entries)
          end
      end
  end.

(** [next((u for u in resource.users if u.id == resource.current_holder_id), None)]
    under [if resource.current_holder_id]. *)
Definition snapshot_holder (rid : string) (r : Resource) (st : State) : option (Z * string) :=
  if truthy (current_holder_id r)
  then
    match List.find (fun u => user_pk u =? default 0 (current_holder_id r)) (users_of rid st) with
    | Some u => Some (user_pk u, display_name u)
    | None => None
    end
  else None.

Definition get_resource_state (rid : string) (st : State) : result (option Snapshot) :=
  match resources st !! rid with
  | None => Ret st None
  | Some resource =>
      match snapshot_queue (is_set (active_offer_expires_at resource)) st 0
                           (ordered_items rid st) with
      | None => Raise st AttributeError
      | Some entries =>
          Ret st (Some (mkSnapshot rid (name resource) (timeout_seconds resource)
                          (snapshot_holder rid resource st) entries
                          (active_offer_expires_at resource)))
      end
  end.

(** Ann joins "a", leaves, joins "b" with the same identifier and accepts:
    she holds "b", and her user row still names "a". *)
Definition ann_moves_to_b : State :=
  run [Join 0 "a" "Ann" None None; Leave 1 "a" (Some 1);
       Join 2 "b" "Ann" None (Some 1); Accept "b" (Some 1)] two_resources.

(** ** Start-up

    [startup_event] of [main.py] awaits [restore_timers]. The tasks that
    it created with [_handle_timeout(resource.id, 0)] end their
    [asyncio.sleep(0)] on the next turn of the event loop, before the
    server handles any inbound operation: they run first, in the order of
    their creation. [now_fire] is the clock read by each of them. *)
Definition zero_delay_tasks (st : State) : list Task :=
  List.filter (fun t => task_delay t =? 0) (pending st).

Definition run_tasks (now_fire : nat -> Z) (ts : list Task) (st : State) : State :=
  foldl (fun s t => state_of (fire (now_fire (task_id t)) (task_id t) s)) st ts.

Definition start_up (now_query : Z) (now_loop : string -> Z) (now_fire : nat -> Z)
    (st : State) : State :=
  let st1 := restore_timers now_query now_loop st in
  run_tasks now_fire (zero_delay_tasks st1) st1.

(** A process that has just been created: [QueueManager.__init__] leaves
    [offer_tasks] empty, and nothing is scheduled. *)
Definition fresh_process (st : State) : Prop :=
  offer_tasks st = ∅ /\ pending st = [].

(** The timers while the start-up settles: a sleeping task is registered
    for its resource or is one of the tasks [ts] that are about to run,
    sleeping tasks are distinct objects created before [next_task], and no
    two of them are for the same resource. *)
Definition timers_settling (ts : list Task) (st : State) : Prop :=
  (forall t, In t (pending st) ->
     offer_tasks st !! task_resource t = Some (task_id t) \/ In t ts)
  /\ (forall t, In t (pending st) -> (task_id t < next_task st)%nat)
  /\ List.NoDup (map task_id (pending st))
  /\ List.NoDup (map task_resource (pending st)).

(** The rows that the query of [restore_timers] selects. *)
Definition restored_rows (now_query : Z) (st : State) : list (string * Resource) :=
  List.filter (fun row => expires_after now_query row.2) (map_to_list (resources st)).

(** * Properties *)

(** ** Sorting and maxima *)

Section Ordering.

Implicit Types (q x : QueueItem) (l : list QueueItem).

Lemma insert_by_order_In x q l :
  In x (insert_by_order q l) <-> x = q \/ In x l.
Proof.
  induction l as [|y l IH]; simpl.
  - intuition.
  - destruct (order q <=? order y); simpl; [intuition|].
    rewrite IH. intuition.
Qed.

Lemma order_by_order_In x l : In x (order_by_order l) <-> In x l.
Proof.
  induction l as [|y l IH]; simpl; [reflexivity|].
  rewrite insert_by_order_In, IH. intuition.
Qed.

Lemma insert_by_order_sorted q l :
  StronglySorted le_order l -> StronglySorted le_order (insert_by_order q l).
Proof.
  induction 1 as [|y l Hs IH Hy]; simpl.
  - repeat constructor.
  - destruct (order q <=? order y) eqn:E.
    + apply Z.leb_le in E. constructor; [by constructor|].
      constructor; [exact E|].
      eapply Forall_impl; [exact Hy|]. unfold le_order. intros; lia.
    + apply Z.leb_gt in E. constructor; [exact IH|].
      apply List.Forall_forall. intros z Hz.
      apply insert_by_order_In in Hz as [->|Hz].
      * unfold le_order; lia.
      * rewrite List.Forall_forall in Hy. by apply Hy.
Qed.

Lemma order_by_order_sorted l : StronglySorted le_order (order_by_order l).
Proof.
  induction l; simpl; [constructor|]. by apply insert_by_order_sorted.
Qed.

Lemma sorted_last_max l d x :
  StronglySorted le_order l -> In x l -> order x <= order (List.last l d).
Proof.
  intros Hs. revert x.
  induction Hs as [|y l Hs IH Hy]; intros x Hx; [destruct Hx|].
  destruct l as [|z l].
  - destruct Hx as [->|[]]. simpl. lia.
  - change (List.last (y :: z :: l) d) with (List.last (z :: l) d).
    destruct Hx as [->|Hx]; [|by apply IH].
    rewrite List.Forall_forall in Hy.
    transitivity (order z).
    + apply Hy. by left.
    + apply IH. by left.
Qed.

Lemma sorted_head_min l y x :
  StronglySorted le_order l -> head l = Some y -> In x l -> order y <= order x.
Proof.
  intros Hs Hh Hx. destruct Hs as [|z l Hs Hz]; [destruct Hx|].
  simpl in Hh. injection Hh as ->. destruct Hx as [->|Hx]; [lia|].
  rewrite List.Forall_forall in Hz. by apply Hz.
Qed.

Lemma insert_by_order_snoc q l n :
  order q <= order n ->
  insert_by_order q (l ++ [n]) = insert_by_order q l ++ [n].
Proof.
  intros Hq. induction l as [|y l IH]; simpl.
  - apply Z.leb_le in Hq. by rewrite Hq.
  - destruct (order q <=? order y); [done|]. by rewrite IH.
Qed.

Lemma order_by_order_snoc l n :
  (forall x, In x l -> order x <= order n) ->
  order_by_order (l ++ [n]) = order_by_order l ++ [n].
Proof.
  induction l as [|y l IH]; intros H; simpl; [done|].
  rewrite IH by (intros; apply H; by right).
  apply insert_by_order_snoc, H. by left.
Qed.

Lemma foldr_max_ge (k : Z) (l : list Z) :
  k <= foldr Z.max k l /\ forall z, In z l -> z <= foldr Z.max k l.
Proof.
  induction l as [|a l [IH1 IH2]]; simpl; [split; [lia|tauto]|].
  split; [lia|]. intros z [->|Hz]; [lia|]. specialize (IH2 z Hz). lia.
Qed.

Lemma max_of_ge (l : list Z) m z : max_of l = Some m -> In z l -> z <= m.
Proof.
  destruct l as [|k l]; [done|]. simpl. intros [= <-] Hz.
  destruct (foldr_max_ge k l) as [H1 H2]. destruct Hz as [->|Hz]; auto.
Qed.

Lemma max_of_None (l : list Z) : max_of l = None <-> l = [].
Proof. destruct l; simpl; split; congruence. Qed.

Lemma or_zero_Some m : or_zero (Some m) = m.
Proof.
  unfold or_zero, truthy. destruct (m =? 0) eqn:E; simpl; [|done].
  apply Z.eqb_eq in E. by subst.
Qed.

Lemma next_pk_pos keys : 0 < next_pk keys.
Proof.
  unfold next_pk. assert (0 <= foldr Z.max 0 keys); [|lia].
  induction keys; simpl; lia.
Qed.

End Ordering.

(** ** Queries on a state *)

Lemma items_of_In rid st q :
  In q (items_of rid st) <-> In q (queue_items st) /\ resource_id q = rid.
Proof.
  unfold items_of. rewrite List.filter_In.
  destruct (String.eqb_spec (resource_id q) rid); intuition congruence.
Qed.

Lemma ordered_items_In rid st q :
  In q (ordered_items rid st) <-> In q (queue_items st) /\ resource_id q = rid.
Proof. unfold ordered_items. by rewrite order_by_order_In, items_of_In. Qed.

Lemma first_item_In rid st q :
  first_item rid st = Some q -> In q (queue_items st) /\ resource_id q = rid.
Proof.
  unfold first_item. intros H. apply ordered_items_In.
  destruct (ordered_items rid st); [done|]. injection H as ->. by left.
Qed.

Lemma first_item_min rid st q x :
  first_item rid st = Some q -> In x (queue_items st) -> resource_id x = rid ->
  order q <= order x.
Proof.
  intros Hq Hx Hr. eapply sorted_head_min.
  - apply (order_by_order_sorted (items_of rid st)).
  - exact Hq.
  - apply ordered_items_In. by split.
Qed.

Lemma first_item_None rid st :
  first_item rid st = None <-> items_of rid st = [].
Proof.
  unfold first_item, ordered_items. split.
  - intros H. destruct (items_of rid st) as [|y l] eqn:E; [done|].
    assert (In y (order_by_order (y :: l))) as Hy
      by (apply order_by_order_In; by left).
    destruct (order_by_order (y :: l)); [destruct Hy|done].
  - by intros ->.
Qed.

Lemma max_order_of_ge rid st m x :
  max_order_of rid st = Some m -> In x (queue_items st) -> resource_id x = rid ->
  order x <= m.
Proof.
  intros Hm Hx Hr. eapply max_of_ge; [exact Hm|].
  apply List.in_map, items_of_In. by split.
Qed.

Lemma item_of_user_None uid st :
  item_of_user uid st = None <-> (forall q, In q (queue_items st) -> user_id q <> uid).
Proof.
  unfold item_of_user. split.
  - intros H q Hq Hu. apply (List.find_none _ _ H) in Hq. simpl in Hq.
    apply Z.eqb_neq in Hq. done.
  - intros H. destruct (List.find _ _) as [q|] eqn:E; [|done].
    apply List.find_some in E as [Hq Hu]. apply Z.eqb_eq in Hu.
    by destruct (H q Hq).
Qed.

Lemma item_of_None rid uid st :
  (forall q, In q (queue_items st) -> resource_id q = rid -> Some (user_id q) <> uid) ->
  item_of rid uid st = None.
Proof.
  intros H. unfold item_of. destruct uid as [u|]; [|done].
  destruct (List.find _ _) as [q|] eqn:E; [|done].
  apply List.find_some in E as [Hq Hu].
  apply andb_true_iff in Hu as [Hr Hu].
  apply String.eqb_eq in Hr. apply Z.eqb_eq in Hu.
  destruct (H q Hq Hr). by rewrite Hu.
Qed.

Lemma get_user_pk uid st u : get_user uid st = Some u -> user_pk u = uid.
Proof.
  unfold get_user. intros H. apply List.find_some in H as [_ H].
  by apply Z.eqb_eq in H.
Qed.

Lemma opt_neqb_false a b : opt_neqb a b = false <-> a = b.
Proof.
  destruct a as [x|], b as [y|]; simpl; split; try congruence.
  - intros H. apply negb_false_iff, Z.eqb_eq in H. by subst.
  - intros [= ->]. by rewrite Z.eqb_refl.
Qed.

Lemma truthy_false_holder o :
  truthy o = false -> (forall h, o = Some h -> h <> 0) -> o = None.
Proof.
  destruct o as [h|]; [|done]. simpl. intros H Hh.
  apply negb_false_iff, Z.eqb_eq in H. by destruct (Hh h eq_refl).
Qed.

(** ** Leave *)

(** C10. A claimant that has no queue item for the resource cannot leave:
    [leave_queue] returns [False] and the whole state (rows, holder,
    deadline, tasks, emitted snapshots) is the one it started from. *)
Theorem leave_queue_absent now rid uid st :
  (forall q, In q (queue_items st) -> resource_id q = rid -> Some (user_id q) <> uid) ->
  leave_queue now rid uid st = Ret st false.
Proof.
  intros H. unfold leave_queue. by rewrite (item_of_None _ _ _ H).
Qed.

(** ** Tasks *)

Lemma cancel_In t st x :
  In x (pending (cancel t st)) <-> In x (pending st) /\ task_id x <> t.
Proof.
  unfold cancel. simpl. rewrite List.filter_In.
  destruct (Nat.eqb_spec (task_id x) t); simpl; intuition congruence.
Qed.

Lemma cancel_offer_task_In rid st x :
  In x (pending (cancel_offer_task rid st))
  <-> In x (pending st) /\ offer_tasks st !! rid <> Some (task_id x).
Proof.
  unfold cancel_offer_task. destruct (offer_tasks st !! rid) as [t|] eqn:E.
  - rewrite cancel_In. intuition congruence.
  - intuition congruence.
Qed.

Lemma cancel_offer_task_db rid st :
  resources (cancel_offer_task rid st) = resources st
  /\ users (cancel_offer_task rid st) = users st
  /\ queue_items (cancel_offer_task rid st) = queue_items st
  /\ offer_tasks (cancel_offer_task rid st) = offer_tasks st
  /\ emitted (cancel_offer_task rid st) = emitted st.
Proof. unfold cancel_offer_task. by destruct (offer_tasks st !! rid). Qed.

Lemma broadcast_update_db rid st :
  resources (broadcast_update rid st) = resources st
  /\ users (broadcast_update rid st) = users st
  /\ queue_items (broadcast_update rid st) = queue_items st
  /\ offer_tasks (broadcast_update rid st) = offer_tasks st
  /\ pending (broadcast_update rid st) = pending st
  /\ next_task (broadcast_update rid st) = next_task st.
Proof. unfold broadcast_update. by destruct (resources st !! rid). Qed.

Lemma delete_item_In q st x :
  In x (queue_items (delete_item q st))
  <-> In x (queue_items st) /\ item_pk x <> item_pk q.
Proof.
  unfold delete_item. simpl. rewrite List.filter_In.
  destruct (Z.eqb_spec (item_pk x) (item_pk q)); simpl; intuition congruence.
Qed.

(** ** Accept *)


(** ** Advance *)

Lemma process_queue_rows me now rid st :
  users (state_of (_process_queue me now rid st)) = users st
  /\ queue_items (state_of (_process_queue me now rid st)) = queue_items st.
Proof.
  unfold _process_queue.
  destruct (resources st !! rid) as [r|]; [|done].
  destruct (truthy (current_holder_id r)); [done|].
  destruct (first_item rid st); [|done].
  destruct (negb _); [done|].
  unfold create_task.
  pose proof (cancel_offer_task_db rid (put_resource rid
    (with_expiry (Some (now + seconds (timeout_seconds r))) r) st))
    as (_ & Hu & Hq & _).
  destruct (cancels_self me rid st); cbn [state_of].
  - simpl. by rewrite Hu, Hq.
  - match goal with |- context [broadcast_update rid ?s] =>
      destruct (broadcast_update_db rid s) as (_ & -> & -> & _) end.
    simpl. by rewrite Hu, Hq.
Qed.

(** ** Join *)

Lemma new_order_value rid st :
  or_zero (max_order_of rid st) + 1
  = match max_order_of rid st with Some m => m + 1 | None => 1 end.
Proof. destruct (max_order_of rid st); [by rewrite or_zero_Some|done]. Qed.

Lemma new_order_above rid st x :
  In x (items_of rid st) -> order x < or_zero (max_order_of rid st) + 1.
Proof.
  intros Hx. destruct (max_order_of rid st) as [m|] eqn:E.
  - rewrite or_zero_Some. apply items_of_In in Hx as [Hx Hr].
    pose proof (max_order_of_ge _ _ _ _ E Hx Hr). lia.
  - unfold max_order_of in E. apply max_of_None in E.
    apply (List.in_map order) in Hx. rewrite E in Hx. destruct Hx.
Qed.

Lemma items_of_snoc rid st us q :
  resource_id q = rid ->
  items_of rid (set_queue_items (queue_items st ++ [q]) (set_users us st))
  = items_of rid st ++ [q].
Proof.
  intros Hq. unfold items_of. simpl. rewrite List.filter_app. simpl.
  by rewrite <- Hq, String.eqb_refl.
Qed.

Lemma resolve_user_known rid dname mail u st usr :
  u <> 0 -> In usr (users st) -> user_pk usr = u ->
  user_pk (fst (resolve_user rid dname mail (Some u) st)) = u
  /\ snd (resolve_user rid dname mail (Some u) st) = users st.
Proof.
  intros Hu Hin Hpk. unfold resolve_user. simpl.
  apply Z.eqb_neq in Hu. rewrite Hu. simpl.
  destruct (get_user u st) as [u'|] eqn:E.
  - simpl. split; [by eapply get_user_pk|done].
  - unfold get_user in E. apply (List.find_none _ _ E) in Hin. simpl in Hin.
    apply Z.eqb_neq in Hin. done.
Qed.

(** C8. While an offer is outstanding on a resource whose queue has a
    head, a join by a claimant without a queue item only appends a row at
    the tail: the resource row (holder, deadline) is unchanged, the head is
    the same claimant, no task is cancelled or created, and a single
    snapshot is emitted; the advance step does not run. *)
Theorem join_queue_during_offer now rid dname mail uid st r d h :
  resources st !! rid = Some r ->
  active_offer_expires_at r = Some d ->
  first_item rid st = Some h ->
  (forall q, In q (queue_items st) ->
             user_id q <> user_pk (fst (resolve_user rid dname mail uid st))) ->
  exists st' item,
    join_queue now rid dname mail uid st
      = Ret st' (user_pk (fst (resolve_user rid dname mail uid st)))
    /\ resources st' = resources st
    /\ offer_tasks st' = offer_tasks st
    /\ pending st' = pending st
    /\ next_task st' = next_task st
    /\ queue_items st' = queue_items st ++ [item]
    /\ resource_id item = rid
    /\ user_id item = user_pk (fst (resolve_user rid dname mail uid st))
    /\ ordered_items rid st' = ordered_items rid st ++ [item]
    /\ first_item rid st' = Some h
    /\ emitted st' = emitted st ++ [rid].
Proof.
  intros Hr Hd Hh Hnew. unfold join_queue.
  destruct (resolve_user rid dname mail uid st) as [user users1].
  simpl in Hnew. simpl fst.
  apply item_of_user_None in Hnew. rewrite Hnew.
  set (item := mkQueueItem _ rid (user_pk user) _).
  cbn [resources set_queue_items set_users]. rewrite Hr, Hd. simpl is_set. cbv iota.
  unfold broadcast_update. cbn [resources set_queue_items set_users]. rewrite Hr.
  assert (ordered_items rid
            (set_queue_items (queue_items st ++ [item]) (set_users users1 st))
          = ordered_items rid st ++ [item]) as Hord.
  { unfold ordered_items. rewrite items_of_snoc by done.
    apply order_by_order_snoc. intros x Hx.
    apply new_order_above in Hx. simpl. lia. }
  eexists _, item. split; [reflexivity|]. simpl.
  repeat (split; [done|]). split; [|done].
  unfold first_item in *.
  change (ordered_items rid (set_emitted _ ?s)) with (ordered_items rid s).
  rewrite Hord. by destruct (ordered_items rid st).
Qed.

Lemma state_of_bind_ret {A B} (m : result A) (v : B) :
  state_of (bind m (fun st _ => Ret st v)) = state_of m.
Proof. by destruct m. Qed.

Lemma max_of_In (l : list Z) m : max_of l = Some m -> In m l.
Proof.
  destruct l as [|k l]; [done|]. simpl. intros [= <-].
  induction l as [|a l IH]; simpl; [by left|].
  destruct (Z.max_spec a (foldr Z.max k l)) as [[_ ->]|[_ ->]].
  - destruct IH as [IH|IH]; [by left|by right; right].
  - right. by left.
Qed.

Lemma max_order_of_In rid st m :
  max_order_of rid st = Some m ->
  exists x, In x (queue_items st) /\ resource_id x = rid /\ order x = m.
Proof.
  intros H. apply max_of_In, List.in_map_iff in H as (x & Hx & Hin).
  apply items_of_In in Hin as [? ?]. by exists x.
Qed.

Lemma max_order_of_None rid st :
  max_order_of rid st = None ->
  forall x, In x (queue_items st) -> resource_id x <> rid.
Proof.
  intros H x Hx Hr. apply max_of_None in H.
  assert (In (order x) (map order (items_of rid st))) as Hin
    by (apply List.in_map, items_of_In; by split).
  rewrite H in Hin. destruct Hin.
Qed.

Lemma join_queue_rows now rid dname mail uid st :
  (forall q, In q (queue_items st) ->
             user_id q <> user_pk (fst (resolve_user rid dname mail uid st))) ->
  queue_items (state_of (join_queue now rid dname mail uid st))
  = queue_items st
    ++ [mkQueueItem (next_pk (map item_pk (queue_items st))) rid
          (user_pk (fst (resolve_user rid dname mail uid st)))
          (or_zero (max_order_of rid st) + 1)].
Proof.
  intros Hnew. unfold join_queue.
  destruct (resolve_user rid dname mail uid st) as [user users1].
  simpl in Hnew. simpl fst. apply item_of_user_None in Hnew. rewrite Hnew.
  set (st1 := set_queue_items _ (set_users users1 st)).
  destruct (resources st1 !! rid) as [r|]; [|done].
  destruct (is_set (active_offer_expires_at r)).
  - cbn [state_of]. by destruct (broadcast_update_db rid st1) as (_ & _ & -> & _).
  - rewrite state_of_bind_ret.
    destruct (process_queue_rows None now rid (broadcast_update rid st1)) as [_ ->].
    by destruct (broadcast_update_db rid st1) as (_ & _ & -> & _).
Qed.

(** C2, as the code has it. The idempotence of [join_queue] is per
    claimant, not per (resource, claimant): a claimant that has a queue
    item on any resource gets its identifier back and nothing changes;
    a claimant without any queue item is appended to the queue of the
    resource, with the greatest order key of that queue plus one, or 1 for
    an empty queue. A known claimant of a true identifier is the user of
    the call. *)
Theorem join_queue_per_claimant now rid dname mail uid st :
  (forall u usr, uid = Some u -> u <> 0 -> In usr (users st) -> user_pk usr = u ->
                 user_pk (fst (resolve_user rid dname mail uid st)) = u)
  /\ ((exists q, In q (queue_items st)
                 /\ user_id q = user_pk (fst (resolve_user rid dname mail uid st))) ->
      join_queue now rid dname mail uid st
      = Ret st (user_pk (fst (resolve_user rid dname mail uid st))))
  /\ ((forall q, In q (queue_items st) ->
                 user_id q <> user_pk (fst (resolve_user rid dname mail uid st))) ->
      exists k,
        queue_items (state_of (join_queue now rid dname mail uid st))
        = queue_items st
          ++ [mkQueueItem (next_pk (map item_pk (queue_items st))) rid
                (user_pk (fst (resolve_user rid dname mail uid st))) k]
        /\ (forall m, max_order_of rid st = Some m ->
              k = m + 1
              /\ (exists x, In x (queue_items st) /\ resource_id x = rid /\ order x = m)
              /\ (forall x, In x (queue_items st) -> resource_id x = rid -> order x <= m))
        /\ (max_order_of rid st = None ->
              k = 1 /\ forall x, In x (queue_items st) -> resource_id x <> rid)).
Proof.
  split; [|split].
  - intros u usr -> Hu Hin Hpk.
    by destruct (resolve_user_known rid dname mail u st usr Hu Hin Hpk).
  - intros (q & Hq & Hu). unfold join_queue.
    destruct (resolve_user rid dname mail uid st) as [user users1]. simpl in *.
    destruct (item_of_user (user_pk user) st) eqn:E; [done|].
    rewrite item_of_user_None in E. by destruct (E q Hq).
  - intros Hnew. exists (or_zero (max_order_of rid st) + 1).
    split; [by apply join_queue_rows|]. rewrite new_order_value. split.
    + intros m Hm. rewrite Hm. split; [done|]. split.
      * by apply max_order_of_In.
      * intros x Hx Hr. by eapply max_order_of_ge.
    + intros Hm. rewrite Hm. split; [done|]. by apply max_order_of_None.
Qed.

(** Against C2 as the specification states it: Ann (user 1) is queued on "a" only; her join on
    "b" returns her identifier and appends nothing to the queue of "b". *)
Lemma join_queue_per_resource_counterexample :
  get_user 1 ann_on_a <> None
  /\ item_of "b" (Some 1) ann_on_a = None
  /\ join_queue 1 "b" "Ann" None (Some 1) ann_on_a = Ret ann_on_a 1
  /\ items_of "b" (state_of (join_queue 1 "b" "Ann" None (Some 1) ann_on_a)) = [].
Proof. vm_compute. by repeat split. Qed.

Lemma join_queue_per_claimant_witness :
  (exists q, In q (queue_items ann_on_a)
             /\ user_id q = user_pk (fst (resolve_user "b" "Ann" None (Some 1) ann_on_a)))
  /\ join_queue 1 "b" "Ann" None (Some 1) ann_on_a = Ret ann_on_a 1
  /\ (forall q, In q (queue_items two_resources) ->
        user_id q <> user_pk (fst (resolve_user "a" "Ann" None None two_resources)))
  /\ exists k,
       queue_items (state_of (join_queue 0 "a" "Ann" None None two_resources))
       = [mkQueueItem 1 "a" 1 k].
Proof.
  assert (exists q, In q (queue_items ann_on_a)
             /\ user_id q = user_pk (fst (resolve_user "b" "Ann" None (Some 1) ann_on_a)))
    as H1 by (exists (mkQueueItem 1 "a" 1 1); vm_compute; by split; [left|]).
  assert (forall q, In q (queue_items two_resources) ->
        user_id q <> user_pk (fst (resolve_user "a" "Ann" None None two_resources)))
    as H2 by (intros q []).
  destruct (join_queue_per_claimant 1 "b" "Ann" None (Some 1) ann_on_a) as (_ & Hq & _).
  destruct (join_queue_per_claimant 0 "a" "Ann" None None two_resources) as (_ & _ & Hn).
  split; [exact H1|]. split; [exact (Hq H1)|]. split; [exact H2|].
  destruct (Hn H2) as (k & Hk & _). exists k. exact Hk.
Defined.

(** ** What each operation does to the rows of the queue table *)

Lemma broadcast_update_resources rid st :
  resources (broadcast_update rid st) = resources st.
Proof. apply broadcast_update_db. Qed.

Lemma broadcast_update_queue_items rid st :
  queue_items (broadcast_update rid st) = queue_items st.
Proof. apply broadcast_update_db. Qed.

Lemma broadcast_update_pending rid st :
  pending (broadcast_update rid st) = pending st.
Proof. apply broadcast_update_db. Qed.

Lemma broadcast_update_offer_tasks rid st :
  offer_tasks (broadcast_update rid st) = offer_tasks st.
Proof. apply broadcast_update_db. Qed.

Lemma broadcast_update_next_task rid st :
  next_task (broadcast_update rid st) = next_task st.
Proof. apply broadcast_update_db. Qed.

Lemma cancel_offer_task_resources rid st :
  resources (cancel_offer_task rid st) = resources st.
Proof. apply cancel_offer_task_db. Qed.

Lemma cancel_offer_task_queue_items rid st :
  queue_items (cancel_offer_task rid st) = queue_items st.
Proof. apply cancel_offer_task_db. Qed.

Lemma cancel_offer_task_offer_tasks rid st :
  offer_tasks (cancel_offer_task rid st) = offer_tasks st.
Proof. apply cancel_offer_task_db. Qed.

Lemma cancel_offer_task_next_task rid st :
  next_task (cancel_offer_task rid st) = next_task st.
Proof. unfold cancel_offer_task. by destruct (offer_tasks st !! rid). Qed.

Lemma process_queue_queue_items me now rid st :
  queue_items (state_of (_process_queue me now rid st)) = queue_items st.
Proof. apply process_queue_rows. Qed.

Create Rewrite HintDb frame.
#[local] Hint Rewrite
  @state_of_bind_ret
  process_queue_queue_items
  broadcast_update_resources broadcast_update_queue_items
  broadcast_update_pending broadcast_update_offer_tasks broadcast_update_next_task
  cancel_offer_task_resources cancel_offer_task_queue_items
  cancel_offer_task_offer_tasks cancel_offer_task_next_task : frame.

Ltac frame := cbn [state_of]; autorewrite with frame; cbn [state_of].

Lemma release_resource_rows now rid uid st :
  queue_items (state_of (release_resource now rid uid st)) = queue_items st.
Proof.
  unfold release_resource.
  destruct (resources st !! rid) as [r|]; [|done].
  destruct (opt_neqb (current_holder_id r) uid); [done|]. by frame.
Qed.

Lemma accept_offer_rows rid uid st :
  queue_items (state_of (accept_offer rid uid st)) = queue_items st
  \/ exists q, first_item rid st = Some q
               /\ queue_items (state_of (accept_offer rid uid st))
                  = queue_items (delete_item q st).
Proof.
  unfold accept_offer.
  destruct (first_item rid st) as [q|]; [|by left].
  destruct (opt_neqb (Some (user_id q)) uid); [by left|].
  destruct (resources st !! rid) as [r|]; [|by left].
  destruct (negb (is_set (active_offer_expires_at r))); [by left|].
  right. exists q. split; [done|]. by frame.
Qed.

Lemma reject_offer_rows now rid uid st :
  queue_items (state_of (reject_offer now rid uid st)) = queue_items st
  \/ exists q, first_item rid st = Some q
               /\ queue_items (state_of (reject_offer now rid uid st))
                  = queue_items (delete_item q st).
Proof.
  unfold reject_offer.
  destruct (first_item rid st) as [q|]; [|by left].
  destruct (opt_neqb (Some (user_id q)) uid); [by left|].
  destruct (resources st !! rid) as [r|]; [|by left].
  destruct (negb (is_set (active_offer_expires_at r))); [by left|].
  right. exists q. split; [done|]. by frame.
Qed.

Lemma leave_queue_rows now rid uid st :
  queue_items (state_of (leave_queue now rid uid st)) = queue_items st
  \/ exists q, In q (queue_items st)
               /\ queue_items (state_of (leave_queue now rid uid st))
                  = queue_items (delete_item q st).
Proof.
  unfold leave_queue.
  destruct (item_of rid uid st) as [q|] eqn:E; [|by left].
  destruct (resources st !! rid) as [r|]; [|by left].
  right. exists q. split.
  - unfold item_of in E. destruct uid; [|done]. by apply List.find_some in E as [? _].
  - destruct (is_set (active_offer_expires_at r) && _); by frame.
Qed.

Lemma handle_timeout_offered me now rid st r d q :
  resources st !! rid = Some r ->
  active_offer_expires_at r = Some d ->
  first_item rid st = Some q ->
  _handle_timeout me now rid st
  = _process_queue me now rid
      (broadcast_update rid
         (put_resource rid (with_expiry None r)
            (update_order q (order (List.last (ordered_items rid st) q) + 1) st))).
Proof.
  intros Hr Hd Hq. unfold _handle_timeout. rewrite Hr, Hd.
  unfold first_item in Hq. destruct (ordered_items rid st) as [|y l] eqn:E; [done|].
  simpl in Hq. by injection Hq as ->.
Qed.

Lemma timeout_key_above rid st q x :
  In x (items_of rid st) ->
  order x < order (List.last (ordered_items rid st) q) + 1.
Proof.
  intros Hx.
  assert (order x <= order (List.last (ordered_items rid st) q)); [|lia].
  apply sorted_last_max; [apply order_by_order_sorted|].
  by apply order_by_order_In.
Qed.

Lemma handle_timeout_rows me now rid st :
  queue_items (state_of (_handle_timeout me now rid st)) = queue_items st
  \/ exists q k, first_item rid st = Some q
       /\ (forall x, In x (items_of rid st) -> order x < k)
       /\ queue_items (state_of (_handle_timeout me now rid st))
          = queue_items (update_order q k st).
Proof.
  destruct (resources st !! rid) as [r|] eqn:Hr;
    [|by left; unfold _handle_timeout; rewrite Hr].
  destruct (active_offer_expires_at r) as [d|] eqn:Hd;
    [|by left; unfold _handle_timeout; rewrite Hr, Hd].
  destruct (first_item rid st) as [q|] eqn:Hq.
  - right. exists q, (order (List.last (ordered_items rid st) q) + 1).
    split; [done|]. split; [intros x; apply timeout_key_above|].
    rewrite (handle_timeout_offered _ _ _ _ _ _ _ Hr Hd Hq). by frame.
  - left. unfold _handle_timeout. rewrite Hr, Hd.
    unfold first_item in Hq. destruct (ordered_items rid st); [|done]. by frame.
Qed.

Lemma fire_rows now t st :
  queue_items (state_of (fire now t st)) = queue_items st
  \/ exists rid q k, first_item rid st = Some q
       /\ (forall x, In x (items_of rid st) -> order x < k)
       /\ queue_items (state_of (fire now t st)) = queue_items (update_order q k st).
Proof.
  unfold fire. destruct (List.find _ (pending st)) as [x|]; [|by left].
  destruct (handle_timeout_rows (Some t) now (task_resource x) (cancel t st))
    as [H|(q & k & Hq & Hk & H)].
  - left. by rewrite H.
  - right. by exists (task_resource x), q, k.
Qed.

Lemma join_queue_rows_cases now rid dname mail uid st :
  queue_items (state_of (join_queue now rid dname mail uid st)) = queue_items st
  \/ exists u,
       queue_items (state_of (join_queue now rid dname mail uid st))
       = queue_items st
         ++ [mkQueueItem (next_pk (map item_pk (queue_items st))) rid u
               (or_zero (max_order_of rid st) + 1)].
Proof.
  destruct (item_of_user (user_pk (fst (resolve_user rid dname mail uid st))) st)
    as [q|] eqn:E.
  - left. unfold join_queue.
    destruct (resolve_user rid dname mail uid st) as [user users1].
    simpl in E. by rewrite E.
  - right. eexists. apply join_queue_rows. by apply item_of_user_None.
Qed.

(** The rows after a step: the same rows, the rows without one of them,
    the rows with the head of a queue moved above every key of that queue,
    or the rows and a new one above every key of its queue. *)
Lemma step_rows st o :
  queue_items (step st o) = queue_items st
  \/ (exists q, In q (queue_items st)
        /\ queue_items (step st o) = queue_items (delete_item q st))
  \/ (exists rid q k, first_item rid st = Some q
        /\ (forall x, In x (items_of rid st) -> order x < k)
        /\ queue_items (step st o) = queue_items (update_order q k st))
  \/ (exists rid u k,
        (forall x, In x (items_of rid st) -> order x < k)
        /\ queue_items (step st o)
           = queue_items st
             ++ [mkQueueItem (next_pk (map item_pk (queue_items st))) rid u k]).
Proof.
  destruct o as [now rid dname mail uid|now rid uid|rid uid|now rid uid
                |now rid uid|now t|now rid]; cbn [step].
  - destruct (join_queue_rows_cases now rid dname mail uid st) as [H|[u H]].
    + by left.
    + right; right; right. exists rid, u, (or_zero (max_order_of rid st) + 1).
      split; [intros x; apply new_order_above|done].
  - left. apply release_resource_rows.
  - destruct (accept_offer_rows rid uid st) as [H|(q & Hq & H)]; [by left|].
    right; left. exists q. split; [by apply first_item_In in Hq as [? _]|done].
  - destruct (reject_offer_rows now rid uid st) as [H|(q & Hq & H)]; [by left|].
    right; left. exists q. split; [by apply first_item_In in Hq as [? _]|done].
  - destruct (leave_queue_rows now rid uid st) as [H|(q & Hq & H)]; [by left|].
    right; left. by exists q.
  - destruct (fire_rows now t st) as [H|H]; [by left|]. by right; right; left.
  - left. apply process_queue_queue_items.
Qed.

Lemma next_pk_above keys k : In k keys -> k < next_pk keys.
Proof.
  unfold next_pk. intros H.
  assert (k <= foldr Z.max 0 keys); [|lia].
  induction keys as [|a l IH]; [destruct H|]. simpl.
  destruct H as [->|H]; [lia|]. specialize (IH H). lia.
Qed.

Lemma update_order_In q k st y :
  In y (queue_items (update_order q k st)) <->
  exists z, In z (queue_items st)
            /\ y = (if item_pk z =? item_pk q then with_order k z else z).
Proof.
  unfold update_order. simpl. rewrite List.in_map_iff. split.
  - intros (z & <- & Hz). by exists z.
  - intros (z & Hz & ->). by exists z.
Qed.

(** The primary key stays a key along every step. *)
Lemma step_pk_unique st o : pk_unique st -> pk_unique (step st o).
Proof.
  intros Hpk.
  destruct (step_rows st o)
    as [H|[(q & _ & H)|[(rid & q & k & _ & _ & H)|(rid & u & k & _ & H)]]];
    unfold pk_unique; rewrite H.
  - exact Hpk.
  - intros a b [Ha _]%delete_item_In [Hb _]%delete_item_In. by apply Hpk.
  - intros a b (za & Hza & ->)%update_order_In (zb & Hzb & ->)%update_order_In Heq.
    assert (item_pk za = item_pk zb) as Hz.
    { destruct (item_pk za =? item_pk q), (item_pk zb =? item_pk q); exact Heq. }
    by rewrite (Hpk za zb Hza Hzb Hz).
  - intros a b Ha Hb Heq.
    apply List.in_app_iff in Ha, Hb.
    assert (forall z, In z (queue_items st) ->
                      item_pk z <> next_pk (map item_pk (queue_items st))) as Hfresh.
    { intros z Hz. apply (List.in_map item_pk) in Hz.
      apply next_pk_above in Hz. lia. }
    destruct Ha as [Ha|[<-|[]]], Hb as [Hb|[<-|[]]].
    + by apply Hpk.
    + destruct (Hfresh a Ha). exact Heq.
    + destruct (Hfresh b Hb). by rewrite <- Heq.
    + done.
Qed.

Lemma run_pk_unique ops st : pk_unique st -> pk_unique (run ops st).
Proof.
  revert st. induction ops as [|o ops IH]; intros st H; [exact H|].
  simpl. apply IH. by apply step_pk_unique.
Qed.

Lemma assigned_keys_In rid st st' k :
  In k (assigned_keys rid st st') ->
  exists y, In y (queue_items st') /\ resource_id y = rid /\ order y = k
            /\ ~ In y (queue_items st).
Proof.
  unfold assigned_keys. intros (y & <- & Hy)%List.in_map_iff.
  apply List.filter_In in Hy as [Hy Hn]. apply items_of_In in Hy as [Hy Hr].
  exists y. repeat (split; [done|]). intros Hin.
  apply negb_true_iff in Hn.
  assert (existsb (fun z => (item_pk z =? item_pk y) && (order z =? order y))
                  (items_of rid st) = true) as Hex; [|congruence].
  apply List.existsb_exists. exists y. split; [by apply items_of_In|].
  by rewrite !Z.eqb_refl.
Qed.

(** C4, as the code has it. A key that a step assigns for a resource (to
    the row that a join appends, to the head row that a timeout moves) is
    strictly greater than every key present in the queue of the resource
    when the step starts. Nothing is said of the keys of rows deleted
    before: the code keeps no record of them. *)
Theorem assigned_key_above_present rid st o k x :
  pk_unique st ->
  In k (assigned_keys rid st (step st o)) ->
  In x (items_of rid st) ->
  order x < k.
Proof.
  intros Hpk (y & Hy & Hr & Hk & Hnew)%assigned_keys_In Hx.
  destruct (step_rows st o)
    as [H|[(q & _ & H)|[(rid' & q & k' & Hq & Habove & H)|(rid' & u & k' & Habove & H)]]];
    rewrite H in Hy.
  - by destruct Hnew.
  - apply delete_item_In in Hy as [Hy _]. by destruct Hnew.
  - apply update_order_In in Hy as (z & Hz & ->).
    destruct (Z.eqb_spec (item_pk z) (item_pk q)) as [E|E]; [|by destruct Hnew].
    apply first_item_In in Hq as [Hq Hqr].
    pose proof (Hpk z q Hz Hq E) as ->.
    simpl in Hr, Hk. subst k rid'. rewrite Hr in Habove. by apply Habove.
  - apply List.in_app_iff in Hy as [Hy|[<-|[]]]; [by destruct Hnew|].
    simpl in Hr, Hk. subst. by apply Habove.
Qed.

(** Against C4 as the specification states it: Ann joins (key 1) and accepts, which deletes her
    row; Bob then joins and is given key 1 again. *)
Lemma order_key_reuse_counterexample :
  key_history "r" join_accept_join one_resource = [1; 1]
  /\ ~ StronglySorted Z.lt (key_history "r" join_accept_join one_resource).
Proof.
  assert (key_history "r" join_accept_join one_resource = [1; 1]) as E
    by (vm_compute; reflexivity).
  split; [exact E|]. rewrite E. intros H.
  apply StronglySorted_inv in H as [_ H].
  apply Forall_inv in H. lia.
Qed.

(** ** Reject and timeout *)

Lemma last_In (l : list QueueItem) d : l <> [] -> In (List.last l d) l.
Proof.
  induction l as [|a l IH]; [done|]. intros _.
  destruct l as [|b l]; [by left|].
  right. apply IH. done.
Qed.

Lemma last_order_is_max rid st q :
  first_item rid st = Some q ->
  max_order_of rid st = Some (order (List.last (ordered_items rid st) q)).
Proof.
  intros Hq.
  assert (ordered_items rid st <> []) as Hne
    by (unfold first_item in Hq; by destruct (ordered_items rid st)).
  pose proof (last_In _ q Hne) as Hlast.
  apply ordered_items_In in Hlast as [Hlast Hres].
  destruct (max_order_of rid st) as [m|] eqn:Hm.
  - f_equal. apply Z.le_antisymm.
    + destruct (max_order_of_In _ _ _ Hm) as (x & Hx & Hr & <-).
      apply sorted_last_max; [apply order_by_order_sorted|].
      apply ordered_items_In. by split.
    + by eapply max_order_of_ge.
  - by destruct (max_order_of_None _ _ Hm _ Hlast).
Qed.


(** ** Mutual exclusion of holder and offer *)

Section Invariant.

Implicit Types (st : State) (r : Resource).

Lemma holder_ok_clear_expiry r : holder_ok r -> holder_ok (with_expiry None r).
Proof. intros H h Hh. simpl in *. split; [by apply H|done]. Qed.

Lemma holder_ok_clear_holder r : holder_ok (with_holder None r).
Proof. by intros h Hh. Qed.

Lemma holder_ok_free r d :
  holder_ok r -> truthy (current_holder_id r) = false -> holder_ok (with_expiry d r).
Proof.
  intros H Ht h Hh. simpl in Hh.
  rewrite (truthy_false_holder _ Ht) in Hh; [done|].
  intros h' Hh'. by apply H.
Qed.

Lemma holder_ok_grant r h :
  h <> 0 -> holder_ok (with_expiry None (with_holder (Some h) r)).
Proof. intros Hh h' [= <-]. by split. Qed.

Lemma lease_inv_frame st st' :
  resources st' = resources st -> queue_items st' = queue_items st ->
  lease_inv st -> lease_inv st'.
Proof.
  unfold lease_inv, claimants_nonzero. intros -> ->. tauto.
Qed.

Lemma put_resource_inv rid r st :
  lease_inv st -> holder_ok r -> lease_inv (put_resource rid r st).
Proof.
  intros [Hres Hq] Hr. split; [|exact Hq].
  intros rid' r'. unfold put_resource. simpl.
  destruct (decide (rid = rid')) as [->|Hne].
  - rewrite lookup_insert_eq. by intros [= <-].
  - rewrite lookup_insert_ne by done. apply Hres.
Qed.

Lemma delete_item_inv q st : lease_inv st -> lease_inv (delete_item q st).
Proof.
  intros [Hres Hq]. split; [exact Hres|].
  intros x [Hx _]%delete_item_In. by apply Hq.
Qed.

Lemma update_order_inv q k st : lease_inv st -> lease_inv (update_order q k st).
Proof.
  intros [Hres Hq]. split; [exact Hres|].
  intros x (z & Hz & ->)%update_order_In.
  destruct (item_pk z =? item_pk q); simpl; by apply Hq.
Qed.

Lemma broadcast_update_inv rid st : lease_inv st -> lease_inv (broadcast_update rid st).
Proof. apply lease_inv_frame; by frame. Qed.

Lemma cancel_offer_task_inv rid st : lease_inv st -> lease_inv (cancel_offer_task rid st).
Proof. apply lease_inv_frame; by frame. Qed.

Lemma cancel_inv t st : lease_inv st -> lease_inv (cancel t st).
Proof. by apply lease_inv_frame. Qed.

Lemma process_queue_inv me now rid st :
  lease_inv st -> lease_inv (state_of (_process_queue me now rid st)).
Proof.
  intros Hinv. unfold _process_queue.
  destruct (resources st !! rid) as [r|] eqn:Hr; [|done].
  destruct (truthy (current_holder_id r)) eqn:Ht; [done|].
  destruct (first_item rid st); [|done].
  destruct (negb _); [done|].
  unfold create_task.
  destruct (cancels_self me rid st); cbn [state_of]; [|apply broadcast_update_inv];
    (eapply lease_inv_frame;
      [| |apply (cancel_offer_task_inv rid), (put_resource_inv rid), (holder_ok_free r);
          [exact Hinv|by eapply (proj1 Hinv)|exact Ht]];
      done).
Qed.

Lemma bind_ret_inv {A B} (m : result A) (v : B) :
  lease_inv (state_of m) -> lease_inv (state_of (bind m (fun s _ => Ret s v))).
Proof. by rewrite state_of_bind_ret. Qed.

Lemma release_resource_inv now rid uid st :
  lease_inv st -> lease_inv (state_of (release_resource now rid uid st)).
Proof.
  intros Hinv. unfold release_resource.
  destruct (resources st !! rid) as [r|] eqn:Hr; [|done].
  destruct (opt_neqb (current_holder_id r) uid); [done|].
  apply bind_ret_inv, process_queue_inv, broadcast_update_inv, put_resource_inv;
    [done|apply holder_ok_clear_holder].
Qed.

Lemma accept_offer_inv rid uid st :
  lease_inv st -> lease_inv (state_of (accept_offer rid uid st)).
Proof.
  intros Hinv. unfold accept_offer.
  destruct (first_item rid st) as [q|] eqn:Hq; [|done].
  destruct (opt_neqb (Some (user_id q)) uid) eqn:Hu; [done|].
  apply opt_neqb_false in Hu. subst uid.
  destruct (resources st !! rid) as [r|] eqn:Hr; [|done].
  destruct (negb (is_set (active_offer_expires_at r))); [done|].
  cbn [state_of].
  apply broadcast_update_inv, cancel_offer_task_inv, delete_item_inv, put_resource_inv;
    [done|].
  apply holder_ok_grant. apply first_item_In in Hq as [Hq _]. by apply Hinv.
Qed.

Lemma reject_offer_inv now rid uid st :
  lease_inv st -> lease_inv (state_of (reject_offer now rid uid st)).
Proof.
  intros Hinv. unfold reject_offer.
  destruct (first_item rid st) as [q|] eqn:Hq; [|done].
  destruct (opt_neqb (Some (user_id q)) uid); [done|].
  destruct (resources st !! rid) as [r|] eqn:Hr; [|done].
  destruct (negb (is_set (active_offer_expires_at r))); [done|].
  apply bind_ret_inv, process_queue_inv, broadcast_update_inv,
    cancel_offer_task_inv, put_resource_inv; [by apply delete_item_inv|].
  apply holder_ok_clear_expiry. by eapply (proj1 Hinv).
Qed.

Lemma leave_queue_inv now rid uid st :
  lease_inv st -> lease_inv (state_of (leave_queue now rid uid st)).
Proof.
  intros Hinv. unfold leave_queue.
  destruct (item_of rid uid st) as [q|]; [|done].
  destruct (resources st !! rid) as [r|] eqn:Hr; [|done].
  destruct (is_set (active_offer_expires_at r) && _).
  - apply bind_ret_inv, process_queue_inv, broadcast_update_inv,
      cancel_offer_task_inv, put_resource_inv; [by apply delete_item_inv|].
    apply holder_ok_clear_expiry. by eapply (proj1 Hinv).
  - cbn [state_of]. by apply broadcast_update_inv, delete_item_inv.
Qed.

Lemma handle_timeout_inv me now rid st :
  lease_inv st -> lease_inv (state_of (_handle_timeout me now rid st)).
Proof.
  intros Hinv. unfold _handle_timeout.
  destruct (resources st !! rid) as [r|] eqn:Hr; [|done].
  destruct (active_offer_expires_at r); [|done].
  apply process_queue_inv, broadcast_update_inv.
  destruct (ordered_items rid st) as [|q l]; [done|].
  apply put_resource_inv; [by apply update_order_inv|].
  apply holder_ok_clear_expiry. by eapply (proj1 Hinv).
Qed.

Lemma fire_inv now t st : lease_inv st -> lease_inv (state_of (fire now t st)).
Proof.
  intros Hinv. unfold fire.
  destruct (List.find _ (pending st)); [|done].
  by apply handle_timeout_inv, cancel_inv.
Qed.

Lemma resolve_user_nonzero rid dname mail uid st :
  user_pk (fst (resolve_user rid dname mail uid st)) <> 0.
Proof.
  unfold resolve_user.
  destruct (truthy uid) eqn:Ht.
  - destruct (get_user (default 0 uid) st) as [u|] eqn:E.
    + simpl. rewrite (get_user_pk _ _ _ E).
      destruct uid as [n|]; [|done]. simpl in *.
      apply negb_true_iff, Z.eqb_neq in Ht. done.
    + simpl. pose proof (next_pk_pos (map user_pk (users st))). lia.
  - simpl. pose proof (next_pk_pos (map user_pk (users st))). lia.
Qed.

Lemma join_queue_inv now rid dname mail uid st :
  lease_inv st -> lease_inv (state_of (join_queue now rid dname mail uid st)).
Proof.
  intros Hinv. pose proof (resolve_user_nonzero rid dname mail uid st) as Hnz.
  unfold join_queue.
  destruct (resolve_user rid dname mail uid st) as [user users1]. simpl in Hnz.
  destruct (item_of_user (user_pk user) st); [done|].
  set (st1 := set_queue_items _ (set_users users1 st)).
  assert (lease_inv st1) as Hinv1.
  { split; [apply Hinv|]. intros x Hx. unfold st1 in Hx. simpl in Hx.
    apply List.in_app_iff in Hx as [Hx|[<-|[]]]; [by apply Hinv|done]. }
  destruct (resources st1 !! rid) as [r|]; [|done].
  destruct (is_set (active_offer_expires_at r)).
  - cbn [state_of]. by apply broadcast_update_inv.
  - by apply bind_ret_inv, process_queue_inv, broadcast_update_inv.
Qed.

Lemma step_inv st o : lease_inv st -> lease_inv (step st o).
Proof.
  destruct o; cbn [step];
    auto using join_queue_inv, release_resource_inv, accept_offer_inv,
      reject_offer_inv, leave_queue_inv, fire_inv, process_queue_inv.
Qed.

Lemma run_inv ops st : lease_inv st -> lease_inv (run ops st).
Proof.
  revert st. induction ops as [|o ops IH]; intros st H; [exact H|].
  simpl. by apply IH, step_inv.
Qed.

Lemma lease_inv_idle st : all_idle st -> claimants_nonzero st -> lease_inv st.
Proof.
  intros Hidle Hq. split; [|exact Hq].
  intros rid r Hr h Hh. destruct (Hidle rid r Hr) as [Hnone _]. congruence.
Qed.

Lemma lease_inv_exclusive st : lease_inv st -> mutual_exclusion st.
Proof.
  intros [Hres _] rid r Hr Hh.
  destruct (current_holder_id r) as [h|] eqn:E; [|done].
  by destruct (Hres rid r Hr h E).
Qed.

End Invariant.

(** C5. Start from a state in which every resource is Idle and no queue
    row names the claimant 0. After any sequence of joins, releases,
    accepts, rejects, leaves, timer expiries and advance steps, no
    resource has both a holder and an offer deadline. *)
Theorem mutual_exclusion_reachable st ops :
  all_idle st -> claimants_nonzero st -> mutual_exclusion (run ops st).
Proof.
  intros Hidle Hq. by apply lease_inv_exclusive, run_inv, lease_inv_idle.
Qed.

(** ** Recovery *)

Lemma restore_one_effect now_loop st row :
  resources (restore_one now_loop st row) = resources st
  /\ users (restore_one now_loop st row) = users st
  /\ queue_items (restore_one now_loop st row) = queue_items st
  /\ emitted (restore_one now_loop st row) = emitted st
  /\ (forall t, In t (pending (restore_one now_loop st row)) ->
                In t (pending st) \/ task_resource t = row.1)
  /\ (forall rid, rid <> row.1 ->
                  offer_tasks (restore_one now_loop st row) !! rid = offer_tasks st !! rid).
Proof.
  unfold restore_one, create_task.
  destruct (0 <? _); simpl; repeat (split; [done|]); split.
  - intros t [Ht|[<-|[]]]%List.in_app_iff; [by left|by right].
  - intros rid Hne. by rewrite lookup_insert_ne.
  - intros t [Ht|[<-|[]]]%List.in_app_iff; [by left|by right].
  - done.
Qed.

Lemma restore_fold_effect now_loop rows st :
  resources (foldl (restore_one now_loop) st rows) = resources st
  /\ users (foldl (restore_one now_loop) st rows) = users st
  /\ queue_items (foldl (restore_one now_loop) st rows) = queue_items st
  /\ emitted (foldl (restore_one now_loop) st rows) = emitted st
  /\ (forall t, In t (pending (foldl (restore_one now_loop) st rows)) ->
                In t (pending st) \/ In (task_resource t) (map fst rows))
  /\ (forall rid, ~ In rid (map fst rows) ->
                  offer_tasks (foldl (restore_one now_loop) st rows) !! rid
                  = offer_tasks st !! rid).
Proof.
  revert st. induction rows as [|row rows IH]; intros st; [simpl; tauto|].
  simpl foldl.
  destruct (IH (restore_one now_loop st row)) as (E1 & E2 & E3 & E4 & E5 & E6).
  destruct (restore_one_effect now_loop st row) as (F1 & F2 & F3 & F4 & F5 & F6).
  rewrite E1, E2, E3, E4, F1, F2, F3, F4. repeat (split; [done|]). split.
  - intros t [Ht|Ht]%E5; [|by right; right].
    apply F5 in Ht as [Ht|Ht]; [by left|]. right. by left.
  - intros rid Hn. rewrite E6 by (intros H; apply Hn; by right).
    apply F6. intros ->. apply Hn. by left.
Qed.

Lemma restore_timers_selected now_query st rid :
  In rid (map fst (List.filter (fun row => expires_after now_query row.2)
                               (map_to_list (resources st)))) ->
  exists r d, resources st !! rid = Some r
              /\ active_offer_expires_at r = Some d /\ now_query < d.
Proof.
  intros ([rid' r] & <- & Hrow)%List.in_map_iff.
  apply List.filter_In in Hrow as [Hin Hexp]. simpl in *.
  apply list_elem_of_In, elem_of_map_to_list in Hin.
  unfold expires_after in Hexp.
  destruct (active_offer_expires_at r) as [d|] eqn:Hd; [|done].
  exists r, d. apply Z.ltb_lt in Hexp. done.
Qed.

(** C1, on the code. The query of [restore_timers] selects the resources
    whose deadline is later than the clock, so a resource whose deadline
    has passed is not selected: nothing in the database changes (the
    resource keeps its deadline and its head), no expiry task is scheduled
    for it and no snapshot is emitted. The specification asks for an immediate
    expiry instead. *)
Theorem restore_timers_skips_expired now_query now_loop st rid r d :
  resources st !! rid = Some r ->
  active_offer_expires_at r = Some d ->
  d <= now_query ->
  resources (restore_timers now_query now_loop st) = resources st
  /\ queue_items (restore_timers now_query now_loop st) = queue_items st
  /\ emitted (restore_timers now_query now_loop st) = emitted st
  /\ (forall t, In t (pending (restore_timers now_query now_loop st)) ->
                task_resource t = rid -> In t (pending st))
  /\ offer_tasks (restore_timers now_query now_loop st) !! rid = offer_tasks st !! rid.
Proof.
  intros Hr Hd Hle. unfold restore_timers.
  set (rows := List.filter _ _).
  assert (~ In rid (map fst rows)) as Hnot.
  { intros (r' & d' & Hr' & Hd' & Hlt)%restore_timers_selected.
    rewrite Hr in Hr'. injection Hr' as <-. rewrite Hd in Hd'. injection Hd' as <-. lia. }
  destruct (restore_fold_effect now_loop rows st) as (E1 & _ & E3 & E4 & E5 & E6).
  repeat (split; [done|]). split.
  - intros t [Ht|Ht]%E5 Hres; [done|]. subst rid. by destruct Hnot.
  - by apply E6.
Qed.

(** At the restart of [offered_at_restart] ten seconds after the deadline,
    Ann stays offered and no task will ever expire the offer. *)
Lemma restore_timers_skips_expired_witness :
  resources offered_at_restart !! "r" = Some (mkResource "R" None 5 "secret" None (Some 1000))
  /\ 1000 <= 10001000
  /\ resources (restore_timers 10001000 (fun _ => 10001000) offered_at_restart)
     = resources offered_at_restart
  /\ forall t, In t (pending (restore_timers 10001000 (fun _ => 10001000) offered_at_restart)) ->
               task_resource t = "r" -> In t (pending offered_at_restart).
Proof.
  assert (resources offered_at_restart !! "r"
          = Some (mkResource "R" None 5 "secret" None (Some 1000))) as Hr
    by (vm_compute; reflexivity).
  assert (1000 <= 10001000) as Hle by lia.
  destruct (restore_timers_skips_expired 10001000 (fun _ => 10001000)
              offered_at_restart "r" _ 1000 Hr eq_refl Hle) as (E1 & _ & _ & E4 & _).
  split; [exact Hr|]. split; [exact Hle|]. split; [exact E1|exact E4].
Defined.

(** ** Unknown resources *)

(** C3, on the code. A join on a resource that does not exist, by a
    claimant without a queue item, commits the new queue row (and the new
    user) and then raises [AttributeError] on the missing resource, where
    the specification asks for a failure result and no change of state. *)
Theorem join_queue_unknown_resource now rid dname mail uid st :
  resources st !! rid = None ->
  (forall q, In q (queue_items st) ->
             user_id q <> user_pk (fst (resolve_user rid dname mail uid st))) ->
  exists st',
    join_queue now rid dname mail uid st = Raise st' AttributeError
    /\ users st' = snd (resolve_user rid dname mail uid st)
    /\ queue_items st'
       = queue_items st
         ++ [mkQueueItem (next_pk (map item_pk (queue_items st))) rid
               (user_pk (fst (resolve_user rid dname mail uid st)))
               (or_zero (max_order_of rid st) + 1)].
Proof.
  intros Hr Hnew. unfold join_queue.
  destruct (resolve_user rid dname mail uid st) as [user users1].
  simpl in Hnew. apply item_of_user_None in Hnew. rewrite Hnew.
  cbn [resources set_queue_items set_users]. rewrite Hr.
  eexists. split; [reflexivity|]. by split.
Qed.

Lemma join_queue_unknown_resource_witness :
  resources one_resource !! "ghost" = None
  /\ exists st',
       join_queue 0 "ghost" "Ann" None None one_resource = Raise st' AttributeError
       /\ users st' = [mkUser 1 "Ann" None "ghost"]
       /\ queue_items st' = [mkQueueItem 1 "ghost" 1 1].
Proof.
  assert (resources one_resource !! "ghost" = None) as Hr by (vm_compute; reflexivity).
  assert (forall q, In q (queue_items one_resource) ->
            user_id q <> user_pk (fst (resolve_user "ghost" "Ann" None None one_resource)))
    as Hnew by (intros q []).
  destruct (join_queue_unknown_resource 0 "ghost" "Ann" None None one_resource Hr Hnew)
    as (st' & E & Hu & Hq).
  split; [exact Hr|]. exists st'. split; [exact E|]. split; [exact Hu|exact Hq].
Defined.

(** ** Timers *)

Section Timers.

Implicit Types (st : State) (t : Task).

Lemma timers_tracked_frame st st' :
  offer_tasks st' = offer_tasks st -> pending st' = pending st ->
  next_task st' = next_task st -> timers_tracked st -> timers_tracked st'.
Proof. unfold timers_tracked. intros -> -> ->. tauto. Qed.

Lemma NoDup_map_filter {A B} (f : A -> B) (p : A -> bool) (l : list A) :
  List.NoDup (map f l) -> List.NoDup (map f (List.filter p l)).
Proof.
  induction l as [|a l IH]; simpl; [done|].
  intros [Ha Hl]%NoDup_cons_iff. destruct (p a); simpl; [|by apply IH].
  apply List.NoDup_cons; [|by apply IH].
  intros (x & Hx & Hin)%List.in_map_iff. apply Ha.
  apply List.in_map_iff. exists x. split; [done|].
  by apply List.filter_In in Hin as [? _].
Qed.

Lemma cancel_tracked n st : timers_tracked st -> timers_tracked (cancel n st).
Proof.
  intros (H1 & H2 & H3). split; [|split].
  - intros t [Ht _]%cancel_In. by apply H1.
  - intros t [Ht _]%cancel_In. by apply H2.
  - unfold cancel. simpl. by apply NoDup_map_filter.
Qed.

Lemma cancel_offer_task_tracked rid st :
  timers_tracked st -> timers_tracked (cancel_offer_task rid st).
Proof.
  unfold cancel_offer_task. destruct (offer_tasks st !! rid); [|done].
  apply cancel_tracked.
Qed.

Lemma broadcast_update_tracked rid st :
  timers_tracked st -> timers_tracked (broadcast_update rid st).
Proof. apply timers_tracked_frame; by frame. Qed.

(** Cancel, create, register: the three lines of [_process_queue] that
    arm the timer of a resource. *)
Lemma arm_tracked rid delay st :
  timers_tracked st ->
  timers_tracked
    (register_task rid (next_task (cancel_offer_task rid st))
       (fst (create_task rid delay (cancel_offer_task rid st)))).
Proof.
  intros Htr. pose proof (cancel_offer_task_tracked rid st Htr) as (H1 & H2 & H3).
  destruct Htr as (G1 & _ & _).
  assert (forall t, In t (pending (cancel_offer_task rid st)) -> task_resource t <> rid)
    as Hother.
  { intros t [Ht Hne]%cancel_offer_task_In Hres. apply Hne. rewrite <- Hres. by apply G1. }
  unfold register_task, create_task. simpl. split; [|split]; simpl.
  - intros t [Ht|[<-|[]]]%List.in_app_iff.
    + rewrite lookup_insert_ne by (intros E; by apply (Hother t Ht)). by apply H1.
    + simpl. by rewrite lookup_insert_eq.
  - intros t [Ht|[<-|[]]]%List.in_app_iff; [|simpl; lia].
    specialize (H2 t Ht). lia.
  - rewrite List.map_app. apply List.NoDup_app; [exact H3|repeat constructor; by intros []|].
    intros n (t & <- & Ht)%List.in_map_iff [E|[]]. simpl in E.
    specialize (H2 t Ht). lia.
Qed.

Lemma process_queue_tracked me now rid st :
  timers_tracked st -> timers_tracked (state_of (_process_queue me now rid st)).
Proof.
  intros Htr. unfold _process_queue.
  destruct (resources st !! rid) as [r|]; [|done].
  destruct (truthy (current_holder_id r)); [done|].
  destruct (first_item rid st); [|done].
  destruct (negb _); [done|].
  set (st1 := put_resource rid _ st).
  assert (timers_tracked st1) as Htr1 by by apply (timers_tracked_frame st).
  pose proof (arm_tracked rid (seconds (timeout_seconds r)) st1 Htr1) as Harm.
  unfold create_task in *.
  destruct (cancels_self me rid st); cbn [state_of fst] in *; [done|].
  by apply broadcast_update_tracked.
Qed.

Lemma bind_ret_tracked {A B} (m : result A) (v : B) :
  timers_tracked (state_of m) ->
  timers_tracked (state_of (bind m (fun s _ => Ret s v))).
Proof. by rewrite state_of_bind_ret. Qed.

Lemma handle_timeout_tracked me now rid st :
  timers_tracked st -> timers_tracked (state_of (_handle_timeout me now rid st)).
Proof.
  intros Htr. unfold _handle_timeout.
  destruct (resources st !! rid) as [r|]; [|done].
  destruct (active_offer_expires_at r); [|done].
  apply process_queue_tracked, broadcast_update_tracked.
  destruct (ordered_items rid st); [done|]. by apply (timers_tracked_frame st).
Qed.

Lemma step_tracked st o : timers_tracked st -> timers_tracked (step st o).
Proof.
  intros Htr. destruct o as [now rid dname mail uid|now rid uid|rid uid|now rid uid
                            |now rid uid|now t|now rid]; cbn [step].
  - unfold join_queue.
    destruct (resolve_user rid dname mail uid st) as [user users1].
    destruct (item_of_user (user_pk user) st); [done|].
    set (st1 := set_queue_items _ _).
    assert (timers_tracked st1) as Htr1 by by apply (timers_tracked_frame st).
    destruct (resources st1 !! rid) as [r|]; [|done].
    destruct (is_set (active_offer_expires_at r)).
    + cbn [state_of]. by apply broadcast_update_tracked.
    + by apply bind_ret_tracked, process_queue_tracked, broadcast_update_tracked.
  - unfold release_resource.
    destruct (resources st !! rid) as [r|]; [|done].
    destruct (opt_neqb (current_holder_id r) uid); [done|].
    apply bind_ret_tracked, process_queue_tracked, broadcast_update_tracked.
    by apply (timers_tracked_frame st).
  - unfold accept_offer.
    destruct (first_item rid st) as [q|]; [|done].
    destruct (opt_neqb (Some (user_id q)) uid); [done|].
    destruct (resources st !! rid) as [r|]; [|done].
    destruct (negb (is_set (active_offer_expires_at r))); [done|].
    cbn [state_of]. apply broadcast_update_tracked, cancel_offer_task_tracked.
    by apply (timers_tracked_frame st).
  - unfold reject_offer.
    destruct (first_item rid st) as [q|]; [|done].
    destruct (opt_neqb (Some (user_id q)) uid); [done|].
    destruct (resources st !! rid) as [r|]; [|done].
    destruct (negb (is_set (active_offer_expires_at r))); [done|].
    apply bind_ret_tracked, process_queue_tracked, broadcast_update_tracked,
      cancel_offer_task_tracked.
    by apply (timers_tracked_frame st).
  - unfold leave_queue.
    destruct (item_of rid uid st) as [q|]; [|done].
    destruct (resources st !! rid) as [r|]; [|done].
    destruct (is_set (active_offer_expires_at r) && _).
    + apply bind_ret_tracked, process_queue_tracked, broadcast_update_tracked,
        cancel_offer_task_tracked.
      by apply (timers_tracked_frame st).
    + cbn [state_of]. apply broadcast_update_tracked.
      by apply (timers_tracked_frame st).
  - unfold fire. destruct (List.find _ (pending st)); [|done].
    by apply handle_timeout_tracked, cancel_tracked.
  - by apply process_queue_tracked.
Qed.

Lemma run_tracked ops st : timers_tracked st -> timers_tracked (run ops st).
Proof.
  revert st. induction ops as [|o ops IH]; intros st H; [exact H|].
  simpl. by apply IH, step_tracked.
Qed.

Lemma filter_same_id (l : list Task) (p : Task -> bool) (n : nat) :
  List.NoDup (map task_id l) ->
  (forall t, In t l -> p t = true -> task_id t = n) ->
  (length (List.filter p l) <= 1)%nat.
Proof.
  induction l as [|a l IH]; simpl; [lia|].
  intros [Ha Hl]%NoDup_cons_iff Hn.
  destruct (p a) eqn:Hpa; [|apply IH; [done|intros t Ht; apply Hn; by right]].
  assert (List.filter p l = []) as ->; [|simpl; lia].
  destruct (List.filter p l) as [|b l'] eqn:E; [done|].
  assert (In b (List.filter p l)) as [Hb Hpb]%List.filter_In by (rewrite E; by left).
  destruct Ha. apply List.in_map_iff. exists b. split; [|done].
  rewrite (Hn a (or_introl eq_refl) Hpa). apply Hn; [by right|done].
Qed.

Lemma tracked_at_most_one st : timers_tracked st -> at_most_one_timer st.
Proof.
  intros (H1 & _ & H3) rid. unfold pending_for.
  destruct (offer_tasks st !! rid) as [n|] eqn:E.
  - apply (filter_same_id _ _ n); [done|].
    intros t Ht Hr%String.eqb_eq. specialize (H1 t Ht). rewrite Hr, E in H1.
    by injection H1.
  - assert (List.filter (fun t => String.eqb (task_resource t) rid) (pending st) = [])
      as ->; [|simpl; lia].
    destruct (List.filter _ (pending st)) as [|b l'] eqn:E'; [done|].
    assert (In b (List.filter (fun t => String.eqb (task_resource t) rid) (pending st)))
      as [Hb Hr%String.eqb_eq]%List.filter_In by (rewrite E'; by left).
    specialize (H1 b Hb). rewrite Hr, E in H1. done.
Qed.

(** From a process whose sleeping tasks are registered, in particular
    from one that has scheduled nothing, the operations keep at most one
    timer per resource: the advance step cancels the registered task
    before it creates the next one. *)
Lemma at_most_one_timer_run ops st :
  timers_tracked st -> at_most_one_timer (run ops st).
Proof. intros H. by apply tracked_at_most_one, run_tracked. Qed.

End Timers.

(** ** The theorems at work on a small queue *)

Lemma ann_bob_rows : queue_items ann_bob_on_r = [ann_row; bob_row].
Proof. vm_compute. reflexivity. Qed.

Lemma ann_bob_resource : resources ann_bob_on_r !! "r" = Some r_offered.
Proof. vm_compute. reflexivity. Qed.

Lemma ann_bob_first : first_item "r" ann_bob_on_r = Some ann_row.
Proof. vm_compute. reflexivity. Qed.

Lemma boot_pk_unique rs : pk_unique (boot rs).
Proof. intros a b []. Qed.

Lemma boot_tracked rs : timers_tracked (boot rs).
Proof. split; [|split]; [by intros t []|by intros t []|constructor]. Qed.

Lemma one_resource_idle : all_idle one_resource.
Proof.
  intros rid r H. unfold one_resource, boot in H. simpl in H.
  apply lookup_insert_Some in H as [[_ <-]|[_ H]]; [done|].
  by rewrite lookup_empty in H.
Qed.

(** Carl (user 7) is not in the queue of "r": his leave is refused. *)
Lemma leave_queue_absent_witness :
  leave_queue 9 "r" (Some 7) ann_bob_on_r = Ret ann_bob_on_r false.
Proof.
  apply leave_queue_absent. intros q Hq _.
  rewrite ann_bob_rows in Hq. destruct Hq as [<-|[<-|[]]]; simpl; congruence.
Defined.


(** Carl joins while Ann is offered: the offer and the head stay. *)
Lemma join_queue_during_offer_witness :
  resources ann_bob_on_r !! "r" = Some r_offered
  /\ first_item "r" ann_bob_on_r = Some ann_row
  /\ exists st' item,
       join_queue 2 "r" "Carl" None None ann_bob_on_r = Ret st' 3
       /\ resources st' = resources ann_bob_on_r
       /\ pending st' = pending ann_bob_on_r
       /\ queue_items st' = queue_items ann_bob_on_r ++ [item]
       /\ first_item "r" st' = Some ann_row.
Proof.
  pose proof ann_bob_resource as Hr. pose proof ann_bob_first as Hh.
  split; [exact Hr|]. split; [exact Hh|].
  assert (forall q, In q (queue_items ann_bob_on_r) ->
            user_id q <> user_pk (fst (resolve_user "r" "Carl" None None ann_bob_on_r)))
    as Hnew.
  { intros q Hq. rewrite ann_bob_rows in Hq.
    destruct Hq as [<-|[<-|[]]]; vm_compute; congruence. }
  destruct (join_queue_during_offer 2 "r" "Carl" None None ann_bob_on_r
              r_offered 5000000 ann_row Hr eq_refl Hh Hnew)
    as (st' & item & E & E1 & _ & E3 & _ & E5 & _ & _ & _ & E9 & _).
  exists st', item. split; [exact E|]. split; [exact E1|]. split; [exact E3|].
  split; [exact E5|exact E9].
Defined.

(** Carl's join is given key 3, above Bob's key 2. *)
Lemma assigned_key_above_present_witness :
  pk_unique ann_bob_on_r
  /\ In 3 (assigned_keys "r" ann_bob_on_r
             (step ann_bob_on_r (Join 2 "r" "Carl" None None)))
  /\ In bob_row (items_of "r" ann_bob_on_r)
  /\ order bob_row < 3.
Proof.
  assert (pk_unique ann_bob_on_r) as Hpk by apply run_pk_unique, boot_pk_unique.
  assert (In 3 (assigned_keys "r" ann_bob_on_r
                  (step ann_bob_on_r (Join 2 "r" "Carl" None None)))) as Hk
    by (vm_compute; by left).
  assert (In bob_row (items_of "r" ann_bob_on_r)) as Hx
    by (vm_compute; right; by left).
  split; [exact Hpk|]. split; [exact Hk|]. split; [exact Hx|].
  exact (assigned_key_above_present "r" ann_bob_on_r (Join 2 "r" "Carl" None None)
           3 bob_row Hpk Hk Hx).
Defined.


(** A run that passes through Offered, Held and Offered again. *)
Lemma mutual_exclusion_reachable_witness :
  all_idle one_resource
  /\ claimants_nonzero one_resource
  /\ mutual_exclusion
       (run [Join 0 "r" "Ann" None None; Join 1 "r" "Bob" None None;
             Accept "r" (Some 1); Release 7 "r" (Some 1); Fire 5000007 1%nat]
            one_resource).
Proof.
  assert (claimants_nonzero one_resource) as Hq by (intros q []).
  split; [exact one_resource_idle|]. split; [exact Hq|].
  exact (mutual_exclusion_reachable one_resource _ one_resource_idle Hq).
Defined.

(** ** Recovery that only takes the registered branch *)

Lemma restore_fold_tracked now_loop rows st :
  List.NoDup (map fst rows) ->
  (forall row, In row rows ->
     0 < default 0 (active_offer_expires_at row.2) - now_loop row.1) ->
  (forall t, In t (pending st) -> ~ In (task_resource t) (map fst rows)) ->
  timers_tracked st ->
  timers_tracked (foldl (restore_one now_loop) st rows).
Proof.
  revert st. induction rows as [|row rows IH]; intros st Hnd Hpos Hfresh Htr; [exact Htr|].
  simpl in Hnd. apply NoDup_cons_iff in Hnd as [Hrow Hnd].
  simpl foldl. apply IH; [exact Hnd|intros; apply Hpos; by right| |].
  - unfold restore_one, create_task.
    destruct (0 <? _); simpl; intros t [Ht|[<-|[]]]%List.in_app_iff; simpl; try done;
      intros Hin; apply (Hfresh t Ht); by right.
  - unfold restore_one.
    assert ((0 <? default 0 (active_offer_expires_at row.2) - now_loop row.1) = true) as ->
      by (apply Z.ltb_lt, Hpos; by left).
    destruct Htr as (H1 & H2 & H3). unfold create_task, register_task.
    split; [|split]; simpl.
    + intros t [Ht|[<-|[]]]%List.in_app_iff; simpl; [|by rewrite lookup_insert_eq].
      rewrite lookup_insert_ne; [by apply H1|].
      intros E. apply (Hfresh t Ht). left. done.
    + intros t [Ht|[<-|[]]]%List.in_app_iff; simpl; [|lia].
      specialize (H2 t Ht). lia.
    + rewrite List.map_app. apply List.NoDup_app; [exact H3|repeat constructor; by intros []|].
      intros n (t & <- & Ht)%List.in_map_iff [E|[]]. simpl in E.
      specialize (H2 t Ht). lia.
Qed.

Lemma map_to_list_keys_NoDup (m : gmap string Resource) :
  List.NoDup (map fst (map_to_list m)).
Proof.
  apply NoDup_ListNoDup.
  assert (map fst (map_to_list m) = (map_to_list m).*1) as ->; [|apply NoDup_fst_map_to_list].
  induction (map_to_list m) as [|a l IH]; [done|]. simpl. by rewrite IH.
Qed.

(** In a process that has scheduled nothing, when no selected deadline
    passes between the query and the loop, [restore_timers] leaves every
    task registered, hence at most one timer per resource, and so does
    every run that follows. *)
Lemma restore_timers_tracked now_query now_loop st ops :
  pending st = [] ->
  timers_tracked st ->
  (forall rid r d, resources st !! rid = Some r -> active_offer_expires_at r = Some d ->
                   now_query < d -> now_loop rid < d) ->
  at_most_one_timer (run ops (restore_timers now_query now_loop st)).
Proof.
  intros Hp Htr Hlater. apply tracked_at_most_one, run_tracked. unfold restore_timers.
  apply restore_fold_tracked; [| | |exact Htr].
  - apply NoDup_map_filter, map_to_list_keys_NoDup.
  - intros [rid r] [Hin Hexp]%List.filter_In. simpl in *.
    apply list_elem_of_In, elem_of_map_to_list in Hin.
    unfold expires_after in Hexp.
    destruct (active_offer_expires_at r) as [d|] eqn:Hd; [|done].
    apply Z.ltb_lt in Hexp. specialize (Hlater rid r d Hin Hd Hexp). simpl. lia.
  - rewrite Hp. by intros t [].
Qed.

(** ** The scenarios of the specification, run on the embedding *)

(** FIFO: Ann, Bob and Carl join in that order and accept in turn; the
    offers go to Ann, then Bob, then Carl. *)
Example fifo_offers :
  let s1 := run [Join 0 "r" "Ann" None None; Join 1 "r" "Bob" None None;
                 Join 2 "r" "Carl" None None] one_resource in
  let s2 := run [Accept "r" (Some 1); Release 3 "r" (Some 1)] s1 in
  let s3 := run [Accept "r" (Some 2); Release 4 "r" (Some 2)] s2 in
  (user_id <$> first_item "r" s1) = Some 1
  /\ (user_id <$> first_item "r" s2) = Some 2
  /\ (user_id <$> first_item "r" s3) = Some 3.
Proof. vm_compute. by repeat split. Qed.

(** No-show: the offer to Ann expires; she goes behind Bob, who is offered. *)
Example no_show_requeue :
  let s := run [Fire 5000000 0%nat] ann_bob_on_r in
  map (fun q => (user_id q, order q)) (ordered_items "r" s) = [(2, 2); (1, 3)]
  /\ (active_offer_expires_at <$> resources s !! "r") = Some (Some 10000000)
  /\ pending s = [mkTask 1 "r" 5000000].
Proof. vm_compute. by repeat split. Qed.

(** Leave while offered: Ann alone, offered, leaves; the resource is Idle
    again and no timer is pending. *)
Example leave_while_offered :
  let s := run [Join 0 "r" "Ann" None None; Leave 1 "r" (Some 1)] one_resource in
  queue_items s = []
  /\ resources s !! "r" = Some (new_resource "R" 5)
  /\ pending s = [].
Proof. vm_compute. by repeat split. Qed.

(** Release: Ann holds, Bob waits; when Ann releases, Bob is offered with
    a deadline of five seconds from the release. *)
Example release_offers_next :
  let s := run [Accept "r" (Some 1); Release 7000000 "r" (Some 1)] ann_bob_on_r in
  (current_holder_id <$> resources s !! "r") = Some None
  /\ (active_offer_expires_at <$> resources s !! "r") = Some (Some 12000000)
  /\ (user_id <$> first_item "r" s) = Some 2.
Proof. vm_compute. by repeat split. Qed.

(** ** Start-up: the tasks of the recovery run before any request *)

Section StartUp.

Implicit Types (st : State) (ts : list Task).

Lemma timers_settling_frame ts st st' :
  offer_tasks st' = offer_tasks st -> pending st' = pending st ->
  next_task st' = next_task st -> timers_settling ts st -> timers_settling ts st'.
Proof. unfold timers_settling. intros -> -> ->. tauto. Qed.

Lemma filter_one_resource (l : list Task) rid :
  List.NoDup (map task_resource l) ->
  (length (List.filter (fun t => String.eqb (task_resource t) rid) l) <= 1)%nat.
Proof.
  induction l as [|a l IH]; simpl; [lia|].
  intros [Ha Hl]%NoDup_cons_iff.
  destruct (String.eqb_spec (task_resource a) rid) as [E|E]; [|by apply IH].
  destruct (List.filter (fun t => String.eqb (task_resource t) rid) l) as [|b l'] eqn:F;
    [simpl; lia|].
  assert (In b (List.filter (fun t => String.eqb (task_resource t) rid) l))
    as [Hb Hr%String.eqb_eq]%List.filter_In by (rewrite F; by left).
  destruct Ha. rewrite E, <- Hr. by apply List.in_map.
Qed.

Lemma settling_at_most_one ts st : timers_settling ts st -> at_most_one_timer st.
Proof. intros (_ & _ & _ & H) rid. by apply filter_one_resource. Qed.

Lemma settling_tracked st : timers_settling [] st -> timers_tracked st.
Proof.
  intros (H1 & H2 & H3 & _). split; [|done].
  intros t Ht. by destruct (H1 t Ht) as [?|[]].
Qed.

Lemma NoDup_map_eq {A B} (f : A -> B) (l : list A) x y :
  List.NoDup (map f l) -> In x l -> In y l -> f x = f y -> x = y.
Proof.
  induction l as [|a l IH]; simpl; [done|].
  intros [Ha Hl]%NoDup_cons_iff [->|Hx] [->|Hy] E; [done| | |by apply IH].
  - destruct Ha. rewrite E. by apply List.in_map.
  - destruct Ha. rewrite <- E. by apply List.in_map.
Qed.

(** The advance step run for a resource none of whose tasks sleeps. *)
Lemma process_queue_settling me now rid ts st :
  (forall t, In t (pending st) -> task_resource t <> rid) ->
  timers_settling ts st ->
  timers_settling ts (state_of (_process_queue me now rid st)).
Proof.
  intros Hfree Hs. unfold _process_queue.
  destruct (resources st !! rid) as [r|]; [|done].
  destruct (truthy (current_holder_id r)); [done|].
  destruct (first_item rid st); [|done].
  destruct (negb _); [done|].
  set (st1 := put_resource rid _ st).
  assert (timers_settling ts
            (register_task rid (next_task (cancel_offer_task rid st1))
               (fst (create_task rid (seconds (timeout_seconds r))
                                 (cancel_offer_task rid st1))))) as Harm.
  { destruct Hs as (H1 & H2 & H3 & H4).
    assert (forall t, In t (pending (cancel_offer_task rid st1)) -> In t (pending st))
      as Hsub by (by intros t [Ht _]%cancel_offer_task_In).
    assert (next_task (cancel_offer_task rid st1) = next_task st) as Hn
      by (unfold cancel_offer_task; by destruct (offer_tasks st1 !! rid)).
    assert (offer_tasks (cancel_offer_task rid st1) = offer_tasks st) as Ho
      by (unfold cancel_offer_task; by destruct (offer_tasks st1 !! rid)).
    assert (List.NoDup (map task_id (pending (cancel_offer_task rid st1)))
            /\ List.NoDup (map task_resource (pending (cancel_offer_task rid st1))))
      as [G3 G4].
    { unfold cancel_offer_task. destruct (offer_tasks st1 !! rid); [|done].
      unfold cancel. simpl. split; by apply NoDup_map_filter. }
    unfold register_task, create_task. simpl. rewrite Hn, Ho.
    split; [|split; [|split]]; simpl.
    - intros t [Ht|[<-|[]]]%List.in_app_iff; simpl; [|left; by rewrite lookup_insert_eq].
      apply Hsub in Ht. rewrite lookup_insert_ne by (intros E; by apply (Hfree t Ht)).
      by apply H1.
    - intros t [Ht|[<-|[]]]%List.in_app_iff; simpl; [|lia].
      apply Hsub in Ht. specialize (H2 t Ht). lia.
    - rewrite List.map_app. apply List.NoDup_app; [exact G3|repeat constructor; by intros []|].
      intros n (t & <- & Ht)%List.in_map_iff [E|[]]. simpl in E.
      apply Hsub in Ht. specialize (H2 t Ht). lia.
    - rewrite List.map_app. apply List.NoDup_app; [exact G4|repeat constructor; by intros []|].
      intros x (t & <- & Ht)%List.in_map_iff [E|[]]. simpl in E.
      apply Hsub in Ht. by apply (Hfree t Ht). }
  unfold create_task in *.
  destruct (cancels_self me rid st); cbn [state_of fst] in *; [done|].
  revert Harm. apply timers_settling_frame; by frame.
Qed.

Lemma handle_timeout_settling me now rid ts st :
  (forall t, In t (pending st) -> task_resource t <> rid) ->
  timers_settling ts st ->
  timers_settling ts (state_of (_handle_timeout me now rid st)).
Proof.
  intros Hfree Hs. unfold _handle_timeout.
  destruct (resources st !! rid) as [r|]; [|done].
  destruct (active_offer_expires_at r); [|done].
  apply process_queue_settling.
  - destruct (ordered_items rid st); by frame.
  - destruct (ordered_items rid st); revert Hs; apply timers_settling_frame; by frame.
Qed.

(** A task of the start-up ends its sleep. *)
Lemma fire_settling now t ts st :
  timers_settling (t :: ts) st ->
  timers_settling ts (state_of (fire now (task_id t) st)).
Proof.
  intros Hs. pose proof Hs as (H1 & H2 & H3 & H4). unfold fire.
  destruct (List.find _ (pending st)) as [x|] eqn:F.
  - apply List.find_some in F as [Hx Hid%Nat.eqb_eq].
    apply handle_timeout_settling.
    + intros y [Hy Hne]%cancel_In Hres. apply Hne.
      by rewrite (NoDup_map_eq task_resource _ y x H4 Hy Hx Hres).
    + split; [|split; [|split]].
      * intros y [Hy Hne]%cancel_In. destruct (H1 y Hy) as [?|[<-|?]]; [by left|done|by right].
      * intros y [Hy _]%cancel_In. by apply H2.
      * unfold cancel. simpl. by apply NoDup_map_filter.
      * unfold cancel. simpl. by apply NoDup_map_filter.
  - cbn [state_of]. split; [|done].
    intros y Hy. destruct (H1 y Hy) as [?|[<-|?]]; [by left| |by right].
    pose proof (List.find_none _ _ F t Hy) as Hn. simpl in Hn.
    by rewrite Nat.eqb_refl in Hn.
Qed.

Lemma run_tasks_settling now_fire ts ts' st :
  timers_settling (ts ++ ts') st ->
  timers_settling ts' (run_tasks now_fire ts st).
Proof.
  revert st. induction ts as [|t ts IH]; intros st Hs; [exact Hs|].
  unfold run_tasks. simpl. apply IH. by apply fire_settling.
Qed.

Lemma zero_delay_tasks_app st (l : list Task) :
  List.filter (fun t => task_delay t =? 0) (pending st ++ l)
  = zero_delay_tasks st ++ List.filter (fun t => task_delay t =? 0) l.
Proof. apply List.filter_app. Qed.

(** The loop of [restore_timers], over rows of distinct resources none of
    which has a sleeping task. *)
Lemma restore_fold_settling now_loop rows st :
  List.NoDup (map fst rows) ->
  (forall t, In t (pending st) -> ~ In (task_resource t) (map fst rows)) ->
  timers_settling (zero_delay_tasks st) st ->
  timers_settling (zero_delay_tasks (foldl (restore_one now_loop) st rows))
                  (foldl (restore_one now_loop) st rows).
Proof.
  revert st. induction rows as [|row rows IH]; intros st Hnd Hfresh Hs; [exact Hs|].
  simpl in Hnd. apply NoDup_cons_iff in Hnd as [Hrow Hnd].
  simpl foldl. apply IH; [exact Hnd| |].
  - unfold restore_one, create_task.
    destruct (0 <? _); simpl; intros t [Ht|[<-|[]]]%List.in_app_iff; simpl; try done;
      intros Hin; apply (Hfresh t Ht); by right.
  - destruct Hs as (H1 & H2 & H3 & H4). unfold restore_one.
    destruct (0 <? _) eqn:Hpos; unfold create_task, register_task, zero_delay_tasks;
      (split; [|split; [|split]]); simpl.
    + intros t [Ht|[<-|[]]]%List.in_app_iff; simpl; [|left; by rewrite lookup_insert_eq].
      rewrite lookup_insert_ne by (intros E; apply (Hfresh t Ht); by left).
      destruct (H1 t Ht) as [?|Hz]; [by left|right].
      rewrite List.filter_app. apply List.in_app_iff. by left.
    + intros t [Ht|[<-|[]]]%List.in_app_iff; simpl; [|lia].
      specialize (H2 t Ht). lia.
    + rewrite List.map_app. apply List.NoDup_app; [exact H3|repeat constructor; by intros []|].
      intros n (t & <- & Ht)%List.in_map_iff [E|[]]. simpl in E.
      specialize (H2 t Ht). lia.
    + rewrite List.map_app. apply List.NoDup_app; [exact H4|repeat constructor; by intros []|].
      intros x (t & <- & Ht)%List.in_map_iff [E|[]]. simpl in E.
      apply (Hfresh t Ht). by left.
    + intros t [Ht|[<-|[]]]%List.in_app_iff; simpl.
      * destruct (H1 t Ht) as [?|Hz]; [by left|right].
        rewrite List.filter_app. apply List.in_app_iff. by left.
      * right. rewrite List.filter_app. apply List.in_app_iff. right. by left.
    + intros t [Ht|[<-|[]]]%List.in_app_iff; simpl; [|lia].
      specialize (H2 t Ht). lia.
    + rewrite List.map_app. apply List.NoDup_app; [exact H3|repeat constructor; by intros []|].
      intros n (t & <- & Ht)%List.in_map_iff [E|[]]. simpl in E.
      specialize (H2 t Ht). lia.
    + rewrite List.map_app. apply List.NoDup_app; [exact H4|repeat constructor; by intros []|].
      intros x (t & <- & Ht)%List.in_map_iff [E|[]]. simpl in E.
      apply (Hfresh t Ht). by left.
Qed.

Lemma restored_rows_NoDup now_query st k :
  List.NoDup (map fst (firstn k (restored_rows now_query st))).
Proof.
  assert (List.NoDup (map fst (restored_rows now_query st))) as H.
  { unfold restored_rows. apply NoDup_map_filter.
    apply NoDup_ListNoDup.
    assert (map fst (map_to_list (resources st)) = (map_to_list (resources st)).*1) as ->;
      [|apply NoDup_fst_map_to_list].
    induction (map_to_list (resources st)) as [|a l IH]; [done|]. simpl. by rewrite IH. }
  rewrite <- (List.firstn_skipn k (restored_rows now_query st)), List.map_app in H.
  by apply List.NoDup_app_remove_r in H.
Qed.

Lemma fresh_process_settling st : fresh_process st -> timers_settling (zero_delay_tasks st) st.
Proof.
  intros [_ Hp]. unfold timers_settling, zero_delay_tasks. rewrite Hp. simpl.
  split; [by intros t []|]. split; [by intros t []|]. split; constructor.
Qed.

(** What the loop of the recovery has done after [k] rows. *)
Lemma restore_prefix_settling now_query now_loop st k :
  fresh_process st ->
  let st' := foldl (restore_one now_loop) st (firstn k (restored_rows now_query st)) in
  timers_settling (zero_delay_tasks st') st'.
Proof.
  intros Hf. apply restore_fold_settling.
  - apply restored_rows_NoDup.
  - destruct Hf as [_ Hp]. rewrite Hp. by intros t [].
  - by apply fresh_process_settling.
Qed.

Lemma restore_timers_settling now_query now_loop st :
  fresh_process st ->
  timers_settling (zero_delay_tasks (restore_timers now_query now_loop st))
                  (restore_timers now_query now_loop st).
Proof.
  intros Hf.
  pose proof (restore_prefix_settling now_query now_loop st
                (length (restored_rows now_query st)) Hf) as H.
  rewrite List.firstn_all in H. exact H.
Qed.

Lemma start_up_tracked now_query now_loop now_fire st :
  fresh_process st -> timers_tracked (start_up now_query now_loop now_fire st).
Proof.
  intros Hf. apply settling_tracked. unfold start_up.
  apply run_tasks_settling. rewrite List.app_nil_r. by apply restore_timers_settling.
Qed.

(** On a state all of whose sleeping tasks are registered, the advance
    step that makes an offer leaves one sleeping task for the resource,
    the one it has just created. *)
Lemma process_queue_rearms me now rid st r q :
  timers_tracked st ->
  resources st !! rid = Some r ->
  truthy (current_holder_id r) = false ->
  first_item rid st = Some q ->
  deadline_fits now (timeout_seconds r) = true ->
  pending_for rid (state_of (_process_queue me now rid st))
  = [mkTask (next_task st) rid (seconds (timeout_seconds r))]
  /\ offer_tasks (state_of (_process_queue me now rid st)) !! rid = Some (next_task st).
Proof.
  intros (H1 & _ & _) Hr Ht Hq Hin. unfold _process_queue. rewrite Hr, Ht, Hq, Hin.
  cbn [negb]. set (st1 := put_resource rid _ st).
  assert (next_task (cancel_offer_task rid st1) = next_task st) as Hn
    by (unfold cancel_offer_task; by destruct (offer_tasks st1 !! rid)).
  assert (List.filter (fun t => String.eqb (task_resource t) rid)
                      (pending (cancel_offer_task rid st1)) = []) as Hnone.
  { destruct (List.filter _ (pending (cancel_offer_task rid st1))) as [|b l] eqn:F; [done|].
    assert (In b (List.filter (fun t => String.eqb (task_resource t) rid)
                              (pending (cancel_offer_task rid st1))))
      as [[Hb Hne]%cancel_offer_task_In Hres%String.eqb_eq]%List.filter_In
      by (rewrite F; by left).
    destruct Hne. rewrite <- Hres. by apply H1. }
  unfold create_task, pending_for.
  destruct (cancels_self me rid st); cbn [state_of];
    [|match goal with |- context [broadcast_update rid ?s] =>
        destruct (broadcast_update_db rid s) as (_ & _ & _ & -> & -> & _) end];
    unfold register_task; simpl; rewrite List.filter_app, Hnone, Hn; simpl;
    rewrite String.eqb_refl, lookup_insert_eq; done.
Qed.

End StartUp.

(** C9. A process starts with no task and runs [restore_timers]; the
    tasks that the recovery created for deadlines that had just passed end
    their zero sleep before the server takes a request. At most one expiry
    timer is outstanding per resource after every row of the recovery loop,
    after each of those tasks, and after every run of operations and
    expiries that follows. In each of these later states the advance step
    that makes an offer leaves one timer for the resource, the one it has
    just created: the timers that were outstanding for the resource before
    are cancelled. *)
Theorem at_most_one_timer_reachable now_query now_loop now_fire st0 :
  fresh_process st0 ->
  let st1 := restore_timers now_query now_loop st0 in
  let st2 := start_up now_query now_loop now_fire st0 in
  (forall k, at_most_one_timer
               (foldl (restore_one now_loop) st0 (firstn k (restored_rows now_query st0))))
  /\ st1 = foldl (restore_one now_loop) st0 (restored_rows now_query st0)
  /\ (forall k, at_most_one_timer
                  (run_tasks now_fire (firstn k (zero_delay_tasks st1)) st1))
  /\ st2 = run_tasks now_fire (zero_delay_tasks st1) st1
  /\ (forall ops, at_most_one_timer (run ops st2))
  /\ (forall ops me now rid r q,
        resources (run ops st2) !! rid = Some r ->
        truthy (current_holder_id r) = false ->
        first_item rid (run ops st2) = Some q ->
        deadline_fits now (timeout_seconds r) = true ->
        let s' := state_of (_process_queue me now rid (run ops st2)) in
        pending_for rid s'
        = [mkTask (next_task (run ops st2)) rid (seconds (timeout_seconds r))]
        /\ offer_tasks s' !! rid = Some (next_task (run ops st2))
        /\ (forall t, In t (pending (run ops st2)) -> task_resource t = rid ->
                      ~ In t (pending s'))).
Proof.
  intros Hf st1 st2.
  split; [intros k; eapply settling_at_most_one;
          by apply (restore_prefix_settling now_query now_loop st0 k)|].
  split; [reflexivity|].
  split.
  { intros k. apply (settling_at_most_one (skipn k (zero_delay_tasks st1))).
    apply run_tasks_settling. rewrite List.firstn_skipn.
    by apply restore_timers_settling. }
  split; [reflexivity|].
  assert (forall ops, timers_tracked (run ops st2)) as Htr
    by (intros ops; by apply run_tracked, start_up_tracked).
  split; [intros ops; apply tracked_at_most_one, Htr|].
  intros ops me now rid r q Hr Ht Hq Hin s'.
  destruct (process_queue_rearms me now rid (run ops st2) r q (Htr ops) Hr Ht Hq Hin)
    as [Hp Ho].
  split; [exact Hp|]. split; [exact Ho|].
  intros t Hpend Hres Hin'.
  unfold s' in *. assert (In t (pending_for rid (state_of (_process_queue me now rid (run ops st2))))) as Ht'.
  { unfold pending_for. apply List.filter_In. split; [exact Hin'|].
    by apply String.eqb_eq. }
  rewrite Hp in Ht'. destruct Ht' as [<-|[]].
  destruct (Htr ops) as (_ & H2 & _). specialize (H2 _ Hpend). simpl in H2. lia.
Qed.

(** The restart of [offered_at_restart] when the deadline passes between
    the query and the loop: the task of the recovery (task 0) runs first,
    moves Ann behind Bob and arms task 1 for the offer to Bob; Bob then
    leaves, which cancels task 1 and arms task 2. *)
Lemma at_most_one_timer_reachable_witness :
  fresh_process offered_at_restart
  /\ pending restarted = [mkTask 0 "r" 0]
  /\ pending (start_up 999 (fun _ => 1000) (fun _ => 1000) offered_at_restart)
     = [mkTask 1 "r" 5000000]
  /\ pending (run [Leave 1001 "r" (Some 2)]
                  (start_up 999 (fun _ => 1000) (fun _ => 1000) offered_at_restart))
     = [mkTask 2 "r" 5000000]
  /\ at_most_one_timer
       (run [Leave 1001 "r" (Some 2)]
            (start_up 999 (fun _ => 1000) (fun _ => 1000) offered_at_restart)).
Proof.
  assert (fresh_process offered_at_restart) as Hf by done.
  split; [exact Hf|]. split; [vm_compute; reflexivity|].
  split; [vm_compute; reflexivity|]. split; [vm_compute; reflexivity|].
  destruct (at_most_one_timer_reachable 999 (fun _ => 1000) (fun _ => 1000)
              offered_at_restart Hf) as (_ & _ & _ & _ & H & _).
  exact (H [Leave 1001 "r" (Some 2)]).
Defined.

(** * Further properties of the queue manager *)

(** ** The stable sort and the edits of the queue table *)

Lemma insert_by_order_first (q : QueueItem) (l : list QueueItem) :
  (forall x, In x l -> order q <= order x) -> insert_by_order q l = q :: l.
Proof.
  destruct l as [|y l]; [done|]. intros H. simpl.
  assert ((order q <=? order y) = true) as -> by (apply Z.leb_le, H; by left). done.
Qed.

Lemma filter_insert_by_order (p : QueueItem -> bool) (q : QueueItem) (l : list QueueItem) :
  StronglySorted le_order l ->
  List.filter p (insert_by_order q l)
  = if p q then insert_by_order q (List.filter p l) else List.filter p l.
Proof.
  induction 1 as [|y l Hs IH Hy]; simpl; [by destruct (p q)|].
  rewrite List.Forall_forall in Hy.
  destruct (order q <=? order y) eqn:E; simpl.
  - apply Z.leb_le in E. destruct (p q) eqn:Hq; [|done].
    destruct (p y); simpl.
    + apply Z.leb_le in E. by rewrite E.
    + symmetry. apply insert_by_order_first.
      intros x [Hx _]%List.filter_In. specialize (Hy x Hx). unfold le_order in Hy. lia.
  - rewrite IH. destruct (p q), (p y); simpl; try done. by rewrite E.
Qed.

(** Selecting rows commutes with sorting them. *)
Lemma order_by_order_filter (p : QueueItem -> bool) (l : list QueueItem) :
  order_by_order (List.filter p l) = List.filter p (order_by_order l).
Proof.
  induction l as [|a l IH]; simpl; [done|].
  rewrite filter_insert_by_order by apply order_by_order_sorted.
  destruct (p a); simpl; by rewrite IH.
Qed.

Lemma insert_by_order_app_high (q : QueueItem) (s m : list QueueItem) :
  (forall x, In x m -> order q <= order x) ->
  insert_by_order q (s ++ m) = insert_by_order q s ++ m.
Proof.
  intros H. induction s as [|y s IH]; simpl.
  - by apply insert_by_order_first.
  - destruct (order q <=? order y); [done|]. by rewrite IH.
Qed.

Lemma insert_by_order_app_low (q : QueueItem) (s m : list QueueItem) :
  (forall x, In x s -> order x < order q) ->
  (forall x, In x m -> order q <= order x) ->
  insert_by_order q (s ++ m) = s ++ q :: m.
Proof.
  intros Hs Hm. induction s as [|y s IH]; simpl.
  - by apply insert_by_order_first.
  - assert ((order q <=? order y) = false) as ->.
    { apply Z.leb_gt, Hs. by left. }
    rewrite IH; [done|]. intros x Hx. apply Hs. by right.
Qed.

(** Sorting after some rows were given one key above all the keys: the
    other rows keep their order, the moved rows follow in table order. *)
Lemma order_by_order_moved (p : QueueItem -> bool) (k : Z) (l : list QueueItem) :
  (forall x, In x l -> order x < k) ->
  order_by_order (map (fun x => if p x then with_order k x else x) l)
  = order_by_order (List.filter (fun x => negb (p x)) l)
    ++ map (with_order k) (List.filter p l).
Proof.
  induction l as [|a l IH]; intros Hk; simpl; [done|].
  rewrite IH by (intros x Hx; apply Hk; by right).
  destruct (p a) eqn:Ha; simpl.
  - apply insert_by_order_app_low.
    + intros x [Hx _]%order_by_order_In%List.filter_In. simpl. apply Hk. by right.
    + intros x (y & <- & _)%List.in_map_iff. simpl. lia.
  - apply insert_by_order_app_high.
    intros x (y & <- & _)%List.in_map_iff. simpl.
    assert (order a < k) by (apply Hk; by left). lia.
Qed.

Lemma filter_none {A} (p : A -> bool) (l : list A) :
  (forall x, In x l -> p x = false) -> List.filter p l = [].
Proof.
  induction l as [|a l IH]; simpl; [done|]. intros H.
  rewrite (H a) by (by left). apply IH. intros x Hx. apply H. by right.
Qed.

Lemma filter_all {A} (p : A -> bool) (l : list A) :
  (forall x, In x l -> p x = true) -> List.filter p l = l.
Proof.
  induction l as [|a l IH]; simpl; [done|]. intros H.
  rewrite (H a) by (by left). f_equal. apply IH. intros x Hx. apply H. by right.
Qed.

Lemma filter_ext_in {A} (p p' : A -> bool) (l : list A) :
  (forall x, In x l -> p x = p' x) -> List.filter p l = List.filter p' l.
Proof.
  induction l as [|a l IH]; simpl; [done|]. intros H.
  rewrite (H a) by (by left). rewrite IH; [done|]. intros x Hx. apply H. by right.
Qed.

Lemma insert_by_order_perm (q : QueueItem) (l : list QueueItem) :
  Permutation (insert_by_order q l) (q :: l).
Proof.
  induction l as [|y l IH]; simpl; [done|].
  destruct (order q <=? order y); [done|].
  rewrite IH. apply perm_swap.
Qed.

Lemma order_by_order_perm (l : list QueueItem) : Permutation (order_by_order l) l.
Proof.
  induction l as [|a l IH]; simpl; [done|].
  rewrite insert_by_order_perm. by apply perm_skip.
Qed.

Lemma filter_comm {A} (p p' : A -> bool) (l : list A) :
  List.filter p (List.filter p' l) = List.filter p' (List.filter p l).
Proof.
  induction l as [|a l IH]; simpl; [done|].
  destruct (p a) eqn:E, (p' a) eqn:E'; simpl; rewrite ?E, ?E', IH; done.
Qed.

(** ** The ordered queue after a row is deleted, moved or appended *)

Lemma ordered_items_delete rid q st :
  ordered_items rid (delete_item q st)
  = List.filter (fun x => negb (item_pk x =? item_pk q)) (ordered_items rid st).
Proof.
  unfold ordered_items, items_of, delete_item. simpl.
  by rewrite filter_comm, order_by_order_filter.
Qed.

Lemma ordered_items_pk_nodup rid st :
  pk_nodup st -> List.NoDup (map item_pk (ordered_items rid st)).
Proof.
  intros H. unfold ordered_items.
  eapply Permutation_NoDup;
    [apply Permutation_map, Permutation_sym, order_by_order_perm|].
  by apply NoDup_map_filter.
Qed.

Lemma ordered_items_tail rid st q rest :
  pk_nodup st -> ordered_items rid st = q :: rest ->
  List.filter (fun x => negb (item_pk x =? item_pk q)) (ordered_items rid st) = rest.
Proof.
  intros Hnd E. pose proof (ordered_items_pk_nodup rid st Hnd) as H.
  rewrite E in *. simpl in *. rewrite Z.eqb_refl. simpl.
  apply NoDup_cons_iff in H as [Hq _].
  apply filter_all. intros x Hx. apply negb_true_iff, Z.eqb_neq.
  intros Heq. apply Hq. rewrite <- Heq. by apply List.in_map.
Qed.

Lemma items_of_update rid q k st :
  items_of rid (update_order q k st)
  = map (fun x => if item_pk x =? item_pk q then with_order k x else x) (items_of rid st).
Proof.
  unfold items_of, update_order. simpl.
  induction (queue_items st) as [|a l IH]; simpl; [done|].
  assert (resource_id (if item_pk a =? item_pk q then with_order k a else a)
          = resource_id a) as -> by by destruct (item_pk a =? item_pk q).
  destruct (String.eqb (resource_id a) rid); simpl; by rewrite IH.
Qed.

Lemma filter_pk_single (l : list QueueItem) q :
  List.NoDup (map item_pk l) -> In q l ->
  List.filter (fun x => item_pk x =? item_pk q) l = [q].
Proof.
  induction l as [|a l IH]; simpl; [done|].
  intros [Ha Hl]%NoDup_cons_iff [->|Hq].
  - rewrite Z.eqb_refl. f_equal. apply filter_none.
    intros x Hx. apply Z.eqb_neq. intros E. apply Ha. rewrite <- E. by apply List.in_map.
  - assert ((item_pk a =? item_pk q) = false) as ->.
    { apply Z.eqb_neq. intros E. apply Ha. rewrite E. by apply List.in_map. }
    by apply IH.
Qed.

Lemma ordered_items_update rid q rest k st :
  pk_nodup st ->
  ordered_items rid st = q :: rest ->
  (forall x, In x (items_of rid st) -> order x < k) ->
  ordered_items rid (update_order q k st) = rest ++ [with_order k q].
Proof.
  intros Hnd E Hk. unfold ordered_items at 1. rewrite items_of_update.
  rewrite (order_by_order_moved (fun x => item_pk x =? item_pk q) k) by exact Hk.
  rewrite order_by_order_filter.
  change (order_by_order (items_of rid st)) with (ordered_items rid st).
  rewrite (ordered_items_tail rid st q rest Hnd E).
  rewrite filter_pk_single; [done|by apply NoDup_map_filter|].
  apply order_by_order_In. fold (ordered_items rid st). rewrite E. by left.
Qed.

Lemma ordered_items_frame rid st st' :
  queue_items st' = queue_items st -> ordered_items rid st' = ordered_items rid st.
Proof. unfold ordered_items, items_of. by intros ->. Qed.

Lemma first_item_frame rid st st' :
  queue_items st' = queue_items st -> first_item rid st' = first_item rid st.
Proof. unfold first_item. by intros ->%(ordered_items_frame rid). Qed.

(** ** The advance step *)

Lemma process_queue_noop me now rid st r :
  resources st !! rid = Some r ->
  truthy (current_holder_id r) = true \/ first_item rid st = None ->
  _process_queue me now rid st = Ret st tt.
Proof.
  intros Hr H. unfold _process_queue. rewrite Hr.
  destruct (truthy (current_holder_id r)); [done|].
  destruct H as [H|H]; [done|]. by rewrite H.
Qed.

Lemma pending_for_In rid st t :
  In t (pending_for rid st) <-> In t (pending st) /\ task_resource t = rid.
Proof.
  unfold pending_for. rewrite List.filter_In.
  destruct (String.eqb_spec (task_resource t) rid); intuition congruence.
Qed.

Lemma pending_for_cancelled rid st :
  registered rid st -> pending_for rid (cancel_offer_task rid st) = [].
Proof.
  intros Hreg. unfold pending_for. apply filter_none.
  intros t [Ht Hne]%cancel_offer_task_In.
  destruct (String.eqb_spec (task_resource t) rid) as [E|E]; [|done].
  destruct Hne. by apply Hreg.
Qed.

Lemma process_queue_overflow me now rid st r q :
  resources st !! rid = Some r ->
  truthy (current_holder_id r) = false ->
  first_item rid st = Some q ->
  deadline_fits now (timeout_seconds r) = false ->
  _process_queue me now rid st = Raise st OverflowError.
Proof. intros Hr Ht Hq Hin. unfold _process_queue. by rewrite Hr, Ht, Hq, Hin. Qed.

Lemma state_of_self_cancel (c : bool) (st : State) :
  state_of (if c then Raise st CancelledError else Ret st tt) = st.
Proof. by destruct c. Qed.

Lemma raises_self_cancel (c : bool) (st : State) :
  raises (if c then Raise st CancelledError else Ret st tt) = c.
Proof. by destruct c. Qed.

Lemma process_queue_offer me now rid st r q :
  resources st !! rid = Some r ->
  truthy (current_holder_id r) = false ->
  first_item rid st = Some q ->
  deadline_fits now (timeout_seconds r) = true ->
  exists st',
    _process_queue me now rid st
    = (if cancels_self me rid st then Raise st' CancelledError else Ret st' tt)
    /\ resources st'
       = <[rid := with_expiry (Some (now + seconds (timeout_seconds r))) r]> (resources st)
    /\ users st' = users st
    /\ queue_items st' = queue_items st
    /\ offer_tasks st' = <[rid := next_task st]> (offer_tasks st)
    /\ pending st'
       = pending (cancel_offer_task rid st)
         ++ [mkTask (next_task st) rid (seconds (timeout_seconds r))]
    /\ next_task st' = S (next_task st)
    /\ emitted st' = (if cancels_self me rid st then emitted st else emitted st ++ [rid]).
Proof.
  intros Hr Ht Hq Hin. unfold _process_queue. rewrite Hr, Ht, Hq, Hin. cbn [negb].
  unfold create_task.
  destruct (cancel_offer_task_db rid
              (put_resource rid (with_expiry (Some (now + seconds (timeout_seconds r))) r) st))
    as (Hdb1 & Hdb2 & Hdb3 & Hdb4 & Hdb5).
  assert (pending (cancel_offer_task rid
            (put_resource rid (with_expiry (Some (now + seconds (timeout_seconds r))) r) st))
          = pending (cancel_offer_task rid st)) as Hp
    by (unfold cancel_offer_task; simpl; by destruct (offer_tasks st !! rid)).
  destruct (cancels_self me rid st); eexists; (split; [reflexivity|]).
  - unfold register_task. simpl.
    rewrite cancel_offer_task_resources, cancel_offer_task_queue_items,
      cancel_offer_task_offer_tasks, cancel_offer_task_next_task, Hdb2, Hdb5, Hp.
    done.
  - unfold broadcast_update, register_task. simpl.
    rewrite cancel_offer_task_resources. simpl. rewrite lookup_insert_eq. simpl.
    rewrite cancel_offer_task_resources, cancel_offer_task_queue_items,
      cancel_offer_task_offer_tasks, cancel_offer_task_next_task, Hdb2, Hdb5, Hp.
    done.
Qed.

(** The advance step on an existing resource, run by a request ([me] is
    [None]) or in a task. With a holder, or with an empty queue, it
    changes nothing. On a free resource with a head it computes the
    deadline, the clock plus the timeout of the resource: outside the
    range of [datetime] it raises [OverflowError] and has changed nothing;
    inside, it sets the deadline, keeps holder and rows, and leaves one new
    task registered for the resource, the only one pending for it when the
    tasks pending before were registered. It then emits one snapshot and
    returns, unless it runs in the task that was registered for the
    resource: that task has cancelled itself, sends nothing and ends with
    [CancelledError]. *)
Theorem process_queue_spec me now rid st r :
  resources st !! rid = Some r ->
  (truthy (current_holder_id r) = true \/ first_item rid st = None ->
   _process_queue me now rid st = Ret st tt)
  /\ (truthy (current_holder_id r) = false -> first_item rid st <> None ->
      deadline_fits now (timeout_seconds r) = false ->
      _process_queue me now rid st = Raise st OverflowError)
  /\ (truthy (current_holder_id r) = false -> first_item rid st <> None ->
      deadline_fits now (timeout_seconds r) = true ->
      exists st' r',
        _process_queue me now rid st
        = (if cancels_self me rid st then Raise st' CancelledError else Ret st' tt)
        /\ resources st' !! rid = Some r'
        /\ current_holder_id r' = current_holder_id r
        /\ active_offer_expires_at r' = Some (now + seconds (timeout_seconds r))
        /\ (forall rid', rid' <> rid -> resources st' !! rid' = resources st !! rid')
        /\ queue_items st' = queue_items st
        /\ emitted st' = (if cancels_self me rid st then emitted st else emitted st ++ [rid])
        /\ offer_tasks st' !! rid = Some (next_task st)
        /\ In (mkTask (next_task st) rid (seconds (timeout_seconds r))) (pending st')
        /\ (registered rid st ->
            pending_for rid st' = [mkTask (next_task st) rid (seconds (timeout_seconds r))]))
  /\ (cancels_self me rid st = true
      <-> exists t, me = Some t /\ offer_tasks st !! rid = Some t).
Proof.
  intros Hr. split; [by apply process_queue_noop|]. split; [|split].
  { intros Ht Hq Hin. destruct (first_item rid st) as [q|] eqn:E; [|done].
    by apply (process_queue_overflow me now rid st r q). }
  { intros Ht Hq Hin. destruct (first_item rid st) as [q|] eqn:E; [|done].
    destruct (process_queue_offer me now rid st r q Hr Ht E Hin)
      as (st' & Hrun & Hres & _ & Hrows & Hot & Hpend & _ & Hem).
    exists st', (with_expiry (Some (now + seconds (timeout_seconds r))) r).
    split; [exact Hrun|]. rewrite Hres, Hot, Hpend.
    split; [by rewrite lookup_insert_eq|]. repeat (split; [done|]).
    split; [intros rid' Hne; by rewrite lookup_insert_ne|].
    repeat (split; [done|]).
    split; [by rewrite lookup_insert_eq|].
    split; [apply List.in_app_iff; right; by left|].
    intros Hreg. unfold pending_for. rewrite Hpend, List.filter_app.
    fold (pending_for rid (cancel_offer_task rid st)).
    rewrite (pending_for_cancelled rid st Hreg). simpl. by rewrite String.eqb_refl. }
  unfold cancels_self. destruct me as [t|]; [|split; [done|by intros (t & ? & _)]].
  destruct (offer_tasks st !! rid) as [t'|]; [|split; [done|by intros (? & _ & ?)]].
  split.
  - intros ->%Nat.eqb_eq. by exists t'.
  - intros (x & [= ->] & [= ->]). apply Nat.eqb_refl.
Qed.

Lemma one_resource_free :
  resources one_resource !! "r" = Some (new_resource "R" 5).
Proof. vm_compute. reflexivity. Qed.

(** Ann is queued on the idle "r" (a row put there by hand): the advance
    step of a request offers her the resource for five seconds. *)
Lemma process_queue_spec_witness :
  let st := set_queue_items [ann_row] one_resource in
  resources st !! "r" = Some (new_resource "R" 5)
  /\ exists st' r',
       _process_queue None 100 "r" st = Ret st' tt
       /\ resources st' !! "r" = Some r'
       /\ active_offer_expires_at r' = Some 5000100
       /\ emitted st' = emitted st ++ ["r"]
       /\ pending_for "r" st' = [mkTask 0 "r" 5000000].
Proof.
  intros st. pose proof one_resource_free as Hr.
  split; [exact Hr|].
  destruct (process_queue_spec None 100 "r" st (new_resource "R" 5) Hr) as (_ & _ & H & _).
  destruct (H eq_refl) as (st' & r' & E & Hr' & _ & Hd & _ & _ & Hem & _ & _ & Hp).
  { vm_compute. congruence. }
  { vm_compute. reflexivity. }
  exists st', r'. split; [exact E|]. split; [exact Hr'|]. split; [exact Hd|].
  split; [exact Hem|]. apply Hp. intros t [].
Defined.

(** What the advance step leaves behind on a free resource, with or
    without a head. *)
Lemma advance_result me now rid st r :
  resources st !! rid = Some r ->
  truthy (current_holder_id r) = false ->
  queue_items (state_of (_process_queue me now rid st)) = queue_items st
  /\ (exists r',
        resources (state_of (_process_queue me now rid st)) !! rid = Some r'
        /\ current_holder_id r' = current_holder_id r
        /\ active_offer_expires_at r'
           = match first_item rid st with
             | Some _ =>
                 if deadline_fits now (timeout_seconds r)
                 then Some (now + seconds (timeout_seconds r))
                 else active_offer_expires_at r
             | None => active_offer_expires_at r
             end)
  /\ raises (_process_queue me now rid st)
     = match first_item rid st with
       | Some _ =>
           if deadline_fits now (timeout_seconds r)
           then cancels_self me rid st else true
       | None => false
       end.
Proof.
  intros Hr Ht. split; [apply process_queue_queue_items|].
  destruct (first_item rid st) as [q|] eqn:Hq.
  - destruct (deadline_fits now (timeout_seconds r)) eqn:Hin.
    + destruct (process_queue_offer me now rid st r q Hr Ht Hq Hin) as (st' & E & Hres & _).
      rewrite E, state_of_self_cancel, raises_self_cancel. split; [|done].
      rewrite Hres, lookup_insert_eq. by eexists.
    + rewrite (process_queue_overflow me now rid st r q Hr Ht Hq Hin). simpl.
      split; [by exists r|done].
  - rewrite (process_queue_noop me now rid st r Hr) by by right. simpl.
    split; [by exists r|done].
Qed.

Lemma raises_bind_ret {A B} (m : result A) (v : B) :
  raises (bind m (fun s _ => Ret s v)) = raises m.
Proof. by destruct m. Qed.

Lemma value_of_bind_ret {A B} (m : result A) (v : B) :
  raises m = false -> value_of (bind m (fun s _ => Ret s v)) = Some v.
Proof. by destruct m. Qed.

(** ** Release *)

(** [release_resource] returns [False] and changes nothing unless the
    resource exists and its holder equals the caller (a resource without
    holder and a caller without identifier are equal). In that case the
    holder is cleared and the advance step runs. With an empty queue the
    deadline is left as it was and the result is [True]. With a head in
    the queue the resource is offered until the clock plus its timeout and
    the result is [True], when that deadline is a [datetime]; when it is
    not, the call raises [OverflowError] with the holder cleared and the
    deadline as it was. *)
Theorem release_resource_spec now rid uid st :
  ((forall r, resources st !! rid = Some r -> current_holder_id r <> uid) ->
   release_resource now rid uid st = Ret st false)
  /\ (value_of (release_resource now rid uid st) = Some true ->
      exists r, resources st !! rid = Some r /\ current_holder_id r = uid)
  /\ (forall r, resources st !! rid = Some r -> current_holder_id r = uid ->
      queue_items (state_of (release_resource now rid uid st)) = queue_items st
      /\ (exists r',
            resources (state_of (release_resource now rid uid st)) !! rid = Some r'
            /\ current_holder_id r' = None
            /\ active_offer_expires_at r'
               = match first_item rid st with
                 | Some _ =>
                     if deadline_fits now (timeout_seconds r)
                     then Some (now + seconds (timeout_seconds r))
                     else active_offer_expires_at r
                 | None => active_offer_expires_at r
                 end)
      /\ (first_item rid st = None
          \/ deadline_fits now (timeout_seconds r) = true ->
          value_of (release_resource now rid uid st) = Some true)
      /\ (first_item rid st <> None ->
          deadline_fits now (timeout_seconds r) = false ->
          exists st', release_resource now rid uid st = Raise st' OverflowError)).
Proof.
  unfold release_resource.
  destruct (resources st !! rid) as [r|] eqn:Hr.
  2:{ split; [done|]. split; [done|]. by intros r [=]. }
  destruct (opt_neqb (current_holder_id r) uid) eqn:Hu.
  { assert (current_holder_id r <> uid) as Hne.
    { intros E. apply opt_neqb_false in E. congruence. }
    split; [done|]. split; [done|]. by intros r' [= <-] E. }
  apply opt_neqb_false in Hu.
  set (st2 := broadcast_update rid (put_resource rid (with_holder None r) st)).
  assert (resources st2 !! rid = Some (with_holder None r)) as Hr2.
  { unfold st2. frame. simpl. by rewrite lookup_insert_eq. }
  assert (first_item rid st2 = first_item rid st) as Hfirst
    by (apply first_item_frame; unfold st2; by frame).
  destruct (advance_result None now rid st2 (with_holder None r) Hr2 eq_refl)
    as (Hrows & (r' & Hr' & Hh & Hd) & Hraise).
  rewrite Hfirst in Hd, Hraise. simpl timeout_seconds in Hd, Hraise.
  rewrite state_of_bind_ret.
  split; [intros Hne; by destruct (Hne r eq_refl)|].
  split; [intros _; by exists r|].
  intros r0 [= <-] _. split; [rewrite Hrows; unfold st2; by frame|].
  split; [exists r'; split; [exact Hr'|]; split; [exact Hh|exact Hd]|].
  split.
  - intros Hok. apply value_of_bind_ret. rewrite Hraise.
    destruct (first_item rid st); [|done]. destruct Hok as [?|Hok]; [done|].
    by rewrite Hok.
  - intros Hq Hin. destruct (first_item rid st2) as [q|] eqn:Hq2;
      [|by rewrite Hfirst in Hq2].
    rewrite (process_queue_overflow None now rid st2 (with_holder None r) q Hr2 eq_refl Hq2)
      by exact Hin.
    by eexists.
Qed.

(** Ann holds "r" and Bob waits. A release by Bob is refused; a release
    by Ann frees the resource and offers it to Bob for five seconds. *)
Lemma release_resource_spec_witness :
  let st := step ann_bob_on_r (Accept "r" (Some 1)) in
  release_resource 7000000 "r" (Some 2) st = Ret st false
  /\ value_of (release_resource 7000000 "r" (Some 1) st) = Some true
  /\ exists r',
       resources (state_of (release_resource 7000000 "r" (Some 1) st)) !! "r" = Some r'
       /\ current_holder_id r' = None
       /\ active_offer_expires_at r' = Some 12000000.
Proof.
  intros st.
  assert (resources st !! "r" = Some (with_expiry None (with_holder (Some 1) r_offered)))
    as Hr by (vm_compute; reflexivity).
  destruct (release_resource_spec 7000000 "r" (Some 2) st) as (Hno & _).
  destruct (release_resource_spec 7000000 "r" (Some 1) st) as (_ & _ & Hyes).
  split; [|split].
  - apply Hno. intros r Hr'. rewrite Hr in Hr'. by injection Hr' as <-.
  - destruct (Hyes _ Hr eq_refl) as (_ & _ & Hv & _). apply Hv. by right.
  - destruct (Hyes _ Hr eq_refl) as (_ & (r' & Hr' & Hh & Hd) & _). by exists r'.
Defined.

(** ** The order of the queue through accept, reject and timeout *)

Lemma first_item_cons rid st q rest :
  ordered_items rid st = q :: rest -> first_item rid st = Some q.
Proof. unfold first_item. by intros ->. Qed.

(** After a successful accept the queue is the queue before without its
    head: the claimants behind keep their order, and none of them is
    offered the resource. The resource row has the accepting claimant as
    holder, no deadline, and its other columns as before; the rows of the
    other resources are as before. *)
Theorem accept_offer_pops_head rid st r d q rest :
  pk_nodup st ->
  resources st !! rid = Some r ->
  active_offer_expires_at r = Some d ->
  ordered_items rid st = q :: rest ->
  accept_offer rid (Some (user_id q)) st
  = Ret (state_of (accept_offer rid (Some (user_id q)) st)) true
  /\ ordered_items rid (state_of (accept_offer rid (Some (user_id q)) st)) = rest
  /\ resources (state_of (accept_offer rid (Some (user_id q)) st)) !! rid
     = Some (with_expiry None (with_holder (Some (user_id q)) r))
  /\ (exists r',
        resources (state_of (accept_offer rid (Some (user_id q)) st)) !! rid = Some r'
        /\ current_holder_id r' = Some (user_id q)
        /\ active_offer_expires_at r' = None
        /\ timeout_seconds r' = timeout_seconds r
        /\ name r' = name r
        /\ description r' = description r
        /\ admin_secret r' = admin_secret r)
  /\ (forall rid', rid' <> rid ->
        resources (state_of (accept_offer rid (Some (user_id q)) st)) !! rid'
        = resources st !! rid').
Proof.
  intros Hnd Hr Hd Hq. unfold accept_offer.
  rewrite (first_item_cons _ _ _ _ Hq), Hr, Hd.
  assert (opt_neqb (Some (user_id q)) (Some (user_id q)) = false) as ->
    by by apply opt_neqb_false.
  simpl negb. cbv iota. cbn [state_of]. split; [done|]. split; [|split; [|split]].
  - rewrite (ordered_items_frame rid (delete_item q st)) by by frame.
    rewrite ordered_items_delete. by apply ordered_items_tail.
  - frame. simpl. by rewrite lookup_insert_eq.
  - exists (mkResource (name r) (description r) (timeout_seconds r) (admin_secret r)
                       (Some (user_id q)) None).
    split; [|done]. frame. simpl. by rewrite lookup_insert_eq.
  - intros rid' Hne. frame. simpl. by rewrite lookup_insert_ne.
Qed.

Lemma ann_bob_ordered : ordered_items "r" ann_bob_on_r = [ann_row; bob_row].
Proof. vm_compute. reflexivity. Qed.

Lemma ann_bob_pk_nodup : pk_nodup ann_bob_on_r.
Proof.
  unfold pk_nodup. rewrite ann_bob_rows. simpl.
  repeat constructor; simpl; intuition congruence.
Qed.

Lemma accept_offer_pops_head_witness :
  ordered_items "r" (state_of (accept_offer "r" (Some 1) ann_bob_on_r)) = [bob_row]
  /\ exists r',
       resources (state_of (accept_offer "r" (Some 1) ann_bob_on_r)) !! "r" = Some r'
       /\ current_holder_id r' = Some 1
       /\ active_offer_expires_at r' = None.
Proof.
  destruct (accept_offer_pops_head "r" ann_bob_on_r r_offered 5000000 ann_row [bob_row]
              ann_bob_pk_nodup ann_bob_resource eq_refl ann_bob_ordered)
    as (_ & H & _ & (r' & Hr' & Hh & Hd & _) & _).
  split; [exact H|]. by exists r'.
Defined.


Lemma ann_bob_free : current_holder_id r_offered = None.
Proof. reflexivity. Qed.




(** ** Leave *)

Lemma item_of_found rid q st :
  one_row_per_user st -> In q (queue_items st) -> resource_id q = rid ->
  item_of rid (Some (user_id q)) st = Some q.
Proof.
  intros Hone Hq Hr. unfold item_of.
  destruct (List.find _ (queue_items st)) as [q'|] eqn:E.
  - apply List.find_some in E as [Hq' [_ Hu%Z.eqb_eq]%andb_true_iff].
    f_equal. by apply (NoDup_map_eq user_id (queue_items st)).
  - apply (List.find_none _ _ E) in Hq. simpl in Hq.
    rewrite <- Hr, String.eqb_refl, Z.eqb_refl in Hq. done.
Qed.

Lemma advance_pending me now rid st r :
  registered rid st ->
  resources st !! rid = Some r ->
  truthy (current_holder_id r) = false ->
  pending_for rid (state_of (_process_queue me now rid st))
  = match first_item rid st with
    | Some _ =>
        if deadline_fits now (timeout_seconds r)
        then [mkTask (next_task st) rid (seconds (timeout_seconds r))]
        else pending_for rid st
    | None => pending_for rid st
    end.
Proof.
  intros Hreg Hr Ht. destruct (first_item rid st) as [q|] eqn:Hq.
  - destruct (deadline_fits now (timeout_seconds r)) eqn:Hin.
    + destruct (process_queue_offer me now rid st r q Hr Ht Hq Hin)
        as (st' & E & _ & _ & _ & _ & Hp & _).
      rewrite E, state_of_self_cancel. unfold pending_for. rewrite Hp, List.filter_app.
      fold (pending_for rid (cancel_offer_task rid st)).
      rewrite (pending_for_cancelled rid st Hreg). simpl. by rewrite String.eqb_refl.
    + by rewrite (process_queue_overflow me now rid st r q Hr Ht Hq Hin).
  - by rewrite (process_queue_noop me now rid st r Hr) by by right.
Qed.

(** A leave by a queued claimant that is not the one being offered the
    resource (no offer is active, or the claimant is not at the head)
    returns [True] and only deletes its row: resource rows and tasks are
    untouched, the other claimants keep their order and the head stays,
    and one snapshot is emitted. *)
Theorem leave_queue_waiting now rid st r q :
  pk_nodup st ->
  one_row_per_user st ->
  resources st !! rid = Some r ->
  In q (queue_items st) ->
  resource_id q = rid ->
  (active_offer_expires_at r = None
   \/ exists h, first_item rid st = Some h /\ order q <> order h) ->
  exists st',
    leave_queue now rid (Some (user_id q)) st = Ret st' true
    /\ resources st' = resources st
    /\ offer_tasks st' = offer_tasks st
    /\ pending st' = pending st
    /\ (forall x, In x (queue_items st') <-> In x (queue_items st) /\ item_pk x <> item_pk q)
    /\ ordered_items rid st'
       = List.filter (fun x => negb (item_pk x =? item_pk q)) (ordered_items rid st)
    /\ (forall h, first_item rid st = Some h -> order q <> order h ->
                  first_item rid st' = Some h)
    /\ emitted st' = emitted st ++ [rid].
Proof.
  intros Hnd Hone Hr Hq Hres Hwait. unfold leave_queue.
  rewrite (item_of_found rid q st Hone Hq Hres), Hr.
  assert (is_set (active_offer_expires_at r)
          && bool_decide (Some (order q) = order <$> first_item rid st) = false) as ->.
  { destruct Hwait as [->|(h & -> & Hne)]; [done|].
    apply andb_false_iff. right. apply bool_decide_eq_false. simpl. congruence. }
  eexists. split; [reflexivity|].
  assert (ordered_items rid (broadcast_update rid (delete_item q st))
          = List.filter (fun x => negb (item_pk x =? item_pk q)) (ordered_items rid st))
    as Hord.
  { rewrite (ordered_items_frame rid (delete_item q st)) by by frame.
    apply ordered_items_delete. }
  frame. repeat (split; [done|]).
  split; [intros x; apply delete_item_In|]. split; [exact Hord|]. split.
  - intros h Hh Hne. unfold first_item in *. rewrite Hord.
    destruct (ordered_items rid st) as [|h' rest] eqn:E; [done|].
    simpl in Hh. injection Hh as ->. simpl.
    assert ((item_pk h =? item_pk q) = false) as ->; [|done].
    apply Z.eqb_neq. intros Epk.
    assert (In h (queue_items st)) as Hhin.
    { apply (ordered_items_In rid). rewrite E. by left. }
    apply Hne. by rewrite (NoDup_map_eq item_pk _ h q Hnd Hhin Hq Epk).
  - unfold broadcast_update. simpl. by rewrite Hr.
Qed.

Lemma ann_bob_one_row : one_row_per_user ann_bob_on_r.
Proof.
  unfold one_row_per_user. rewrite ann_bob_rows. simpl.
  repeat constructor; simpl; intuition congruence.
Qed.

(** Bob, behind Ann who is offered "r", leaves: Ann stays offered. *)
Lemma leave_queue_waiting_witness :
  exists st',
    leave_queue 9 "r" (Some 2) ann_bob_on_r = Ret st' true
    /\ resources st' = resources ann_bob_on_r
    /\ pending st' = pending ann_bob_on_r
    /\ first_item "r" st' = Some ann_row.
Proof.
  assert (In bob_row (queue_items ann_bob_on_r)) as Hq
    by (rewrite ann_bob_rows; right; by left).
  assert (active_offer_expires_at r_offered = None
          \/ exists h, first_item "r" ann_bob_on_r = Some h /\ order bob_row <> order h)
    as Hwait by (right; exists ann_row; split; [apply ann_bob_first|done]).
  destruct (leave_queue_waiting 9 "r" ann_bob_on_r r_offered bob_row
              ann_bob_pk_nodup ann_bob_one_row ann_bob_resource Hq eq_refl Hwait)
    as (st' & E & Hres & _ & Hp & _ & _ & Hhead & _).
  exists st'. split; [exact E|]. split; [exact Hres|]. split; [exact Hp|].
  by apply Hhead; [apply ann_bob_first|].
Defined.


Lemma boot_registered rid rs : registered rid (boot rs).
Proof. by intros t []. Qed.

Lemma ann_bob_registered : registered "r" ann_bob_on_r.
Proof.
  intros t Ht _.
  assert (pending ann_bob_on_r = [mkTask 0 "r" 5000000]) as E by (vm_compute; reflexivity).
  rewrite E in Ht. destruct Ht as [<-|[]]. vm_compute. reflexivity.
Qed.


(** ** Join *)

Lemma ordered_items_snoc rid st st' item :
  queue_items st' = queue_items st ++ [item] ->
  resource_id item = rid ->
  (forall x, In x (items_of rid st) -> order x <= order item) ->
  ordered_items rid st' = ordered_items rid st ++ [item].
Proof.
  intros Hrows Hres Hle. unfold ordered_items, items_of. rewrite Hrows, List.filter_app.
  simpl. rewrite <- Hres, String.eqb_refl, Hres.
  by apply order_by_order_snoc.
Qed.

Lemma ordered_items_snoc_other rid st st' item :
  queue_items st' = queue_items st ++ [item] ->
  resource_id item <> rid ->
  ordered_items rid st' = ordered_items rid st.
Proof.
  intros Hrows Hres. unfold ordered_items, items_of. rewrite Hrows, List.filter_app.
  simpl. apply String.eqb_neq in Hres. rewrite Hres. by rewrite List.app_nil_r.
Qed.

Lemma join_queue_ordered now rid dname mail uid st :
  (forall q, In q (queue_items st) ->
             user_id q <> user_pk (fst (resolve_user rid dname mail uid st))) ->
  exists item,
    ordered_items rid (state_of (join_queue now rid dname mail uid st))
    = ordered_items rid st ++ [item]
    /\ resource_id item = rid
    /\ user_id item = user_pk (fst (resolve_user rid dname mail uid st))
    /\ (forall rid', rid' <> rid ->
          ordered_items rid' (state_of (join_queue now rid dname mail uid st))
          = ordered_items rid' st).
Proof.
  intros Hnew. pose proof (join_queue_rows now rid dname mail uid st Hnew) as Hrows.
  eexists. split; [|split; [|split]].
  - eapply ordered_items_snoc; [exact Hrows|done|].
    intros x Hx%new_order_above. simpl. lia.
  - done.
  - done.
  - intros rid' Hne. eapply ordered_items_snoc_other; [exact Hrows|]. simpl. congruence.
Qed.

(** A join by a claimant without a queue row always goes to the tail of
    the queue of the resource, whatever the state of the resource (idle,
    offered, held, or not even existing), and leaves the queues of the
    other resources as they were. *)
Theorem join_queue_appends_last now rid dname mail uid st :
  (forall q, In q (queue_items st) ->
             user_id q <> user_pk (fst (resolve_user rid dname mail uid st))) ->
  exists item,
    ordered_items rid (state_of (join_queue now rid dname mail uid st))
    = ordered_items rid st ++ [item]
    /\ resource_id item = rid
    /\ user_id item = user_pk (fst (resolve_user rid dname mail uid st))
    /\ (forall rid', rid' <> rid ->
          ordered_items rid' (state_of (join_queue now rid dname mail uid st))
          = ordered_items rid' st).
Proof. apply join_queue_ordered. Qed.

(** Carl joins "r" behind Ann and Bob. *)
Lemma join_queue_appends_last_witness :
  exists item,
    ordered_items "r" (state_of (join_queue 2 "r" "Carl" None None ann_bob_on_r))
    = [ann_row; bob_row; item]
    /\ user_id item = 3.
Proof.
  assert (forall q, In q (queue_items ann_bob_on_r) ->
            user_id q <> user_pk (fst (resolve_user "r" "Carl" None None ann_bob_on_r)))
    as Hnew.
  { intros q Hq. rewrite ann_bob_rows in Hq.
    destruct Hq as [<-|[<-|[]]]; vm_compute; congruence. }
  destruct (join_queue_appends_last 2 "r" "Carl" None None ann_bob_on_r Hnew)
    as (item & Hord & _ & Hu & _).
  exists item. rewrite ann_bob_ordered in Hord. by split.
Defined.

(** A join, by a claimant without a queue row, on a resource that has
    neither holder nor deadline makes an offer at once. When the clock
    plus the timeout of the resource is a [datetime], the call returns
    the identifier of the claimant, the resource is offered until then to
    the head of the queue, which is the joiner when the queue was empty,
    and the timer of that offer is the only one pending for the
    resource. *)
Theorem join_queue_idle_offers now rid dname mail uid st r :
  registered rid st ->
  resources st !! rid = Some r ->
  current_holder_id r = None ->
  active_offer_expires_at r = None ->
  deadline_fits now (timeout_seconds r) = true ->
  (forall q, In q (queue_items st) ->
             user_id q <> user_pk (fst (resolve_user rid dname mail uid st))) ->
  exists st' r' h,
    join_queue now rid dname mail uid st
    = Ret st' (user_pk (fst (resolve_user rid dname mail uid st)))
    /\ resources st' !! rid = Some r'
    /\ current_holder_id r' = None
    /\ active_offer_expires_at r' = Some (now + seconds (timeout_seconds r))
    /\ first_item rid st' = Some h
    /\ (first_item rid st = None ->
        user_id h = user_pk (fst (resolve_user rid dname mail uid st)))
    /\ (forall h0, first_item rid st = Some h0 -> h = h0)
    /\ pending_for rid st' = [mkTask (next_task st) rid (seconds (timeout_seconds r))].
Proof.
  intros Hreg Hr Hh Hd Hrange Hnew.
  destruct (join_queue_ordered now rid dname mail uid st Hnew)
    as (item & Hord & _ & Hitem & _).
  revert Hord. unfold join_queue.
  destruct (resolve_user rid dname mail uid st) as [user users1].
  simpl in Hnew, Hitem |- *. apply item_of_user_None in Hnew. rewrite Hnew.
  cbn [resources set_queue_items set_users]. rewrite Hr, Hd. simpl is_set. cbv iota.
  set (st2 := broadcast_update rid _).
  assert (resources st2 !! rid = Some r) as Hr2 by (unfold st2; by frame).
  assert (truthy (current_holder_id r) = false) as Ht by by rewrite Hh.
  assert (registered rid st2) as Hreg2.
  { intros t Ht2 Hres. unfold st2 in *. revert Ht2. frame. simpl.
    intros Hin. by apply Hreg. }
  assert (next_task st2 = next_task st) as Hn2 by (unfold st2; by frame).
  destruct (advance_result None now rid st2 r Hr2 Ht)
    as (Hrows & (r' & Hr' & Hh' & Hd') & Hraise).
  pose proof (advance_pending None now rid st2 r Hreg2 Hr2 Ht) as Hp.
  rewrite Hrange in Hd', Hp, Hraise.
  rewrite state_of_bind_ret. intros Hord.
  rewrite (ordered_items_frame rid st2 _ Hrows) in Hord.
  unfold first_item in Hd', Hp. rewrite Hord in Hd', Hp.
  destruct (_process_queue None now rid st2) as [st3 []|] eqn:E;
    [|by destruct (first_item rid st2)].
  simpl in *. exists st3, r', (hd item (ordered_items rid st)).
  split; [done|]. split; [exact Hr'|]. split; [by rewrite Hh'|].
  split; [rewrite Hd'; by destruct (ordered_items rid st)|].
  split; [unfold first_item; rewrite (ordered_items_frame rid st2 _ Hrows), Hord;
          by destruct (ordered_items rid st)|].
  unfold first_item. split; [|split].
  - by destruct (ordered_items rid st).
  - intros h0. destruct (ordered_items rid st); [done|]. simpl. congruence.
  - rewrite Hp, Hn2. by destruct (ordered_items rid st).
Qed.

(** Ann is the first to join the idle "r": she is offered it. *)
Lemma join_queue_idle_offers_witness :
  exists st' r' h,
    join_queue 0 "r" "Ann" None None one_resource = Ret st' 1
    /\ resources st' !! "r" = Some r'
    /\ active_offer_expires_at r' = Some 5000000
    /\ first_item "r" st' = Some h
    /\ user_id h = 1
    /\ pending_for "r" st' = [mkTask 0 "r" 5000000].
Proof.
  assert (forall q, In q (queue_items one_resource) ->
            user_id q <> user_pk (fst (resolve_user "r" "Ann" None None one_resource)))
    as Hnew by (intros q []).
  destruct (join_queue_idle_offers 0 "r" "Ann" None None one_resource
              (new_resource "R" 5) (boot_registered "r" _) one_resource_free
              eq_refl eq_refl eq_refl Hnew)
    as (st' & r' & h & E & Hr' & _ & Hd & Hfirst & Hjoiner & _ & Hp).
  exists st', r', h. split; [exact E|]. split; [exact Hr'|]. split; [exact Hd|].
  split; [exact Hfirst|]. split; [by apply Hjoiner|exact Hp].
Defined.

(** A join, by a claimant without a queue row, on a held resource only
    queues the claimant: the resource row and the tasks are unchanged, no
    offer is made, and one snapshot is emitted. *)
Theorem join_queue_while_held now rid dname mail uid st r h :
  resources st !! rid = Some r ->
  current_holder_id r = Some h ->
  h <> 0 ->
  active_offer_expires_at r = None ->
  (forall q, In q (queue_items st) ->
             user_id q <> user_pk (fst (resolve_user rid dname mail uid st))) ->
  exists st' item,
    join_queue now rid dname mail uid st
    = Ret st' (user_pk (fst (resolve_user rid dname mail uid st)))
    /\ resources st' = resources st
    /\ offer_tasks st' = offer_tasks st
    /\ pending st' = pending st
    /\ queue_items st' = queue_items st ++ [item]
    /\ user_id item = user_pk (fst (resolve_user rid dname mail uid st))
    /\ emitted st' = emitted st ++ [rid].
Proof.
  intros Hr Hh Hnz Hd Hnew. unfold join_queue.
  destruct (resolve_user rid dname mail uid st) as [user users1].
  simpl in Hnew |- *. apply item_of_user_None in Hnew. rewrite Hnew.
  cbn [resources set_queue_items set_users]. rewrite Hr, Hd. simpl is_set. cbv iota.
  set (st2 := broadcast_update rid _).
  assert (resources st2 !! rid = Some r) as Hr2 by (unfold st2; by frame).
  assert (truthy (current_holder_id r) = true) as Ht.
  { rewrite Hh. simpl. apply negb_true_iff, Z.eqb_neq. done. }
  rewrite (process_queue_noop None now rid st2 r Hr2) by by left.
  simpl. eexists st2, _. split; [reflexivity|]. unfold st2. frame. simpl.
  repeat (split; [done|]). unfold broadcast_update. simpl. by rewrite Hr.
Qed.

(** Ann holds "r"; Carl joins and waits behind Bob, without an offer. *)
Lemma join_queue_while_held_witness :
  let st := step ann_bob_on_r (Accept "r" (Some 1)) in
  exists st' item,
    join_queue 9 "r" "Carl" None None st = Ret st' 3
    /\ resources st' = resources st
    /\ pending st' = pending st
    /\ queue_items st' = queue_items st ++ [item].
Proof.
  intros st.
  assert (resources st !! "r" = Some (with_expiry None (with_holder (Some 1) r_offered)))
    as Hr by (vm_compute; reflexivity).
  assert (forall q, In q (queue_items st) ->
            user_id q <> user_pk (fst (resolve_user "r" "Carl" None None st)))
    as Hnew.
  { intros q Hq. assert (queue_items st = [bob_row]) as E by (vm_compute; reflexivity).
    rewrite E in Hq. destruct Hq as [<-|[]]; vm_compute; congruence. }
  assert ((1 : Z) <> 0) as Hnz by lia.
  destruct (join_queue_while_held 9 "r" "Carl" None None st _ 1 Hr eq_refl Hnz eq_refl Hnew)
    as (st' & item & E & Hres & _ & Hp & Hrows & _).
  exists st', item. split; [exact E|]. split; [exact Hres|]. by split.
Defined.

(** ** Every operation is a sequence of transactions *)

Lemma process_queue_users me now rid st :
  users (state_of (_process_queue me now rid st)) = users st.
Proof. apply process_queue_rows. Qed.

Lemma broadcast_update_users rid st : users (broadcast_update rid st) = users st.
Proof. apply broadcast_update_db. Qed.

Lemma cancel_offer_task_users rid st : users (cancel_offer_task rid st) = users st.
Proof. apply cancel_offer_task_db. Qed.

#[local] Hint Rewrite process_queue_users broadcast_update_users
  cancel_offer_task_users : frame.

Lemma process_queue_txn me now rid st : txn st (state_of (_process_queue me now rid st)).
Proof.
  destruct (resources st !! rid) as [r|] eqn:Hr.
  2:{ unfold _process_queue. rewrite Hr. by apply txn_frame. }
  destruct (truthy (current_holder_id r)) eqn:Ht.
  { rewrite (process_queue_noop me now rid st r Hr) by by left. by apply txn_frame. }
  destruct (first_item rid st) as [q|] eqn:Hq.
  2:{ rewrite (process_queue_noop me now rid st r Hr) by by right. by apply txn_frame. }
  destruct (deadline_fits now (timeout_seconds r)) eqn:Hin.
  2:{ rewrite (process_queue_overflow me now rid st r q Hr Ht Hq Hin).
      by apply txn_frame. }
  destruct (process_queue_offer me now rid st r q Hr Ht Hq Hin)
    as (st' & E & Hres & Hu & Hrows & _).
  rewrite E, state_of_self_cancel. by eapply txn_offer.
Qed.

Lemma txn_then_advance me now rid st st1 :
  txn st st1 -> rtc txn st (state_of (_process_queue me now rid st1)).
Proof.
  intros H. eapply rtc_l; [exact H|]. apply rtc_once, process_queue_txn.
Qed.

Lemma handle_timeout_txns me now rid st : rtc txn st (state_of (_handle_timeout me now rid st)).
Proof.
  destruct (resources st !! rid) as [r|] eqn:Hr;
    [|unfold _handle_timeout; rewrite Hr; apply rtc_refl].
  destruct (active_offer_expires_at r) as [d|] eqn:Hd;
    [|unfold _handle_timeout; rewrite Hr, Hd; apply rtc_refl].
  destruct (first_item rid st) as [q|] eqn:Hq.
  - rewrite (handle_timeout_offered me now rid st r d q Hr Hd Hq).
    apply txn_then_advance.
    eapply (txn_timeout _ _ rid r q); [done|done| | | |]; [|by frame..].
    intros x Hx. by apply timeout_key_above.
  - unfold _handle_timeout. rewrite Hr, Hd.
    unfold first_item in Hq. destruct (ordered_items rid st); [|done].
    apply txn_then_advance. apply txn_frame; by frame.
Qed.

Lemma resolve_user_extends rid dname mail uid st :
  exists extra,
    snd (resolve_user rid dname mail uid st) = users st ++ extra
    /\ In (fst (resolve_user rid dname mail uid st)) (users st ++ extra).
Proof.
  unfold resolve_user.
  destruct (if truthy uid then get_user (default 0 uid) st else None) as [u|] eqn:E.
  - exists []. simpl. rewrite List.app_nil_r. split; [done|].
    destruct (truthy uid); [|done]. unfold get_user in E.
    by apply List.find_some in E as [? _].
  - eexists [_]. simpl. split; [done|]. apply List.in_app_iff. right. by left.
Qed.

Lemma join_queue_txns now rid dname mail uid st :
  rtc txn st (state_of (join_queue now rid dname mail uid st)).
Proof.
  destruct (resolve_user_extends rid dname mail uid st) as (extra & Hext & Hin).
  unfold join_queue.
  destruct (resolve_user rid dname mail uid st) as [user users1]. simpl in Hext, Hin.
  destruct (item_of_user (user_pk user) st) as [q|] eqn:E; [apply rtc_refl|].
  rewrite item_of_user_None in E.
  set (st1 := set_queue_items _ (set_users users1 st)).
  assert (forall st', resources st' = resources st1 -> users st' = users st1 ->
            queue_items st' = queue_items st1 -> txn st st') as Hjoin.
  { intros st' H1 H2 H3.
    eapply (txn_join _ _ rid (user_pk user) (or_zero (max_order_of rid st) + 1) extra).
    - exact E.
    - by exists user.
    - intros x. apply new_order_above.
    - by rewrite H1.
    - by rewrite H2, <- Hext.
    - by rewrite H3. }
  destruct (resources st1 !! rid) as [r|]; [|by apply rtc_once, Hjoin].
  destruct (is_set (active_offer_expires_at r)).
  - cbn [state_of]. apply rtc_once, Hjoin; by frame.
  - rewrite state_of_bind_ret. apply txn_then_advance, Hjoin; by frame.
Qed.

Lemma release_resource_txns now rid uid st :
  rtc txn st (state_of (release_resource now rid uid st)).
Proof.
  unfold release_resource.
  destruct (resources st !! rid) as [r|] eqn:Hr; [|apply rtc_refl].
  destruct (opt_neqb (current_holder_id r) uid); [apply rtc_refl|].
  rewrite state_of_bind_ret. apply txn_then_advance.
  eapply (txn_release _ _ rid r); [done|by frame..].
Qed.

Lemma accept_offer_txns rid uid st :
  rtc txn st (state_of (accept_offer rid uid st)).
Proof.
  unfold accept_offer.
  destruct (first_item rid st) as [q|] eqn:Hq; [|apply rtc_refl].
  destruct (opt_neqb (Some (user_id q)) uid) eqn:Hu; [apply rtc_refl|].
  apply opt_neqb_false in Hu. subst uid.
  destruct (resources st !! rid) as [r|] eqn:Hr; [|apply rtc_refl].
  destruct (negb (is_set (active_offer_expires_at r))); [apply rtc_refl|].
  cbn [state_of]. apply rtc_once.
  eapply (txn_accept _ _ rid r q); [done|done|by frame..].
Qed.

Lemma reject_offer_txns now rid uid st :
  rtc txn st (state_of (reject_offer now rid uid st)).
Proof.
  unfold reject_offer.
  destruct (first_item rid st) as [q|] eqn:Hq; [|apply rtc_refl].
  destruct (opt_neqb (Some (user_id q)) uid); [apply rtc_refl|].
  destruct (resources st !! rid) as [r|] eqn:Hr; [|apply rtc_refl].
  destruct (negb (is_set (active_offer_expires_at r))); [apply rtc_refl|].
  rewrite state_of_bind_ret. apply txn_then_advance.
  apply first_item_In in Hq as [Hq Hres].
  eapply (txn_drop _ _ rid r q); [done|done|done|by frame..].
Qed.

Lemma item_of_In rid uid st q :
  item_of rid uid st = Some q ->
  In q (queue_items st) /\ resource_id q = rid /\ uid = Some (user_id q).
Proof.
  unfold item_of. destruct uid as [u|]; [|done]. intros E.
  apply List.find_some in E as [Hq [Hr%String.eqb_eq Hu%Z.eqb_eq]%andb_true_iff].
  by subst.
Qed.

Lemma leave_queue_txns now rid uid st :
  rtc txn st (state_of (leave_queue now rid uid st)).
Proof.
  unfold leave_queue.
  destruct (item_of rid uid st) as [q|] eqn:E; [|apply rtc_refl].
  apply item_of_In in E as (Hq & Hres & _).
  destruct (resources st !! rid) as [r|] eqn:Hr; [|apply rtc_refl].
  destruct (is_set (active_offer_expires_at r)
            && bool_decide (Some (order q) = order <$> first_item rid st)) eqn:Hw.
  - rewrite state_of_bind_ret. apply txn_then_advance.
    eapply (txn_drop _ _ rid r q); [done|done|done|by frame..].
  - cbn [state_of]. apply rtc_once.
    eapply (txn_leave _ _ rid r q); [done|done|done| |by frame..].
    apply andb_false_iff in Hw as [Hw|Hw].
    + left. by destruct (active_offer_expires_at r).
    + apply bool_decide_eq_false in Hw.
      destruct (first_item rid st) as [h|] eqn:Hh.
      * right. exists h. split; [done|]. simpl in Hw. congruence.
      * apply first_item_None in Hh.
        assert (In q (items_of rid st)) as Hin by (apply items_of_In; by split).
        rewrite Hh in Hin. destruct Hin.
Qed.

Lemma step_txns st o : rtc txn st (step st o).
Proof.
  destruct o as [now rid dname mail uid|now rid uid|rid uid|now rid uid
                |now rid uid|now t|now rid]; cbn [step].
  - apply join_queue_txns.
  - apply release_resource_txns.
  - apply accept_offer_txns.
  - apply reject_offer_txns.
  - apply leave_queue_txns.
  - unfold fire. destruct (List.find _ (pending st)) as [x|]; [|apply rtc_refl].
    eapply rtc_l; [|apply handle_timeout_txns]. by apply txn_frame.
  - apply rtc_once, process_queue_txn.
Qed.

(** A property of the tables kept by every transaction is kept by every
    run. *)
Lemma run_txn_invariant (P : State -> Prop) :
  (forall st st', P st -> txn st st' -> P st') ->
  forall ops st, P st -> P (run ops st).
Proof.
  intros Htxn ops. induction ops as [|o ops IH]; intros st H; [exact H|].
  simpl. apply IH. pose proof (step_txns st o) as Hs.
  induction Hs as [|x y z Hxy _ IHs]; [exact H|]. apply IHs. by eapply Htxn.
Qed.

(** ** Invariants of the tables *)

Lemma map_update_pk q k (l : list QueueItem) :
  map item_pk (map (fun x => if item_pk x =? item_pk q then with_order k x else x) l)
  = map item_pk l.
Proof.
  rewrite List.map_map. apply List.map_ext. intros a. by destruct (item_pk a =? item_pk q).
Qed.

Lemma map_update_user q k (l : list QueueItem) :
  map user_id (map (fun x => if item_pk x =? item_pk q then with_order k x else x) l)
  = map user_id l.
Proof.
  rewrite List.map_map. apply List.map_ext. intros a. by destruct (item_pk a =? item_pk q).
Qed.

Lemma NoDup_map_snoc {A B} (f : A -> B) (l : list A) (a : A) :
  List.NoDup (map f l) -> ~ In (f a) (map f l) -> List.NoDup (map f (l ++ [a])).
Proof.
  intros Hl Ha. rewrite List.map_app. apply List.NoDup_app; [done| |].
  - simpl. repeat constructor. by intros [].
  - intros b Hb [<-|[]]. done.
Qed.

Lemma txn_pk_nodup st st' : pk_nodup st -> txn st st' -> pk_nodup st'.
Proof.
  unfold pk_nodup. intros Hnd [H1 H2 H3|rid r d q _ _ _ _ _ H3|rid r _ _ _ H3
    |rid r q _ _ _ _ H3|rid r q _ _ _ _ _ H3|rid r q _ _ _ _ _ _ H3
    |rid r q k _ _ _ _ _ H3|rid u k extra _ _ _ _ _ H3]; rewrite H3; try done.
  - by apply NoDup_map_filter.
  - by apply NoDup_map_filter.
  - by apply NoDup_map_filter.
  - unfold update_order. simpl. by rewrite map_update_pk.
  - apply NoDup_map_snoc; [done|]. simpl.
    intros Hin%next_pk_above. lia.
Qed.

Lemma txn_one_row_per_user st st' : one_row_per_user st -> txn st st' -> one_row_per_user st'.
Proof.
  unfold one_row_per_user. intros Hnd [H1 H2 H3|rid r d q _ _ _ _ _ H3|rid r _ _ _ H3
    |rid r q _ _ _ _ H3|rid r q _ _ _ _ _ H3|rid r q _ _ _ _ _ _ H3
    |rid r q k _ _ _ _ _ H3|rid u k extra Hu _ _ _ _ H3]; rewrite H3; try done.
  - by apply NoDup_map_filter.
  - by apply NoDup_map_filter.
  - by apply NoDup_map_filter.
  - unfold update_order. simpl. by rewrite map_update_user.
  - apply NoDup_map_snoc; [done|]. simpl.
    intros (x & Hx & Hin)%List.in_map_iff. by apply (Hu x).
Qed.

(** Over any run, a user never has two queue rows (on one resource or on
    several). *)
Theorem run_one_row_per_user ops st :
  one_row_per_user st -> one_row_per_user (run ops st).
Proof. apply (run_txn_invariant one_row_per_user), txn_one_row_per_user. Qed.

Lemma run_one_row_per_user_witness :
  one_row_per_user
    (run [Join 0 "r" "Ann" None None; Join 1 "r" "Ann again" None (Some 1);
          Join 2 "r" "Bob" None None; Fire 5000000 0%nat; Leave 8 "r" (Some 2)]
         one_resource).
Proof. apply run_one_row_per_user. constructor. Defined.

Lemma txn_keys_distinct st st' :
  pk_nodup st /\ keys_distinct st -> txn st st' -> pk_nodup st' /\ keys_distinct st'.
Proof.
  intros [Hnd Hk] Ht. split; [by eapply txn_pk_nodup|].
  unfold keys_distinct.
  destruct Ht as [H1 H2 H3|rid r d q _ _ _ _ _ H3|rid r _ _ _ H3
    |rid r q _ _ _ _ H3|rid r q _ _ _ _ _ H3|rid r q _ _ _ _ _ _ H3
    |rid r q k _ Hq Habove _ _ H3|rid u k extra _ _ Habove _ _ H3]; rewrite H3; try done.
  - intros a b [Ha _]%delete_item_In [Hb _]%delete_item_In. by apply Hk.
  - intros a b [Ha _]%delete_item_In [Hb _]%delete_item_In. by apply Hk.
  - intros a b [Ha _]%delete_item_In [Hb _]%delete_item_In. by apply Hk.
  - apply first_item_In in Hq as [Hq Hqr].
    assert (forall z, In z (queue_items st) -> item_pk z = item_pk q -> z = q) as Hsame.
    { intros z Hz E. by apply (NoDup_map_eq item_pk (queue_items st)). }
    intros a b (za & Hza & ->)%update_order_In (zb & Hzb & ->)%update_order_In.
    destruct (Z.eqb_spec (item_pk za) (item_pk q)) as [Ea|Ea],
             (Z.eqb_spec (item_pk zb) (item_pk q)) as [Eb|Eb]; simpl.
    + intros _ _. by rewrite (Hsame za Hza Ea), (Hsame zb Hzb Eb).
    + intros Hres Hord. rewrite (Hsame za Hza Ea), Hqr in Hres.
      assert (order zb < k) by (apply Habove, items_of_In; by split). lia.
    + intros Hres Hord. rewrite (Hsame zb Hzb Eb), Hqr in Hres.
      assert (order za < k) by (apply Habove, items_of_In; by split). lia.
    + by apply Hk.
  - intros a b [Ha|[<-|[]]]%List.in_app_iff [Hb|[<-|[]]]%List.in_app_iff; simpl.
    + by apply Hk.
    + intros Hres Hord.
      assert (order a < k) by (apply Habove, items_of_In; by split). lia.
    + intros Hres Hord.
      assert (order b < k) by (apply Habove, items_of_In; by split). lia.
    + done.
Qed.

(** Over any run, the rows keep distinct primary keys and two rows of one
    queue never carry the same order key: the order of a queue is total. *)
Theorem run_keys_distinct ops st :
  pk_nodup st -> keys_distinct st ->
  pk_nodup (run ops st) /\ keys_distinct (run ops st).
Proof.
  intros Hnd Hk.
  apply (run_txn_invariant (fun s => pk_nodup s /\ keys_distinct s));
    [apply txn_keys_distinct|by split].
Qed.

Lemma run_keys_distinct_witness :
  keys_distinct
    (run [Join 0 "r" "Ann" None None; Join 2 "r" "Bob" None None;
          Fire 5000000 0%nat; Reject 5000001 "r" (Some 2); Join 9 "r" "Carl" None None]
         one_resource).
Proof.
  apply run_keys_distinct; [constructor|]. by intros a b [].
Defined.

Lemma has_row_first rid st x :
  In x (queue_items st) -> resource_id x = rid -> first_item rid st <> None.
Proof.
  intros Hx Hr Hnone%first_item_None.
  assert (In x (items_of rid st)) as Hin by (apply items_of_In; by split).
  rewrite Hnone in Hin. destruct Hin.
Qed.

Lemma first_item_has_row rid st :
  first_item rid st <> None ->
  exists h, first_item rid st = Some h /\ In h (queue_items st) /\ resource_id h = rid.
Proof.
  destruct (first_item rid st) as [h|] eqn:E; [|done]. intros _.
  exists h. split; [done|]. by apply first_item_In.
Qed.

Lemma delete_keeps_row q x st st' :
  pk_nodup st -> queue_items st' = queue_items (delete_item q st) ->
  In q (queue_items st) -> In x (queue_items st) -> x <> q ->
  In x (queue_items st').
Proof.
  intros Hnd -> Hq Hx Hne. apply delete_item_In. split; [done|].
  intros E. apply Hne. by apply (NoDup_map_eq item_pk (queue_items st)).
Qed.

Lemma txn_offer_has_head st st' :
  pk_nodup st /\ offer_has_head st -> txn st st' -> pk_nodup st' /\ offer_has_head st'.
Proof.
  intros [Hnd Hoff] Ht. split; [by eapply txn_pk_nodup|].
  intros rid' r'.
  destruct Ht as [H1 H2 H3|rid r d q Hr _ Hq H1 _ H3|rid r Hr H1 _ H3
    |rid r q Hr Hq H1 _ H3|rid r q Hr Hq Hres H1 _ H3|rid r q Hr Hq Hres Hwait H1 _ H3
    |rid r q k Hr Hq _ H1 _ H3|rid u k extra _ _ _ H1 _ H3]; rewrite H1.
  - rewrite (first_item_frame rid' st st' H3). apply Hoff.
  - rewrite (first_item_frame rid' st st' H3).
    destruct (decide (rid = rid')) as [<-|Hne].
    + intros _ _. by rewrite Hq.
    + rewrite lookup_insert_ne by done. apply Hoff.
  - rewrite (first_item_frame rid' st st' H3).
    destruct (decide (rid = rid')) as [<-|Hne].
    + rewrite lookup_insert_eq. intros [= <-] Hd. by apply (Hoff rid r).
    + rewrite lookup_insert_ne by done. apply Hoff.
  - destruct (decide (rid = rid')) as [<-|Hne].
    + rewrite lookup_insert_eq. by intros [= <-].
    + rewrite lookup_insert_ne by done. intros Hr' Hd.
      destruct (first_item_has_row rid' st (Hoff rid' r' Hr' Hd)) as (h & _ & Hh & Hhr).
      apply first_item_In in Hq as [Hq Hqr].
      apply (has_row_first rid' st' h); [|done].
      eapply delete_keeps_row; [done|exact H3|done|done|]. intros ->. congruence.
  - destruct (decide (rid = rid')) as [<-|Hne].
    + rewrite lookup_insert_eq. by intros [= <-].
    + rewrite lookup_insert_ne by done. intros Hr' Hd.
      destruct (first_item_has_row rid' st (Hoff rid' r' Hr' Hd)) as (h & _ & Hh & Hhr).
      apply (has_row_first rid' st' h); [|done].
      eapply delete_keeps_row; [done|exact H3|done|done|]. intros ->. congruence.
  - intros Hr' Hd.
    destruct (first_item_has_row rid' st (Hoff rid' r' Hr' Hd)) as (h & Hfirst & Hh & Hhr).
    apply (has_row_first rid' st' h); [|done].
    eapply delete_keeps_row; [done|exact H3|done|done|]. intros ->.
    rewrite Hres in Hhr. subst rid'. rewrite Hr in Hr'. injection Hr' as <-.
    destruct Hwait as [Hnone|(h' & Hh' & Hne)]; [done|].
    rewrite Hfirst in Hh'. injection Hh' as <-. done.
  - destruct (decide (rid = rid')) as [<-|Hne].
    + rewrite lookup_insert_eq. by intros [= <-].
    + rewrite lookup_insert_ne by done. intros Hr' Hd.
      destruct (first_item_has_row rid' st (Hoff rid' r' Hr' Hd)) as (h & _ & Hh & Hhr).
      apply (has_row_first rid' st'
               (if item_pk h =? item_pk q then with_order k h else h)).
      * rewrite H3. apply update_order_In. by exists h.
      * by destruct (item_pk h =? item_pk q).
  - intros Hr' Hd.
    destruct (first_item_has_row rid' st (Hoff rid' r' Hr' Hd)) as (h & _ & Hh & Hhr).
    apply (has_row_first rid' st' h); [|done].
    rewrite H3. apply List.in_app_iff. by left.
Qed.

(** Over any run, a resource with an offer deadline always has a claimant
    at the head of its queue: an offer is never left without an offeree. *)
Theorem run_offer_has_head ops st :
  pk_nodup st -> offer_has_head st -> offer_has_head (run ops st).
Proof.
  intros Hnd Hoff.
  apply (run_txn_invariant (fun s => pk_nodup s /\ offer_has_head s));
    [apply txn_offer_has_head|by split].
Qed.

Lemma one_resource_offer_has_head : offer_has_head one_resource.
Proof. intros rid r Hr. by destruct (one_resource_idle rid r Hr) as [_ ->]. Qed.

Lemma run_offer_has_head_witness :
  offer_has_head
    (run [Join 0 "r" "Ann" None None; Join 2 "r" "Bob" None None;
          Leave 3 "r" (Some 1); Fire 5000003 1%nat; Reject 5000004 "r" (Some 2)]
         one_resource).
Proof.
  apply run_offer_has_head; [constructor|apply one_resource_offer_has_head].
Defined.

Lemma get_user_found st u : In u (users st) -> get_user (user_pk u) st <> None.
Proof.
  intros Hu E. unfold get_user in E. apply (List.find_none _ _ E) in Hu.
  simpl in Hu. by rewrite Z.eqb_refl in Hu.
Qed.

Lemma get_user_Some_In uid st : get_user uid st <> None -> exists u, In u (users st) /\ user_pk u = uid.
Proof.
  unfold get_user. destruct (List.find _ (users st)) as [u|] eqn:E; [|done].
  intros _. apply List.find_some in E as [Hu Hpk%Z.eqb_eq]. by exists u.
Qed.

Lemma get_user_ext uid st st' :
  users st' = users st -> get_user uid st' = get_user uid st.
Proof. unfold get_user. by intros ->. Qed.

Lemma txn_users_exist st st' : users_exist st -> txn st st' -> users_exist st'.
Proof.
  intros Hex Ht.
  assert (forall extra, users st' = users st ++ extra ->
            forall x, In x (queue_items st) -> get_user (user_id x) st' <> None) as Hold.
  { intros extra Hu x Hx.
    destruct (get_user_Some_In _ _ (Hex x Hx)) as (u & Hin & <-).
    apply get_user_found. rewrite Hu. apply List.in_app_iff. by left. }
  assert (users st' = users st -> forall x, In x (queue_items st) ->
            get_user (user_id x) st' <> None) as Hsame.
  { intros Hu. apply (Hold []). by rewrite List.app_nil_r. }
  intros x.
  destruct Ht as [H1 H2 H3|rid r d q _ _ _ _ H2 H3|rid r _ _ H2 H3
    |rid r q _ _ _ H2 H3|rid r q _ _ _ _ H2 H3|rid r q _ _ _ _ _ H2 H3
    |rid r q k _ _ _ _ H2 H3|rid u k extra _ Hu _ _ H2 H3]; rewrite H3.
  - by apply Hsame.
  - by apply Hsame.
  - by apply Hsame.
  - intros [Hx _]%delete_item_In. by apply Hsame.
  - intros [Hx _]%delete_item_In. by apply Hsame.
  - intros [Hx _]%delete_item_In. by apply Hsame.
  - intros (z & Hz & ->)%update_order_In.
    assert (user_id (if item_pk z =? item_pk q then with_order k z else z) = user_id z)
      as -> by by destruct (item_pk z =? item_pk q).
    by apply Hsame.
  - intros [Hx|[<-|[]]]%List.in_app_iff; [by apply (Hold extra)|]. simpl.
    destruct Hu as (usr & Hin & <-). apply get_user_found. by rewrite H2.
Qed.

(** Over any run, every queue row names a user of the users table: the
    operations never leave a row without its user. *)
Theorem run_users_exist ops st : users_exist st -> users_exist (run ops st).
Proof. apply (run_txn_invariant users_exist), txn_users_exist. Qed.

Lemma run_users_exist_witness :
  users_exist
    (run [Join 0 "r" "Ann" None None; Join 2 "r" "Bob" None (Some 7);
          Fire 5000000 0%nat; Accept "r" (Some 2)] one_resource).
Proof. apply run_users_exist. by intros q []. Defined.

(** ** Snapshots *)

Lemma snapshot_queue_total offer st idx items :
  (forall q, In q items -> get_user (user_id q) st <> None) ->
  exists entries,
    snapshot_queue offer st idx items = Some entries
    /\ map userId entries = map user_id items
    /\ map isOffered entries
       = map (fun i => offer && Nat.eqb i 0) (seq idx (length items)).
Proof.
  revert idx. induction items as [|q items IH]; intros idx H; [by exists []|].
  simpl. destruct (get_user (user_id q) st) as [u|] eqn:E;
    [|by destruct (H q (or_introl eq_refl))].
  destruct (IH (S idx)) as (entries & -> & Hids & Hoff);
    [intros x Hx; apply H; by right|].
  eexists. split; [reflexivity|]. simpl. rewrite Hids, Hoff.
  by rewrite (get_user_pk _ _ _ E).
Qed.

Lemma map_offered_tail offer n len :
  map (fun i => offer && Nat.eqb i 0) (seq (S n) len) = repeat false len.
Proof.
  revert n. induction len as [|len IH]; intros n; simpl; [done|].
  rewrite andb_false_r. by rewrite IH.
Qed.


Lemma ann_bob_users_exist : users_exist ann_bob_on_r.
Proof.
  apply (run_txn_invariant users_exist); [apply txn_users_exist|by intros q []].
Qed.


(** The holder of a snapshot is looked up among the users created for
    that resource only. When the user that holds the resource was created
    on another resource, the snapshot shows the held resource without a
    holder. *)
Theorem get_resource_state_foreign_holder rid st r h snap :
  resources st !! rid = Some r ->
  current_holder_id r = Some h ->
  (forall u, In u (users st) -> user_pk u = h -> user_resource_id u <> rid) ->
  get_resource_state rid st = Ret st (Some snap) ->
  holder snap = None.
Proof.
  intros Hr Hh Hforeign. unfold get_resource_state. rewrite Hr.
  destruct (snapshot_queue _ st 0 _) as [entries|]; [|done].
  intros [= <-]. simpl. unfold snapshot_holder. rewrite Hh. simpl.
  destruct (negb (h =? 0)); [|done].
  destruct (List.find _ (users_of rid st)) as [u|] eqn:E; [|done].
  apply List.find_some in E as [[Hu Hres%String.eqb_eq]%List.filter_In Hpk%Z.eqb_eq].
  by destruct (Hforeign u Hu Hpk).
Qed.

(** Ann holds "b" but was created on "a": the snapshot of "b" has no
    holder, though the resource row has one. *)
Lemma get_resource_state_foreign_holder_witness :
  resources ann_moves_to_b !! "b" = Some (mkResource "B" None 60 "secret" (Some 1) None)
  /\ get_resource_state "b" ann_moves_to_b
     = Ret ann_moves_to_b (Some (mkSnapshot "b" "B" 60 None [] None))
  /\ holder (mkSnapshot "b" "B" 60 None [] None) = None.
Proof.
  assert (resources ann_moves_to_b !! "b"
          = Some (mkResource "B" None 60 "secret" (Some 1) None)) as Hr
    by (vm_compute; reflexivity).
  assert (users ann_moves_to_b = [mkUser 1 "Ann" None "a"]) as Hu
    by (vm_compute; reflexivity).
  assert (get_resource_state "b" ann_moves_to_b
          = Ret ann_moves_to_b (Some (mkSnapshot "b" "B" 60 None [] None))) as E
    by (vm_compute; reflexivity).
  split; [exact Hr|]. split; [exact E|].
  apply (get_resource_state_foreign_holder "b" ann_moves_to_b _ 1 _ Hr eq_refl); [|exact E].
  intros u Hin _. rewrite Hu in Hin. destruct Hin as [<-|[]]. simpl. congruence.
Defined.

(** ** A held resource *)

(** In every state reached from idle resources, a resource that has a
    holder cannot be taken or given away: every accept and every reject on
    it returns [False], the expiry of a timer on it does nothing, and the
    state is unchanged in all three cases. *)
Theorem held_resource_is_kept ops st0 me now rid uid r :
  all_idle st0 ->
  claimants_nonzero st0 ->
  resources (run ops st0) !! rid = Some r ->
  current_holder_id r <> None ->
  accept_offer rid uid (run ops st0) = Ret (run ops st0) false
  /\ reject_offer now rid uid (run ops st0) = Ret (run ops st0) false
  /\ _handle_timeout me now rid (run ops st0) = Ret (run ops st0) tt.
Proof.
  intros Hidle Hnz Hr Hh.
  assert (active_offer_expires_at r = None) as Hd.
  { pose proof (run_inv ops st0 (lease_inv_idle st0 Hidle Hnz)) as Hinv.
    by apply (lease_inv_exclusive _ Hinv rid r Hr). }
  generalize dependent (run ops st0). intros st Hr.
  unfold accept_offer, reject_offer, _handle_timeout. rewrite Hr, Hd.
  split; [|split; [|done]].
  - destruct (first_item rid st) as [q|]; [|done].
    by destruct (opt_neqb (Some (user_id q)) uid).
  - destruct (first_item rid st) as [q|]; [|done].
    by destruct (opt_neqb (Some (user_id q)) uid).
Qed.

(** Ann holds "r": Bob, at the head of the queue, cannot accept. *)
Lemma held_resource_is_kept_witness :
  let ops := [Join 0 "r" "Ann" None None; Join 1 "r" "Bob" None None; Accept "r" (Some 1)] in
  accept_offer "r" (Some 2) (run ops one_resource) = Ret (run ops one_resource) false
  /\ _handle_timeout (Some 0%nat) 9 "r" (run ops one_resource)
     = Ret (run ops one_resource) tt.
Proof.
  intros ops.
  assert (claimants_nonzero one_resource) as Hnz by (intros q []).
  assert (resources (run ops one_resource) !! "r"
          = Some (with_expiry None (with_holder (Some 1) r_offered))) as Hr
    by (vm_compute; reflexivity).
  assert (current_holder_id (with_expiry None (with_holder (Some 1) r_offered)) <> None)
    as Hh by done.
  destruct (held_resource_is_kept ops one_resource (Some 0%nat) 9 "r" (Some 2) _
              one_resource_idle Hnz Hr Hh) as (Ha & _ & Ht).
  by split.
Defined.

(** ** Timers over runs *)

Lemma at_most_one_timer_run_witness :
  at_most_one_timer
    (run [Join 0 "r" "Ann" None None; Join 1 "r" "Bob" None None;
          Leave 2 "r" (Some 1); Fire 5000002 1%nat; Reject 5000003 "r" (Some 2)]
         one_resource).
Proof. apply at_most_one_timer_run, boot_tracked. Defined.

Lemma offered_at_restart_tracked : timers_tracked offered_at_restart.
Proof. split; [|split]; [by intros t []|by intros t []|constructor]. Qed.

(** The restart of [offered_at_restart] at 400, before the deadline. *)
Lemma restore_timers_tracked_witness :
  at_most_one_timer
    (run [Join 500 "r" "Carl" None None; Fire 1000 0%nat; Leave 1001 "r" (Some 2)]
         (restore_timers 400 (fun _ => 401) offered_at_restart)).
Proof.
  apply restore_timers_tracked; [done|apply offered_at_restart_tracked|].
  intros rid r d Hr Hd _. unfold offered_at_restart in Hr. simpl in Hr.
  apply lookup_insert_Some in Hr as [[_ <-]|[_ Hr]]; [|by rewrite lookup_empty in Hr].
  simpl in Hd. injection Hd as <-. lia.
Defined.

Lemma restore_one_pending_mono now_loop st row t :
  In t (pending st) -> In t (pending (restore_one now_loop st row)).
Proof.
  unfold restore_one, create_task. intros Ht.
  destruct (0 <? _); simpl; apply List.in_app_iff; by left.
Qed.

Lemma restore_fold_pending_mono now_loop rows st t :
  In t (pending st) -> In t (pending (foldl (restore_one now_loop) st rows)).
Proof.
  revert st. induction rows as [|row rows IH]; intros st Ht; [exact Ht|].
  simpl. by apply IH, restore_one_pending_mono.
Qed.

Lemma restore_fold_rearms now_loop rows st rid r d :
  List.NoDup (map fst rows) ->
  In (rid, r) rows ->
  active_offer_expires_at r = Some d ->
  now_loop rid < d ->
  exists n,
    offer_tasks (foldl (restore_one now_loop) st rows) !! rid = Some n
    /\ In (mkTask n rid (d - now_loop rid))
          (pending (foldl (restore_one now_loop) st rows)).
Proof.
  revert st. induction rows as [|row rows IH]; intros st Hnd Hin Hd Hlt; [destruct Hin|].
  simpl in Hnd. apply NoDup_cons_iff in Hnd as [Hrow Hnd].
  destruct Hin as [->|Hin]; [|by apply IH].
  simpl foldl. exists (next_task st).
  destruct (restore_fold_effect now_loop rows (restore_one now_loop st (rid, r)))
    as (_ & _ & _ & _ & _ & Hot).
  rewrite (Hot rid Hrow). unfold restore_one at 1 3. simpl. rewrite Hd. simpl.
  assert ((0 <? d - now_loop rid) = true) as -> by (apply Z.ltb_lt; lia).
  unfold create_task, register_task. simpl. rewrite lookup_insert_eq. split; [done|].
  apply restore_fold_pending_mono. simpl. apply List.in_app_iff. right. by left.
Qed.

(** For a resource whose deadline is later than the clock at the query and
    at the loop, [restore_timers] registers an expiry task that sleeps for
    the time that remains until the deadline, and leaves the tables as
    they are. *)
Theorem restore_timers_rearms now_query now_loop st rid r d :
  resources st !! rid = Some r ->
  active_offer_expires_at r = Some d ->
  now_query < d ->
  now_loop rid < d ->
  resources (restore_timers now_query now_loop st) = resources st
  /\ queue_items (restore_timers now_query now_loop st) = queue_items st
  /\ exists n,
       offer_tasks (restore_timers now_query now_loop st) !! rid = Some n
       /\ In (mkTask n rid (d - now_loop rid))
             (pending (restore_timers now_query now_loop st)).
Proof.
  intros Hr Hd Hq Hl. unfold restore_timers.
  set (rows := List.filter _ _).
  destruct (restore_fold_effect now_loop rows st) as (E1 & _ & E3 & _).
  split; [exact E1|]. split; [exact E3|].
  apply (restore_fold_rearms now_loop rows st rid r d); [| |done|done].
  - apply NoDup_map_filter, map_to_list_keys_NoDup.
  - apply List.filter_In. split.
    + by apply list_elem_of_In, elem_of_map_to_list.
    + simpl. unfold expires_after. rewrite Hd. by apply Z.ltb_lt.
Qed.

(** At the restart of [offered_at_restart] at 400, the offer to Ann is
    given the 599 microseconds that remain. *)
Lemma restore_timers_rearms_witness :
  exists n,
    offer_tasks (restore_timers 400 (fun _ => 401) offered_at_restart) !! "r" = Some n
    /\ In (mkTask n "r" 599)
          (pending (restore_timers 400 (fun _ => 401) offered_at_restart)).
Proof.
  assert (resources offered_at_restart !! "r"
          = Some (mkResource "R" None 5 "secret" None (Some 1000))) as Hr
    by (vm_compute; reflexivity).
  assert (400 < 1000) as H1 by lia. assert (401 < 1000) as H2 by lia.
  destruct (restore_timers_rearms 400 (fun _ => 401) offered_at_restart "r" _ 1000
              Hr eq_refl H1 H2) as (_ & _ & n & Hn & Hin).
  exists n. by split.
Defined.

(** ** Fairness: keys are stable *)

(** Through any step, a queue row keeps its order key, with one
    exception: the row at the head of its queue when the offer to it times
    out, which is given a key above every key of that queue. So the
    relative order of two waiting claimants is only changed by the
    timeout of the one in front. *)
Theorem step_key_stability st o x x' :
  pk_nodup st ->
  In x (queue_items st) ->
  In x' (queue_items (step st o)) ->
  item_pk x' = item_pk x ->
  x' = x
  \/ (first_item (resource_id x) st = Some x
      /\ resource_id x' = resource_id x /\ user_id x' = user_id x
      /\ forall y, In y (items_of (resource_id x) st) -> order y < order x').
Proof.
  intros Hnd Hx Hx' Hpk.
  assert (forall z, In z (queue_items st) -> item_pk z = item_pk x -> z = x) as Hsame.
  { intros z Hz E. by apply (NoDup_map_eq item_pk (queue_items st)). }
  destruct (step_rows st o)
    as [H|[(q & _ & H)|[(rid & q & k & Hq & Habove & H)|(rid & u & k & _ & H)]]];
    rewrite H in Hx'.
  - left. by apply Hsame.
  - apply delete_item_In in Hx' as [Hx' _]. left. by apply Hsame.
  - apply update_order_In in Hx' as (z & Hz & ->).
    assert (item_pk z = item_pk x) as Ez
      by (destruct (item_pk z =? item_pk q); exact Hpk).
    rewrite (Hsame z Hz Ez) in *.
    destruct (Z.eqb_spec (item_pk x) (item_pk q)) as [E|E]; [|by left].
    right. pose proof (first_item_In _ _ _ Hq) as [Hqin Hqr].
    assert (q = x) as -> by (apply Hsame; [done|by symmetry]).
    rewrite Hqr. repeat (split; [done|]). simpl. exact Habove.
  - apply List.in_app_iff in Hx' as [Hx'|[<-|[]]]; [left; by apply Hsame|].
    simpl in Hpk. apply (List.in_map item_pk) in Hx. apply next_pk_above in Hx. lia.
Qed.

(** Bob's row is the same before and after the timeout of Ann. *)
Lemma step_key_stability_witness :
  In bob_row (queue_items (step ann_bob_on_r (Fire 5000000 0%nat)))
  /\ (bob_row = bob_row
      \/ first_item (resource_id bob_row) ann_bob_on_r = Some bob_row
         /\ resource_id bob_row = resource_id bob_row /\ user_id bob_row = user_id bob_row
         /\ forall y, In y (items_of (resource_id bob_row) ann_bob_on_r) ->
                      order y < order bob_row).
Proof.
  assert (In bob_row (queue_items ann_bob_on_r)) as Hx
    by (rewrite ann_bob_rows; right; by left).
  assert (In bob_row (queue_items (step ann_bob_on_r (Fire 5000000 0%nat)))) as Hx'
    by (vm_compute; right; by left).
  split; [exact Hx'|].
  exact (step_key_stability ann_bob_on_r (Fire 5000000 0%nat) bob_row bob_row
           ann_bob_pk_nodup Hx Hx' eq_refl).
Defined.

(** ** Users created by a join *)

Lemma resolve_user_fresh rid dname mail uid st :
  (uid = None \/ uid = Some 0 \/ exists u, uid = Some u /\ get_user u st = None) ->
  resolve_user rid dname mail uid st
  = (mkUser (next_pk (map user_pk (users st))) dname mail rid,
     users st ++ [mkUser (next_pk (map user_pk (users st))) dname mail rid]).
Proof.
  unfold resolve_user. intros [->|[->|(u & -> & E)]]; [done|done|].
  simpl. rewrite E. by destruct (negb (u =? 0)).
Qed.

(** A join without identifier, with the identifier 0, or with an
    identifier that no user has, creates on an existing resource a user
    for this resource, with a primary key that no user had, and queues
    that user. It returns the new key, not the key of the call, when the
    resource is offered or held, or when the clock plus the timeout of
    the resource is a [datetime]; on an idle resource for which it is
    not, the call raises [OverflowError] after the two rows were
    written. *)
Theorem join_queue_creates_user now rid dname mail uid st r :
  users_exist st ->
  resources st !! rid = Some r ->
  (uid = None \/ uid = Some 0 \/ exists u, uid = Some u /\ get_user u st = None) ->
  exists item,
    get_user (next_pk (map user_pk (users st))) st = None
    /\ users (state_of (join_queue now rid dname mail uid st))
       = users st ++ [mkUser (next_pk (map user_pk (users st))) dname mail rid]
    /\ queue_items (state_of (join_queue now rid dname mail uid st))
       = queue_items st ++ [item]
    /\ user_id item = next_pk (map user_pk (users st))
    /\ resource_id item = rid
    /\ (is_set (active_offer_expires_at r) = true
        \/ truthy (current_holder_id r) = true
        \/ deadline_fits now (timeout_seconds r) = true ->
        value_of (join_queue now rid dname mail uid st)
        = Some (next_pk (map user_pk (users st))))
    /\ (is_set (active_offer_expires_at r) = false ->
        truthy (current_holder_id r) = false ->
        deadline_fits now (timeout_seconds r) = false ->
        exists st', join_queue now rid dname mail uid st = Raise st' OverflowError).
Proof.
  intros Hex Hr Huid.
  assert (get_user (next_pk (map user_pk (users st))) st = None) as Hfresh.
  { destruct (get_user _ st) as [u|] eqn:E; [|done].
    pose proof (get_user_pk _ _ _ E) as Hpk. unfold get_user in E.
    apply List.find_some in E as [Hin _]. apply (List.in_map user_pk) in Hin.
    apply next_pk_above in Hin. lia. }
  assert (forall q, In q (queue_items st) ->
            user_id q <> next_pk (map user_pk (users st))) as Hnew.
  { intros q Hq E. apply (Hex q Hq). by rewrite E. }
  pose proof (resolve_user_fresh rid dname mail uid st Huid) as Hres.
  unfold join_queue. rewrite Hres. simpl user_pk.
  apply item_of_user_None in Hnew. rewrite Hnew.
  set (item := mkQueueItem _ rid _ _).
  set (st1 := set_queue_items _ _).
  assert (resources st1 !! rid = Some r) as Hr1 by exact Hr. rewrite Hr1.
  exists item. split; [exact Hfresh|].
  destruct (is_set (active_offer_expires_at r)) eqn:Hset.
  { cbn [state_of value_of]. frame.
    split; [done|]. split; [done|]. split; [done|]. split; [done|].
    split; [done|]. by intros [=]. }
  set (st2 := broadcast_update rid st1).
  assert (resources st2 !! rid = Some r) as Hr2 by (unfold st2; by frame).
  assert (first_item rid st2 <> None) as Hhead.
  { unfold first_item.
    assert (In item (ordered_items rid st2)) as Hin.
    { apply ordered_items_In. split; [|done]. unfold st2. frame. simpl.
      apply List.in_app_iff. right. by left. }
    by destruct (ordered_items rid st2). }
  rewrite state_of_bind_ret.
  split; [unfold st2; by frame|]. split; [unfold st2; by frame|].
  split; [done|]. split; [done|]. split.
  - intros [?|[Ht|Hin]]; [done| |].
    + by rewrite (process_queue_noop None now rid st2 r Hr2) by by left.
    + destruct (truthy (current_holder_id r)) eqn:Ht.
      { by rewrite (process_queue_noop None now rid st2 r Hr2) by by left. }
      destruct (advance_result None now rid st2 r Hr2 Ht) as (_ & _ & Hraise).
      rewrite Hin in Hraise.
      destruct (_process_queue None now rid st2) as [st3 []|] eqn:E; [done|].
      by destruct (first_item rid st2).
  - intros _ Ht Hin. destruct (first_item rid st2) as [q|] eqn:Hq; [|done].
    rewrite (process_queue_overflow None now rid st2 r q Hr2 Ht Hq Hin). by eexists.
Qed.

(** Dan calls with the identifier 99, which no user has: he becomes user 3. *)
Lemma join_queue_creates_user_witness :
  exists item,
    value_of (join_queue 9 "r" "Dan" None (Some 99) ann_bob_on_r) = Some 3
    /\ users (state_of (join_queue 9 "r" "Dan" None (Some 99) ann_bob_on_r))
       = users ann_bob_on_r ++ [mkUser 3 "Dan" None "r"]
    /\ user_id item = 3.
Proof.
  assert (uid_unknown : Some 99 = None \/ Some 99 = Some 0
            \/ exists u, Some 99 = Some u /\ get_user u ann_bob_on_r = None).
  { right; right. exists 99. split; [done|]. vm_compute. reflexivity. }
  destruct (join_queue_creates_user 9 "r" "Dan" None (Some 99) ann_bob_on_r r_offered
              ann_bob_users_exist ann_bob_resource uid_unknown)
    as (item & _ & Hu & _ & Hi & _ & Hv & _).
  exists item. split; [apply Hv; by left|]. split; [exact Hu|exact Hi].
Defined.

(** ** The expiry of a registered task *)

(** The sleep of the task registered for an offered, free resource ends,
    with the clock plus the timeout inside the range of [datetime]. The
    task leaves the sleeping tasks, gives the head of the queue a key above
    all the keys, emits the snapshot of the timeout, sets the next
    deadline and registers the next task. In doing so it has cancelled
    itself: it ends with [CancelledError], and the snapshot of the new
    offer is not emitted. *)
Theorem fire_registered_task now t st x r d q :
  List.find (fun y => Nat.eqb (task_id y) t) (pending st) = Some x ->
  offer_tasks st !! task_resource x = Some t ->
  resources st !! task_resource x = Some r ->
  current_holder_id r = None ->
  active_offer_expires_at r = Some d ->
  first_item (task_resource x) st = Some q ->
  deadline_fits now (timeout_seconds r) = true ->
  exists st' r',
    fire now t st = Raise st' CancelledError
    /\ emitted st' = emitted st ++ [task_resource x]
    /\ resources st' !! task_resource x = Some r'
    /\ current_holder_id r' = None
    /\ active_offer_expires_at r' = Some (now + seconds (timeout_seconds r))
    /\ offer_tasks st' !! task_resource x = Some (next_task st)
    /\ In (mkTask (next_task st) (task_resource x) (seconds (timeout_seconds r)))
          (pending st')
    /\ (forall y, In y (pending st') ->
          task_id y <> t \/ y = mkTask (next_task st) (task_resource x)
                                      (seconds (timeout_seconds r)))
    /\ length (queue_items st') = length (queue_items st).
Proof.
  intros Hfind Hreg Hr Hh Hd Hq Hin. unfold fire. rewrite Hfind.
  set (rid := task_resource x) in *.
  set (stc := cancel t st).
  assert (resources stc !! rid = Some r) as Hrc by exact Hr.
  assert (first_item rid stc = Some q) as Hqc by exact Hq.
  rewrite (handle_timeout_offered (Some t) now rid stc r d q Hrc Hd Hqc).
  set (k := order (List.last (ordered_items rid stc) q) + 1).
  set (st2 := broadcast_update rid _).
  assert (resources st2 !! rid = Some (with_expiry None r)) as Hr2.
  { unfold st2. frame. simpl. by rewrite lookup_insert_eq. }
  assert (truthy (current_holder_id (with_expiry None r)) = false) as Ht
    by (simpl; by rewrite Hh).
  assert (queue_items st2 = queue_items (update_order q k stc)) as Hrows
    by (unfold st2; by frame).
  assert (exists h, first_item rid st2 = Some h) as [h Hhead].
  { assert (In (with_order k q) (ordered_items rid st2)) as Hin2.
    { apply ordered_items_In. pose proof (first_item_In _ _ _ Hq) as [Hqin Hqres].
      split; [|exact Hqres]. rewrite Hrows. apply update_order_In.
      exists q. split; [exact Hqin|]. by rewrite Z.eqb_refl. }
    unfold first_item. destruct (ordered_items rid st2) as [|h l]; [done|]. by exists h. }
  assert (offer_tasks st2 = offer_tasks st) as Hot by (unfold st2; by frame).
  assert (cancels_self (Some t) rid st2 = true) as Hself.
  { unfold cancels_self. rewrite Hot, Hreg. apply Nat.eqb_refl. }
  assert (next_task st2 = next_task st) as Hn by (unfold st2; by frame).
  assert (emitted st2 = emitted st ++ [rid]) as Hem.
  { unfold st2, broadcast_update. simpl. rewrite lookup_insert_eq. done. }
  destruct (process_queue_offer (Some t) now rid st2 (with_expiry None r) h Hr2 Ht Hhead Hin)
    as (st' & E & Hres & _ & Hrows' & Hot' & Hp & _ & Hem').
  rewrite Hself in E, Hem'. rewrite Hn in Hot', Hp.
  exists st', (with_expiry (Some (now + seconds (timeout_seconds r))) (with_expiry None r)).
  split; [exact E|]. split; [by rewrite Hem', Hem|].
  split; [by rewrite Hres, lookup_insert_eq|]. split; [exact Hh|]. split; [done|].
  split; [by rewrite Hot', lookup_insert_eq|].
  split; [rewrite Hp; apply List.in_app_iff; right; by left|].
  split.
  - intros y. rewrite Hp. intros [Hy|[<-|[]]]%List.in_app_iff; [left|by right].
    apply cancel_offer_task_In in Hy as [Hy _].
    assert (In y (pending stc)) as Hyc by (revert Hy; unfold st2; by frame).
    by apply cancel_In in Hyc as [_ ?].
  - rewrite Hrows', Hrows. unfold update_order. simpl. by rewrite length_map.
Qed.

(** Task 0, registered for the offer of "r" to Ann, ends its sleep: Bob is
    offered "r", task 1 is the timer, and the task ends cancelled after
    one snapshot. *)
Lemma fire_registered_task_witness :
  exists st' r',
    fire 5000000 0%nat ann_bob_on_r = Raise st' CancelledError
    /\ emitted st' = emitted ann_bob_on_r ++ ["r"]
    /\ resources st' !! "r" = Some r'
    /\ active_offer_expires_at r' = Some 10000000
    /\ offer_tasks st' !! "r" = Some 1%nat.
Proof.
  assert (List.find (fun y => Nat.eqb (task_id y) 0%nat) (pending ann_bob_on_r)
          = Some (mkTask 0 "r" 5000000)) as Hfind by (vm_compute; reflexivity).
  assert (offer_tasks ann_bob_on_r !! "r" = Some 0%nat) as Hreg by (vm_compute; reflexivity).
  destruct (fire_registered_task 5000000 0%nat ann_bob_on_r (mkTask 0 "r" 5000000)
              r_offered 5000000 ann_row Hfind Hreg ann_bob_resource ann_bob_free eq_refl
              ann_bob_first eq_refl)
    as (st' & r' & E & Hem & Hr' & _ & Hd & Hot & _).
  exists st', r'. split; [exact E|]. split; [exact Hem|]. split; [exact Hr'|].
  split; [exact Hd|exact Hot].
Defined.
